(** * flightSearch: the fetch / cache / normalise / post-filter pipeline

    A shallow embedding of [src/flight_search/models.py],
    [src/flight_search/result_processor.py] and
    [src/flight_search/flight_fetcher.py], followed by the properties the
    specification states about them.

    Conventions of the embedding:
    - a Python [str] is a [string]; [int] is [Z]; an [Optional[...]] field, and
      a JSON key that may be absent, is an [option];
    - a [dict] whose key order matters is an association list in insertion
      order ([PyDict]); the cache file, which is only looked up, is a [gmap];
    - the files on disk, the clock and the remote API form an explicit
      [World] that every effectful function takes and returns;
    - the functions of Python libraries (SHA-256, [datetime.fromisoformat],
      [round] on floats) are fields of the record [PyLib]. *)

From Stdlib Require Import ZArith QArith String Ascii List DecimalString DecimalPos.
From stdpp Require Import base decidable option list functions gmap strings sorting.

Local Open Scope string_scope.
Local Open Scope list_scope.
Local Open Scope Z_scope.

(** ** Python string primitives *)

Module PyStr.

Definition lower_ascii (a : ascii) : ascii :=
  let n := N_of_ascii a in
  if ((65 <=? n) && (n <=? 90))%N then ascii_of_N (n + 32) else a.

Definition upper_ascii (a : ascii) : ascii :=
  let n := N_of_ascii a in
  if ((97 <=? n) && (n <=? 122))%N then ascii_of_N (n - 32) else a.

Fixpoint map_string (f : ascii -> ascii) (s : string) : string :=
  match s with
  | EmptyString => EmptyString
  | String a s' => String (f a) (map_string f s')
  end.

(** [s.lower()] and [s.upper()], on the ASCII letters. *)
Definition lower : string -> string := map_string lower_ascii.
Definition upper : string -> string := map_string upper_ascii.

(** [needle in hay] *)
Fixpoint contains (needle hay : string) : bool :=
  String.prefix needle hay ||
  match hay with
  | EmptyString => false
  | String _ hay' => contains needle hay'
  end.

(** [sep.join(parts)] *)
Definition join (sep : string) (parts : list string) : string :=
  String.concat sep parts.

(** [s.split(",")]: the pieces between commas, at least one piece. *)
Fixpoint split_go (sep : ascii) (cur : string) (s : string) : list string :=
  match s with
  | EmptyString => [String.rev cur]
  | String a s' =>
      if Ascii.eqb a sep then String.rev cur :: split_go sep EmptyString s'
      else split_go sep (String a cur) s'
  end.

Definition split (sep : ascii) (s : string) : list string :=
  split_go sep EmptyString s.

Fixpoint lstrip (s : string) : string :=
  match s with
  | EmptyString => EmptyString
  | String a s' => if Ascii.is_space a then lstrip s' else s
  end.

(** [s.strip()] *)
Definition strip (s : string) : string :=
  String.rev (lstrip (String.rev (lstrip s))).

(** [s[:n]] *)
Definition take (n : nat) (s : string) : string := String.substring 0 n s.

(** [str(n)] for an [int]. *)
Definition str_of_Z (n : Z) : string := NilZero.string_of_int (Z.to_int n).

(** [f"{n:02d}"] *)
Definition fmt_02d (n : Z) : string :=
  if ((0 <=? n) && (n <? 10))%Z then "0" +:+ str_of_Z n else str_of_Z n.

(** [f"{x}"] for an [Optional[str]]. *)
Definition fmt_opt (o : option string) : string :=
  match o with
  | None => "None"
  | Some s => s
  end.

(** Truthiness of a [str]: non-empty. *)
Definition truthy (s : string) : bool := negb (String.eqb s "").

(** Truthiness of an [Optional[str]]. *)
Definition truthy_opt (o : option string) : bool :=
  match o with
  | None => false
  | Some s => truthy s
  end.

End PyStr.

(** ** Python library functions taken as given *)

(** A naive [datetime], as the timestamps of the payload and the documented
    deadline format give; ordering is field by field, as in Python. Values
    with a UTC offset are not modelled. *)
Record datetime := {
  dt_year : Z; dt_month : Z; dt_day : Z;
  dt_hour : Z; dt_minute : Z; dt_second : Z; dt_microsecond : Z
}.

Definition dt_fields (d : datetime) : list Z :=
  [dt_year d; dt_month d; dt_day d; dt_hour d; dt_minute d; dt_second d;
   dt_microsecond d].

Fixpoint lex_gt (xs ys : list Z) : bool :=
  match xs, ys with
  | x :: xs', y :: ys' => ((y <? x) || ((x =? y) && lex_gt xs' ys'))%Z
  | _ :: _, [] => true
  | [], _ => false
  end.

(** [a > b] on naive datetimes. *)
Definition dt_gt (a b : datetime) : bool := lex_gt (dt_fields a) (dt_fields b).

Record PyLib := {
  (** [hashlib.sha256(s.encode()).hexdigest()] *)
  sha256_hex : string -> string;
  (** [datetime.fromisoformat(s)]; [None] stands for [ValueError]. *)
  fromisoformat : string -> option datetime;
  (** [round(grams / 1000, 1)] in floating point. *)
  round_kg : Z -> Q;
  (** [json.dumps(s)] for a [str]: the quoted, escaped literal. *)
  json_string : string -> string
}.

(** ** models.py *)

Module SearchCombination.
Record t := {
  departure_id : string;
  arrival_id : string;
  outbound_date : string;
  return_date : option string;
  type : Z;
  travel_class : Z;
  adults : Z;
  children : Z;
  stops : Z;
  include_airlines : option string;
  exclude_airlines : option string;
  max_price : option Z;
  max_duration : option Z;
  bags : Z;
  sort_by : Z;
  outbound_times : option string;
  return_times : option string
}.
End SearchCombination.
Abbreviation SearchCombination := SearchCombination.t.

(** The two literals of [PostFilter.filter_type]. *)
Inductive FilterType := at_least_one_leg_airline | arrival_before.

(** The three literals of [PostFilter.leg]; [return_leg] is the literal
    ["return"]. *)
Inductive Leg := outbound | return_leg | any.

Record PostFilter := {
  filter_type : FilterType;
  value : string;
  leg : Leg
}.

Record FlightResult := {
  itinerary_type : string;
  origin : string;
  destination : string;
  airline : string;
  flight_numbers : string;
  depart_time : string;
  arrive_time : string;
  return_depart_time : option string;
  return_arrive_time : option string;
  stops : Z;
  return_stops : option Z;
  layover_info : string;
  return_layover_info : option string;
  total_duration_mins : Z;
  return_total_duration_mins : option Z;
  price : Z;
  outbound_price : option Z;
  return_price : option Z;
  total_price : option Z;
  currency : string;
  travel_class : string;
  emissions_kg : option Q;
  airplane : string;
  return_airplane : option string;
  legroom : string;
  return_legroom : option string;
  extensions : string;
  return_flight_numbers : option string;
  return_airline : option string;
  return_extensions : option string;
  preferred : bool
}.

(** [r.preferred = True] *)
Definition set_preferred (r : FlightResult) : FlightResult :=
  {| itinerary_type := itinerary_type r; origin := origin r;
     destination := destination r; airline := airline r;
     flight_numbers := flight_numbers r; depart_time := depart_time r;
     arrive_time := arrive_time r; return_depart_time := return_depart_time r;
     return_arrive_time := return_arrive_time r; stops := stops r;
     return_stops := return_stops r; layover_info := layover_info r;
     return_layover_info := return_layover_info r;
     total_duration_mins := total_duration_mins r;
     return_total_duration_mins := return_total_duration_mins r;
     price := price r; outbound_price := outbound_price r;
     return_price := return_price r; total_price := total_price r;
     currency := currency r; travel_class := travel_class r;
     emissions_kg := emissions_kg r; airplane := airplane r;
     return_airplane := return_airplane r; legroom := legroom r;
     return_legroom := return_legroom r; extensions := extensions r;
     return_flight_numbers := return_flight_numbers r;
     return_airline := return_airline r;
     return_extensions := return_extensions r;
     preferred := true |}.

(** ** The upstream payload (JSON), field by field as the code reads it *)

Record Airport := {
  ap_id : option string;
  ap_time : option string
}.

Record Segment := {
  seg_airline : string;
  seg_flight_number : string;
  seg_airplane : string;
  seg_legroom : string;
  seg_extensions : list string;
  seg_departure_airport : option Airport;
  seg_arrival_airport : option Airport;
  seg_travel_class : option string
}.

Record Layover := {
  lv_duration : option Z;
  lv_id : option string;
  lv_name : option string;
  lv_overnight : bool
}.

Record FlightGroup := {
  grp_flights : list Segment;
  grp_layovers : list Layover;
  grp_price : option Z;
  grp_total_duration : option Z;
  grp_carbon_this_flight : option Z;
  grp_departure_token : option string;
  grp_airline_logo : option string;
  grp_extensions : list string;
  grp_return_flights : list Segment;
  grp_return_layovers : list Layover;
  grp_return_total_duration : option Z;
  grp_return_airline_logo : option string;
  grp_return_extensions : list string
}.

(** A response of the search API: an error field or two arrays of groups. *)
Record Response := {
  resp_error : option string;
  best_flights : list FlightGroup;
  other_flights : list FlightGroup
}.

(** The [combo] summary stored in an independent-pair unit. *)
Record ComboInfo := {
  ci_departure_id : string;
  ci_arrival_id : string;
  ci_outbound_date : string;
  ci_return_date : option string
}.

(** The dicts that [fetch_all] puts in its result list:
    [{}], [{"__fatal_error__": msg}], an API response, or
    [{"__independent_one_way__": True, ...}]. *)
Inductive Raw :=
| RawEmpty
| RawFatal (msg : string)
| RawResponse (r : Response)
| RawIndependent (combo : ComboInfo) (outbound_groups return_groups : list FlightGroup).

(** ** result_processor.py *)

(** [_fmt_duration]: minutes as "5h 42m". *)
Definition _fmt_duration (minutes : Z) : string :=
  let h := minutes / 60 in
  let m := minutes mod 60 in
  PyStr.str_of_Z h +:+ "h " +:+ PyStr.fmt_02d m +:+ "m".

(** [if x and x not in xs: xs.append(x)] *)
Definition append_new_nonempty (xs : list string) (x : string) : list string :=
  if PyStr.truthy x && negb (bool_decide (x ∈ xs)) then xs ++ [x] else xs.

(** [if x not in xs: xs.append(x)] *)
Definition append_new (xs : list string) (x : string) : list string :=
  if bool_decide (x ∈ xs) then xs else xs ++ [x].

(** [if x: xs.append(x)] *)
Definition append_nonempty (xs : list string) (x : string) : list string :=
  if PyStr.truthy x then xs ++ [x] else xs.

(** The five lists that the segment loop of [_process_flight_group] grows. *)
Record SegLists := {
  sl_airlines : list string;
  sl_flight_numbers : list string;
  sl_airplanes : list string;
  sl_legrooms : list string;
  sl_extensions_all : list string
}.

Definition seg_lists_empty : SegLists :=
  {| sl_airlines := []; sl_flight_numbers := []; sl_airplanes := [];
     sl_legrooms := []; sl_extensions_all := [] |}.

(** One iteration of [for seg in segments]. *)
Definition seg_lists_step (acc : SegLists) (seg : Segment) : SegLists :=
  {| sl_airlines := append_new_nonempty (sl_airlines acc) (seg_airline seg);
     sl_flight_numbers := append_nonempty (sl_flight_numbers acc) (seg_flight_number seg);
     sl_airplanes := append_new_nonempty (sl_airplanes acc) (seg_airplane seg);
     sl_legrooms := append_new_nonempty (sl_legrooms acc) (seg_legroom seg);
     sl_extensions_all := fold_left append_new (seg_extensions seg) (sl_extensions_all acc) |}.

Definition seg_lists (segments : list Segment) : SegLists :=
  fold_left seg_lists_step segments seg_lists_empty.

(** [lv.get("id", lv.get("name", "?"))] *)
Definition layover_code (lv : Layover) : string :=
  match lv_id lv with
  | Some c => c
  | None => default "?" (lv_name lv)
  end.

(** One entry of [layover_parts] in [_process_flight_group]. *)
Definition layover_part (lv : Layover) : string :=
  let dur := _fmt_duration (default 0 (lv_duration lv)) in
  let overnight := if lv_overnight lv then " (overnight)" else "" in
  dur +:+ " at " +:+ layover_code lv +:+ overnight.

(** One entry of [layover_parts] in [_extract_group_leg] (no overnight mark). *)
Definition layover_part_leg (lv : Layover) : string :=
  let dur := _fmt_duration (default 0 (lv_duration lv)) in
  dur +:+ " at " +:+ layover_code lv.

(** [seg.get(port, {}).get("id", "")] and [.get("time", "")] *)
Definition airport_id (a : option Airport) : string := default "" (a ≫= ap_id).
Definition airport_time (a : option Airport) : string := default "" (a ≫= ap_time).
(** [seg.get(port, {}).get("time")] *)
Definition airport_time_opt (a : option Airport) : option string := a ≫= ap_time.

(** [", ".join(xs) if xs else None] *)
Definition join_or_none (sep : string) (xs : list string) : option string :=
  match xs with
  | [] => None
  | _ => Some (PyStr.join sep xs)
  end.

(** [_process_flight_group]: one flight group to one [FlightResult];
    [None] when the group has no segment. *)
Definition _process_flight_group (L : PyLib) (group : FlightGroup) : option FlightResult :=
  let segments := grp_flights group in
  match segments with
  | [] => None
  | first :: _ =>
      let last := List.last segments first in
      let sl := seg_lists segments in
      let layover_parts := map layover_part (grp_layovers group) in
      let stops := Z.of_nat (length segments) - 1 in
      let return_segments := grp_return_flights group in
      let return_stops :=
        match return_segments with
        | [] => None
        | _ => Some (Z.of_nat (length return_segments) - 1)
        end in
      let rsl := seg_lists return_segments in
      let return_layover_parts := map layover_part (grp_return_layovers group) in
      let emissions_kg := round_kg L <$> grp_carbon_this_flight group in
      let outbound_price := grp_price group in
      Some
        {| itinerary_type := "round_trip";
           origin := airport_id (seg_departure_airport first);
           destination := airport_id (seg_arrival_airport last);
           airline := PyStr.join ", " (sl_airlines sl);
           flight_numbers := PyStr.join " / " (sl_flight_numbers sl);
           depart_time := airport_time (seg_departure_airport first);
           arrive_time := airport_time (seg_arrival_airport last);
           return_depart_time :=
             match return_segments with
             | [] => None
             | return_first :: _ => airport_time_opt (seg_departure_airport return_first)
             end;
           return_arrive_time :=
             match return_segments with
             | [] => None
             | return_first :: _ =>
                 airport_time_opt
                   (seg_arrival_airport (List.last return_segments return_first))
             end;
           stops := stops;
           return_stops := return_stops;
           layover_info := PyStr.join "; " layover_parts;
           return_layover_info := join_or_none "; " return_layover_parts;
           total_duration_mins := default 0 (grp_total_duration group);
           return_total_duration_mins := grp_return_total_duration group;
           price := default 0 outbound_price;
           outbound_price := outbound_price;
           return_price := None;
           total_price := outbound_price;
           currency := "USD";
           travel_class := default "Economy" (seg_travel_class first);
           emissions_kg := emissions_kg;
           airplane := PyStr.join ", " (sl_airplanes sl);
           return_airplane := join_or_none ", " (sl_airplanes rsl);
           legroom := PyStr.join ", " (sl_legrooms sl);
           return_legroom := join_or_none ", " (sl_legrooms rsl);
           extensions := PyStr.join ", " (sl_extensions_all sl);
           return_flight_numbers := join_or_none " / " (sl_flight_numbers rsl);
           return_airline := join_or_none ", " (sl_airlines rsl);
           return_extensions := join_or_none ", " (sl_extensions_all rsl);
           preferred := false |}
  end.

(** The dict that [_extract_group_leg] returns. *)
Record GroupLeg := {
  leg_origin : string;
  leg_destination : string;
  leg_airline : string;
  leg_flight_numbers : string;
  leg_depart_time : string;
  leg_arrive_time : string;
  leg_stops : Z;
  leg_layover_info : string;
  leg_duration : Z;
  leg_price : Z;
  leg_travel_class : string
}.

(** One iteration of the segment loop of [_extract_group_leg]. *)
Definition leg_lists_step (acc : list string * list string) (seg : Segment)
  : list string * list string :=
  (append_new_nonempty acc.1 (seg_airline seg),
   append_nonempty acc.2 (seg_flight_number seg)).

(** [_extract_group_leg]: the core of a one-way group; [None] without segments. *)
Definition _extract_group_leg (group : FlightGroup) : option GroupLeg :=
  let segments := grp_flights group in
  match segments with
  | [] => None
  | first :: _ =>
      let last := List.last segments first in
      let '(airlines, flight_numbers) := fold_left leg_lists_step segments ([], []) in
      let layover_parts := map layover_part_leg (grp_layovers group) in
      Some
        {| leg_origin := airport_id (seg_departure_airport first);
           leg_destination := airport_id (seg_arrival_airport last);
           leg_airline := PyStr.join ", " airlines;
           leg_flight_numbers := PyStr.join " / " flight_numbers;
           leg_depart_time := airport_time (seg_departure_airport first);
           leg_arrive_time := airport_time (seg_arrival_airport last);
           leg_stops := Z.of_nat (length segments) - 1;
           leg_layover_info := PyStr.join "; " layover_parts;
           leg_duration := default 0 (grp_total_duration group);
           leg_price := default 0 (grp_price group);
           leg_travel_class := default "Economy" (seg_travel_class first) |}
  end.

(** The [FlightResult] built in the inner loop of [_build_independent_pairs]. *)
Definition make_pair (out_leg ret_leg : GroupLeg) : FlightResult :=
  let total_price := leg_price out_leg + leg_price ret_leg in
  {| itinerary_type := "independent_one_way";
     origin := leg_origin out_leg;
     destination := leg_destination out_leg;
     airline := leg_airline out_leg;
     flight_numbers := leg_flight_numbers out_leg;
     depart_time := leg_depart_time out_leg;
     arrive_time := leg_arrive_time out_leg;
     return_depart_time := Some (leg_depart_time ret_leg);
     return_arrive_time := Some (leg_arrive_time ret_leg);
     stops := leg_stops out_leg;
     return_stops := Some (leg_stops ret_leg);
     layover_info := leg_layover_info out_leg;
     return_layover_info := Some (leg_layover_info ret_leg);
     total_duration_mins := leg_duration out_leg;
     return_total_duration_mins := Some (leg_duration ret_leg);
     price := total_price;
     outbound_price := Some (leg_price out_leg);
     return_price := Some (leg_price ret_leg);
     total_price := Some total_price;
     currency := "USD";
     travel_class := leg_travel_class out_leg;
     emissions_kg := None;
     airplane := "";
     return_airplane := None;
     legroom := "";
     return_legroom := None;
     extensions := "";
     return_flight_numbers := Some (leg_flight_numbers ret_leg);
     return_airline := Some (leg_airline ret_leg);
     return_extensions := None;
     preferred := false |}.

(** The inner loop [for ret_g in top_ret] for a fixed outbound leg. *)
Definition pairs_for_out (out_leg : GroupLeg) (top_ret : list FlightGroup)
    (pairs : list FlightResult) : list FlightResult :=
  fold_left
    (fun pairs ret_g =>
       match _extract_group_leg ret_g with
       | None => pairs
       | Some ret_leg => pairs ++ [make_pair out_leg ret_leg]
       end)
    top_ret pairs.

(** [_build_independent_pairs] on the two group lists of an independent-pair
    unit. *)
Definition _build_independent_pairs (outbound_groups return_groups : list FlightGroup)
  : list FlightResult :=
  match outbound_groups, return_groups with
  | [], _ | _, [] => []
  | _, _ =>
      let top_out := firstn 3 outbound_groups in
      let top_ret := firstn 3 return_groups in
      fold_left
        (fun pairs out_g =>
           match _extract_group_leg out_g with
           | None => pairs
           | Some out_leg => pairs_for_out out_leg top_ret pairs
           end)
        top_out []
  end.

(** The f-string that [process_results] uses as set element. *)
Definition dedup_key (result : FlightResult) : string :=
  itinerary_type result +:+ "|" +:+ flight_numbers result +:+ "|" +:+
  depart_time result +:+ "|" +:+
  PyStr.fmt_opt (return_flight_numbers result) +:+ "|" +:+
  PyStr.fmt_opt (return_depart_time result).

(** State of the loops of [process_results]: [seen] and [results]. *)
Definition DedupState : Type := gset string * list FlightResult.

(** [if dedup_key in seen: continue; seen.add(dedup_key); results.append(result)] *)
Definition dedup_add (st : DedupState) (result : FlightResult) : DedupState :=
  let key := dedup_key result in
  if decide (key ∈ st.1) then st else ({[key]} ∪ st.1, st.2 ++ [result]).

(** The results one raw response contributes, before deduplication. *)
Definition response_results (L : PyLib) (response : Raw) : list FlightResult :=
  match response with
  | RawEmpty => []
  | RawIndependent _ outbound_groups return_groups =>
      _build_independent_pairs outbound_groups return_groups
  | RawFatal _ => []
  | RawResponse r =>
      omap (_process_flight_group L) (best_flights r ++ other_flights r)
  end.

(** [process_results] *)
Definition process_results (L : PyLib) (raw_responses : list Raw) : list FlightResult :=
  (fold_left
     (fun st response => fold_left dedup_add (response_results L response) st)
     raw_responses (∅, [])).2.

(** [_airline_matches] *)
Definition _airline_matches (r : FlightResult) (needle : string) (lg : Leg) : bool :=
  let out_match := PyStr.contains needle (PyStr.lower (airline r)) in
  let ret_match := PyStr.contains needle (PyStr.lower (default "" (return_airline r))) in
  match lg with
  | outbound => out_match
  | return_leg => ret_match
  | any => out_match || ret_match
  end.

(** The body of [for r in results] in the [arrival_before] branch: the final
    value of [keep]. *)
Definition arrival_keep (L : PyLib) (lg : Leg) (deadline : datetime) (r : FlightResult) : bool :=
  let keep := true in
  let keep :=
    if match lg with outbound | any => true | return_leg => false end
       && PyStr.truthy (arrive_time r)
    then match fromisoformat L (arrive_time r) with
         | Some arr => if dt_gt arr deadline then false else keep
         | None => keep
         end
    else keep in
  let keep :=
    if match lg with return_leg | any => true | outbound => false end
       && PyStr.truthy_opt (return_arrive_time r) && keep
    then match fromisoformat L (default "" (return_arrive_time r)) with
         | Some ret_arr => if dt_gt ret_arr deadline then false else keep
         | None => keep
         end
    else keep in
  keep.

(** One iteration of [for pf in post_filters]. *)
Definition apply_post_filter (L : PyLib) (results : list FlightResult) (pf : PostFilter)
  : list FlightResult :=
  match filter_type pf with
  | at_least_one_leg_airline =>
      let needle := PyStr.lower (value pf) in
      let preferred := List.filter (fun r => _airline_matches r needle (leg pf)) results in
      let others := List.filter (fun r => negb (_airline_matches r needle (leg pf))) results in
      map set_preferred preferred ++ others
  | arrival_before =>
      match fromisoformat L (value pf) with
      | None => results
      | Some deadline => List.filter (arrival_keep L (leg pf) deadline) results
      end
  end.

(** [apply_post_filters] *)
Definition apply_post_filters (L : PyLib) (results : list FlightResult)
    (post_filters : list PostFilter) : list FlightResult :=
  fold_left (apply_post_filter L) post_filters results.

(** *** The same filters on object references

    The results are Python objects: [apply_post_filters] sets [preferred] on
    the objects its argument refers to, and the list it returns refers to
    those same objects. Here a heap gives every object its current state and
    a result list is a list of references. *)





(** ** Python dicts with string keys, in insertion order *)

Module PyDict.

Definition dict (V : Type) : Type := list (string * V).

Definition keys {V} (d : dict V) : list string := map fst d.

(** A well-formed dict holds every key once. *)
Definition wf {V} (d : dict V) : Prop := NoDup (keys d).

(** [d.get(k)] *)
Fixpoint get {V} (k : string) (d : dict V) : option V :=
  match d with
  | [] => None
  | (k', v) :: d' => if String.eqb k' k then Some v else get k d'
  end.

(** [d[k] = v]: an existing key keeps its place, a new key goes last. *)
Fixpoint set {V} (k : string) (v : V) (d : dict V) : dict V :=
  match d with
  | [] => [(k, v)]
  | (k', v') :: d' =>
      if String.eqb k' k then (k', v) :: d' else (k', v') :: set k v d'
  end.

(** [d.pop(k, None)], for its effect on [d]. *)
Definition pop {V} (k : string) (d : dict V) : dict V :=
  List.filter (fun kv => negb (String.eqb kv.1 k)) d.

(** [{k: v for k, v in items}] *)
Definition of_items {V} (items : list (string * V)) : dict V :=
  fold_left (fun d kv => set kv.1 kv.2 d) items [].

End PyDict.

Abbreviation Params := (PyDict.dict string).

(** ** config.py, the files and the remote service *)

Record Config := {
  SERPAPI_KEY : string;
  SERPAPI_MONTHLY_LIMIT : Z;
  SERPAPI_CACHE_TTL_HOURS : Z;
  NO_CACHE : bool
}.

(** The values written in config.py. *)
Definition default_config (key : string) : Config :=
  {| SERPAPI_KEY := key; SERPAPI_MONTHLY_LIMIT := 250;
     SERPAPI_CACHE_TTL_HOURS := 12; NO_CACHE := false |}.

(** Content of the usage file. *)
Record UsageRecord := {
  month : string;
  count : Z
}.

(** One entry of the cache file. *)
Record CacheEntry := {
  ce_timestamp : Q;
  ce_response : Response
}.

(** What [GoogleSearch(params).get_dict()] does: raise, or return a dict. *)
Inductive ApiOutcome :=
| ApiRaises
| ApiReturns (results : Response).

(** What the code reads but never writes during a run: the configuration,
    the library, the clock ([datetime.now(timezone.utc).timestamp()] and
    [date.today().strftime("%Y-%m")], taken at one instant for the whole
    run), and the remote service, whose answer may depend on the requests
    already made. *)
Record Env := {
  cfg : Config;
  lib : PyLib;
  now : Q;
  today_month : string;
  serp : list Params -> Params -> ApiOutcome
}.

(** What the code reads and writes: the usage file ([None]: missing or
    unreadable), the cache file, the requests sent so far, and the number of
    [time.sleep] pauses taken. *)
Record World := {
  usage_file : option UsageRecord;
  cache_file : gmap string CacheEntry;
  api_log : list Params;
  sleeps : nat
}.

Definition with_usage (u : UsageRecord) (w : World) : World :=
  {| usage_file := Some u; cache_file := cache_file w;
     api_log := api_log w; sleeps := sleeps w |}.

Definition with_cache (c : gmap string CacheEntry) (w : World) : World :=
  {| usage_file := usage_file w; cache_file := c;
     api_log := api_log w; sleeps := sleeps w |}.

(** The world after one more request was sent. *)
Definition log_request (params : Params) (w : World) : World :=
  {| usage_file := usage_file w; cache_file := cache_file w;
     api_log := api_log w ++ [params]; sleeps := sleeps w |}.

(** [GoogleSearch(params).get_dict()] *)
Definition api_call (E : Env) (params : Params) (w : World) : ApiOutcome * World :=
  (serp E (api_log w) params, log_request params w).

(** [time.sleep(config.SERPAPI_CALL_DELAY)] *)
Definition sleep (w : World) : World :=
  {| usage_file := usage_file w; cache_file := cache_file w;
     api_log := api_log w; sleeps := S (sleeps w) |}.

(** ** flight_fetcher.py: usage tracking *)

Definition fresh_usage (E : Env) : UsageRecord :=
  {| month := today_month E; count := 0 |}.

(** [_load_usage] *)
Definition _load_usage (E : Env) (w : World) : UsageRecord :=
  match usage_file w with
  | None => fresh_usage E
  | Some data =>
      if negb (String.eqb (month data) (today_month E)) then fresh_usage E
      else data
  end.

(** [_save_usage] *)
Definition _save_usage (usage : UsageRecord) (w : World) : World :=
  with_usage usage w.

(** [get_monthly_usage] *)
Definition get_monthly_usage (E : Env) (w : World) : Z := count (_load_usage E w).

(** [_increment_usage] *)
Definition _increment_usage (E : Env) (w : World) : Z * World :=
  let usage := _load_usage E w in
  let usage := {| month := month usage; count := count usage + 1 |} in
  (count usage, _save_usage usage w).

(** [usage["count"] >= config.SERPAPI_MONTHLY_LIMIT] *)
Definition quota_reached (E : Env) (w : World) : bool :=
  SERPAPI_MONTHLY_LIMIT (cfg E) <=? count (_load_usage E w).

(** ** flight_fetcher.py: the response cache *)

(** Tuple order on [(key, value)] items, used by [sorted(params.items())]. *)
Definition item_le (a b : string * string) : Prop :=
  if decide (a.1 = b.1) then String.le a.2 b.2 else String.le a.1 b.1.

Global Instance item_le_dec : RelDecision item_le.
Proof. intros a b. unfold item_le. destruct (decide (a.1 = b.1)); apply _. Defined.

(** Key order, used by [json.dumps(..., sort_keys=True)]. *)
Definition key_le (a b : string * string) : Prop := String.le a.1 b.1.

Global Instance key_le_dec : RelDecision key_le.
Proof. intros a b. unfold key_le. apply _. Defined.

(** [json.dumps(d, sort_keys=True)] for a dict of strings. *)
Definition json_dumps_sorted (L : PyLib) (d : Params) : string :=
  "{" +:+
  PyStr.join ", "
    (map (fun kv => json_string L kv.1 +:+ ": " +:+ json_string L kv.2)
         (merge_sort key_le d))
  +:+ "}".

(** The dict [stable] of [_cache_key]. *)
Definition stable_params (params : Params) : Params :=
  PyDict.of_items
    (List.filter (fun kv => negb (String.eqb kv.1 "api_key"))
                 (merge_sort item_le params)).

(** [_cache_key] *)
Definition _cache_key (E : Env) (params : Params) : string :=
  sha256_hex (lib E) (json_dumps_sorted (lib E) (stable_params params)).

(** [_cache_load] *)
Definition _cache_load (w : World) : gmap string CacheEntry := cache_file w.

(** [now - v.get("timestamp", 0) < ttl_seconds] in [_cache_save]. *)
Definition keep_on_save (E : Env) (v : CacheEntry) : bool :=
  let ttl_seconds := inject_Z (SERPAPI_CACHE_TTL_HOURS (cfg E) * 3600) in
  negb (Qle_bool ttl_seconds (now E - ce_timestamp v)).

(** [_cache_save]: prune, then write. *)
Definition _cache_save (E : Env) (cache : gmap string CacheEntry) (w : World) : World :=
  with_cache (filter (fun kv => Is_true (keep_on_save E kv.2)) cache) w.

(** [age_hours > config.SERPAPI_CACHE_TTL_HOURS] in [_cache_lookup]. *)
Definition expired (E : Env) (entry : CacheEntry) : bool :=
  let age_hours := ((now E - ce_timestamp entry) / inject_Z 3600)%Q in
  negb (Qle_bool age_hours (inject_Z (SERPAPI_CACHE_TTL_HOURS (cfg E)))).

(** [_cache_lookup] *)
Definition _cache_lookup (E : Env) (params : Params) (w : World) : option Response :=
  if NO_CACHE (cfg E) then None
  else
    let key := _cache_key E params in
    let cache := _cache_load w in
    match cache !! key with
    | None => None
    | Some entry => if expired E entry then None else Some (ce_response entry)
    end.

(** [_cache_store] *)
Definition _cache_store (E : Env) (params : Params) (response : Response) (w : World) : World :=
  if NO_CACHE (cfg E) then w
  else
    let key := _cache_key E params in
    let cache := _cache_load w in
    let cache := <[key := {| ce_timestamp := now E; ce_response := response |}]> cache in
    _cache_save E cache w.

(** ** flight_fetcher.py: building the request *)

Definition _METRO_EXPANSION : PyDict.dict string :=
  [("WAS", "DCA,IAD,BWI"); ("NYC", "JFK,EWR,LGA"); ("CHI", "ORD,MDW");
   ("YTO", "YYZ,YTZ"); ("BJS", "PEK,PKX"); ("SEA", "SEA")].

(** [_expand_airports] *)
Definition _expand_airports (code : string) : string :=
  default code (PyDict.get (PyStr.upper code) _METRO_EXPANSION).

(** [_departure_only] *)
Definition _departure_only (time_str : string) : string :=
  match PyStr.split ","%char time_str with
  | p0 :: p1 :: _ => PyStr.strip p0 +:+ "," +:+ PyStr.strip p1
  | _ => time_str
  end.

(** [if o: d[k] = f(o)] for an [Optional[str]] field. *)
Definition set_if_truthy (k : string) (o : option string) (f : string -> string)
    (d : Params) : Params :=
  match o with
  | Some s => if PyStr.truthy s then PyDict.set k (f s) d else d
  | None => d
  end.

(** [if o is not None: d[k] = str(o)] for an [Optional[int]] field. *)
Definition set_if_some (k : string) (o : option Z) (d : Params) : Params :=
  match o with
  | Some n => PyDict.set k (PyStr.str_of_Z n) d
  | None => d
  end.

(** [combo.type == 1 and combo.return_date] *)
Definition is_round_trip (combo : SearchCombination) : bool :=
  (SearchCombination.type combo =? 1) && PyStr.truthy_opt (SearchCombination.return_date combo).

(** [_build_params] *)
Definition _build_params (E : Env) (combo : SearchCombination) : Params :=
  let params : Params :=
    [("engine", "google_flights");
     ("api_key", SERPAPI_KEY (cfg E));
     ("departure_id", _expand_airports (SearchCombination.departure_id combo));
     ("arrival_id", _expand_airports (SearchCombination.arrival_id combo));
     ("outbound_date", SearchCombination.outbound_date combo);
     ("type", PyStr.str_of_Z (SearchCombination.type combo));
     ("travel_class", PyStr.str_of_Z (SearchCombination.travel_class combo));
     ("adults", PyStr.str_of_Z (SearchCombination.adults combo));
     ("children", PyStr.str_of_Z (SearchCombination.children combo));
     ("stops", PyStr.str_of_Z (SearchCombination.stops combo));
     ("sort_by", PyStr.str_of_Z (SearchCombination.sort_by combo));
     ("bags", PyStr.str_of_Z (SearchCombination.bags combo));
     ("currency", "USD");
     ("hl", "en");
     ("gl", "us");
     ("deep_search", "true")] in
  let params := set_if_truthy "return_date" (SearchCombination.return_date combo) id params in
  let params :=
    if PyStr.truthy_opt (SearchCombination.include_airlines combo)
    then set_if_truthy "include_airlines" (SearchCombination.include_airlines combo) id params
    else set_if_truthy "exclude_airlines" (SearchCombination.exclude_airlines combo) id params in
  let params := set_if_some "max_price" (SearchCombination.max_price combo) params in
  let params := set_if_some "max_duration" (SearchCombination.max_duration combo) params in
  let params :=
    set_if_truthy "outbound_times" (SearchCombination.outbound_times combo) _departure_only params in
  let params :=
    set_if_truthy "return_times" (SearchCombination.return_times combo) _departure_only params in
  params.

(** ** flight_fetcher.py: the calls *)

(** [results.get("error")] is truthy. *)
Definition has_error (results : Response) : bool := PyStr.truthy_opt (resp_error results).

(** [results.get("best_flights", []) + results.get("other_flights", [])] *)
Definition all_groups (results : Response) : list FlightGroup :=
  best_flights results ++ other_flights results.

(** [_lookup_return_group]; [None] is the empty dict it returns when no
    return group is available. *)
Definition _lookup_return_group (E : Env) (base_params : Params) (departure_token : string)
    (w : World) : option FlightGroup * World :=
  let params := PyDict.set "departure_token" departure_token base_params in
  match _cache_lookup E params w with
  | Some cached => (head (all_groups cached), w)
  | None =>
      if quota_reached E w then (None, w)
      else
        match api_call E params w with
        | (ApiRaises, w) => (None, w)
        | (ApiReturns results, w) =>
            if has_error results then (None, w)
            else
              match all_groups results with
              | [] => (None, w)
              | g :: _ =>
                  let '(_, w) := _increment_usage E w in
                  let w := _cache_store E params results w in
                  (Some g, w)
              end
        end
  end.

(** [_fetch_one_way_groups] *)
Definition _fetch_one_way_groups (E : Env) (params : Params) (w : World)
  : list FlightGroup * World :=
  match _cache_lookup E params w with
  | Some cached => (all_groups cached, w)
  | None =>
      if quota_reached E w then ([], w)
      else
        match api_call E params w with
        | (ApiRaises, w) => ([], w)
        | (ApiReturns results, w) =>
            if has_error results then ([], w)
            else
              let groups := all_groups results in
              match groups with
              | [] => (groups, w)
              | _ :: _ =>
                  let '(_, w) := _increment_usage E w in
                  let w := _cache_store E params results w in
                  (groups, w)
              end
        end
  end.

(** The five assignments that attach a return group to an outbound group. *)
Definition attach_return (group return_group : FlightGroup) : FlightGroup :=
  {| grp_flights := grp_flights group;
     grp_layovers := grp_layovers group;
     grp_price := grp_price group;
     grp_total_duration := grp_total_duration group;
     grp_carbon_this_flight := grp_carbon_this_flight group;
     grp_departure_token := grp_departure_token group;
     grp_airline_logo := grp_airline_logo group;
     grp_extensions := grp_extensions group;
     grp_return_flights := grp_flights return_group;
     grp_return_layovers := grp_layovers return_group;
     grp_return_total_duration := grp_total_duration return_group;
     grp_return_airline_logo := grp_airline_logo return_group;
     grp_return_extensions := grp_extensions return_group |}.

(** The body of [for group in all_groups[:5]] in [_enrich_return_legs]. *)
Definition enrich_group (E : Env) (params : Params) (group : FlightGroup) (w : World)
  : FlightGroup * World :=
  match grp_departure_token group with
  | None => (group, w)
  | Some token =>
      if negb (PyStr.truthy token) then (group, w)
      else
        match _lookup_return_group E params token w with
        | (None, w) => (group, w)
        | (Some return_group, w) => (attach_return group return_group, w)
        end
  end.

(** The loop of [_enrich_return_legs] over a list of groups. *)
Fixpoint enrich_groups (E : Env) (params : Params) (groups : list FlightGroup) (w : World)
  : list FlightGroup * World :=
  match groups with
  | [] => ([], w)
  | group :: rest =>
      let '(group, w) := enrich_group E params group w in
      let '(rest, w) := enrich_groups E params rest w in
      (group :: rest, w)
  end.

(** [_enrich_return_legs]: the first five groups of [best + other] are
    updated in place, so the response comes back with those groups changed.
    The argument [combo] is not used, as in the source. *)
Definition _enrich_return_legs (E : Env) (results : Response) (params : Params)
    (combo : SearchCombination) (w : World) : Response * World :=
  let groups := all_groups results in
  let '(top, w) := enrich_groups E params (firstn 5 groups) w in
  let groups := top ++ skipn 5 groups in
  let n := length (best_flights results) in
  ({| resp_error := resp_error results;
      best_flights := firstn n groups;
      other_flights := skipn n groups |}, w).

(** ["invalid api key" in str(error).lower()] *)
Definition is_invalid_key (error : string) : bool :=
  PyStr.contains "invalid api key" (PyStr.lower error).

(** [fetch_combination]; the progress arguments [index] and [total] only
    feed the console output. *)
Definition fetch_combination (E : Env) (combo : SearchCombination) (index total : Z)
    (w : World) : Raw * World :=
  if quota_reached E w then (RawEmpty, w)
  else
    let params := _build_params E combo in
    match _cache_lookup E params w with
    | Some cached =>
        if is_round_trip combo then
          let '(cached, w) := _enrich_return_legs E cached params combo w in
          (RawResponse cached, w)
        else (RawResponse cached, w)
    | None =>
        match api_call E params w with
        | (ApiRaises, w) => (RawEmpty, w)
        | (ApiReturns results, w) =>
            if has_error results then
              if is_invalid_key (default "" (resp_error results))
              then (RawFatal (default "" (resp_error results)), w)
              else (RawEmpty, w)
            else
              let '(_, w) := _increment_usage E w in
              let w := _cache_store E params results w in
              if is_round_trip combo then
                let '(results, w) := _enrich_return_legs E results params combo w in
                (RawResponse results, w)
              else (RawResponse results, w)
        end
    end.

(** ** flight_fetcher.py: [fetch_all] *)

(** [raw.get("__fatal_error__")] is truthy. *)
Definition is_fatal (raw : Raw) : bool :=
  match raw with
  | RawFatal msg => PyStr.truthy msg
  | _ => false
  end.

(** The outbound one-way request derived from [base]: type 2, no return
    fields, and a four-part outbound window cut to its departure half. *)
Definition one_way_outbound_params (base : Params) : Params :=
  let p := PyDict.set "type" "2" base in
  let p := PyDict.pop "return_date" p in
  let p := PyDict.pop "return_times" p in
  match PyDict.get "outbound_times" p with
  | Some s =>
      if PyStr.truthy s then
        match PyStr.split ","%char s with
        | [p0; p1; _; _] => PyDict.set "outbound_times" (p0 +:+ "," +:+ p1) p
        | _ => p
        end
      else p
  | None => p
  end.

(** The return one-way request derived from [base]: the airports swapped,
    the return date as outbound date, the return window as outbound window. *)
Definition one_way_return_params (combo : SearchCombination) (base : Params) : Params :=
  let p := PyDict.set "type" "2" base in
  let p := PyDict.set "departure_id" (_expand_airports (SearchCombination.arrival_id combo)) p in
  let p := PyDict.set "arrival_id" (_expand_airports (SearchCombination.departure_id combo)) p in
  let p := PyDict.set "outbound_date" (default "" (SearchCombination.return_date combo)) p in
  let p := PyDict.pop "return_date" p in
  let p := PyDict.pop "outbound_times" p in
  set_if_truthy "outbound_times" (SearchCombination.return_times combo)
    (fun return_times =>
       match PyStr.split ","%char return_times with
       | rt0 :: rt1 :: _ => rt0 +:+ "," +:+ rt1
       | _ => return_times
       end)
    p.

Definition combo_info (combo : SearchCombination) : ComboInfo :=
  {| ci_departure_id := SearchCombination.departure_id combo;
     ci_arrival_id := SearchCombination.arrival_id combo;
     ci_outbound_date := SearchCombination.outbound_date combo;
     ci_return_date := SearchCombination.return_date combo |}.

(** The two one-way searches and the independent-pair unit made of them. *)
Definition fetch_independent (E : Env) (combo : SearchCombination) (base : Params)
    (w : World) : Raw * World :=
  let outbound_params := one_way_outbound_params base in
  let return_params := one_way_return_params combo base in
  let '(outbound_groups, w) := _fetch_one_way_groups E outbound_params w in
  let '(return_groups, w) := _fetch_one_way_groups E return_params w in
  (RawIndependent (combo_info combo) outbound_groups return_groups, w).

(** [base] of the main loop: the request without airline filters. *)
Definition independent_base (E : Env) (combo : SearchCombination) : Params :=
  PyDict.pop "exclude_airlines" (PyDict.pop "include_airlines" (_build_params E combo)).

(** What one iteration of the main loop does after a non-fatal [raw] was
    appended: the independent one-way legs, then the pause. *)
Definition after_combination (E : Env) (total i : Z) (combo : SearchCombination)
    (results : list Raw) (w : World) : list Raw * World :=
  let '(results, w) :=
    if is_round_trip combo then
      let '(unit, w) := fetch_independent E combo (independent_base E combo) w in
      (results ++ [unit], w)
    else (results, w) in
  (results, if i <? total then sleep w else w).

(** The main loop [for i, combo in enumerate(combinations, start=1)]. *)
Fixpoint fetch_loop (E : Env) (total i : Z) (combinations : list SearchCombination)
    (results : list Raw) (w : World) : list Raw * World :=
  match combinations with
  | [] => (results, w)
  | combo :: rest =>
      let '(raw, w) := fetch_combination E combo i total w in
      if is_fatal raw then (results ++ [raw], w)
      else
        let '(results, w) := after_combination E total i combo (results ++ [raw]) w in
        fetch_loop E total (i + 1) rest results w
  end.

Definition _NAME_TO_IATA : PyDict.dict string :=
  [("spirit", "NK"); ("frontier", "F9"); ("southwest", "WN"); ("allegiant", "G4");
   ("sun country", "SY"); ("breeze", "MX"); ("avelo", "XP"); ("jetblue", "B6");
   ("alaska", "AS"); ("hawaiian", "HA"); ("united", "UA"); ("american", "AA");
   ("delta", "DL"); ("british airways", "BA"); ("lufthansa", "LH")].

Definition route_key (combo : SearchCombination) : string :=
  SearchCombination.departure_id combo +:+ "|" +:+
  SearchCombination.arrival_id combo +:+ "|" +:+
  SearchCombination.outbound_date combo +:+ "|" +:+
  PyStr.fmt_opt (SearchCombination.return_date combo).

(** [base] of the dual fetch: the request with the airline forced in. *)
Definition dual_base (E : Env) (combo : SearchCombination) (af : PostFilter) : Params :=
  let iata :=
    default (PyStr.take 2 (PyStr.upper (value af)))
            (PyDict.get (PyStr.lower (value af)) _NAME_TO_IATA) in
  PyDict.pop "exclude_airlines" (PyDict.set "include_airlines" iata (_build_params E combo)).

(** [for af in airline_filters] for one route. *)
Definition dual_route (E : Env) (combo : SearchCombination) (airline_filters : list PostFilter)
    (results : list Raw) (w : World) : list Raw * World :=
  fold_left
    (fun '(results, w) af =>
       let '(unit, w) := fetch_independent E combo (dual_base E combo af) w in
       (results ++ [unit], w))
    airline_filters (results, w).

(** The dual-fetch loop [for combo in combinations]. *)
Fixpoint dual_loop (E : Env) (airline_filters : list PostFilter)
    (combinations : list SearchCombination) (seen_routes : gset string)
    (results : list Raw) (w : World) : list Raw * World :=
  match combinations with
  | [] => (results, w)
  | combo :: rest =>
      if bool_decide (route_key combo ∈ seen_routes) || negb (is_round_trip combo)
      then dual_loop E airline_filters rest seen_routes results w
      else
        let seen_routes := {[route_key combo]} ∪ seen_routes in
        let '(results, w) := dual_route E combo airline_filters results w in
        dual_loop E airline_filters rest seen_routes results (sleep w)
  end.

(** [fetch_all] *)
Definition fetch_all (E : Env) (combinations : list SearchCombination)
    (post_filters : list PostFilter) (w : World) : list Raw * World :=
  let total := Z.of_nat (length combinations) in
  let '(results, w) := fetch_loop E total 1 combinations [] w in
  let airline_filters :=
    List.filter
      (fun f => match filter_type f with at_least_one_leg_airline => true | _ => false end)
      post_filters in
  match airline_filters, combinations with
  | _ :: _, _ :: _ => dual_loop E airline_filters combinations ∅ results w
  | _, _ => (results, w)
  end.

(** ** result_processor.py: [sort_results] *)

(** [sorted(xs, key=key)]. Python's sort is stable and compares keys with
    [<] only; the stable insertion sort computes the same list. An element
    goes before the first one whose key is not smaller than its own. *)
Fixpoint insert_sorted {A K} (lt : K -> K -> bool) (key : A -> K) (x : A) (xs : list A)
  : list A :=
  match xs with
  | [] => [x]
  | y :: xs' => if lt (key y) (key x) then y :: insert_sorted lt key x xs' else x :: xs
  end.

Definition sorted_by {A K} (lt : K -> K -> bool) (key : A -> K) (xs : list A) : list A :=
  fold_right (insert_sorted lt key) [] xs.

(** The four sort keys of [sort_results]. *)
Definition duration_key (r : FlightResult) : Z :=
  total_duration_mins r + default 0 (return_total_duration_mins r).

Definition price_key (r : FlightResult) : Z :=
  match total_price r with
  | Some p => p
  | None => price r
  end.

(** [sort_results] *)
Definition sort_results (results : list FlightResult) (ranking_preference : string)
  : list FlightResult :=
  let pref := PyStr.lower ranking_preference in
  if PyStr.contains "duration" pref then sorted_by Z.ltb duration_key results
  else if PyStr.contains "departure" pref || PyStr.contains "depart" pref
  then sorted_by String.ltb depart_time results
  else if PyStr.contains "arrival" pref || PyStr.contains "arrive" pref
  then sorted_by String.ltb arrive_time results
  else sorted_by Z.ltb price_key results.

(** ** models.py: [ParsedQuery] *)

Module ParsedQuery.
Record t := {
  combinations : list SearchCombination;
  ranking_preference : string;
  query_summary : string;
  post_filters : list PostFilter
}.
End ParsedQuery.
Abbreviation ParsedQuery := ParsedQuery.t.

(** ** __main__.py: from the fetch to the export *)

(** How steps 5 to 7 of [main] end: [sys.exit(1)] on a fatal error,
    [sys.exit(0)] when no flight is found or none is left after the
    post-filters, or the list handed to [export]. *)
Inductive RunOutcome :=
| ExitFatal (fatal_error : string)
| ExitNoFlights
| ExitNoneLeft
| Exported (results : list FlightResult).

(** [next((r.get("__fatal_error__") for r in raw_responses
          if ... r.get("__fatal_error__")), None)] *)
Definition first_fatal (raw_responses : list Raw) : option string :=
  head (omap (fun r => match r with
                       | RawFatal msg => if PyStr.truthy msg then Some msg else None
                       | _ => None
                       end) raw_responses).

(** Steps 5, 6, 6b and the sort of [main], for a parsed query. *)
Definition search_and_rank (E : Env) (parsed : ParsedQuery) (w : World) : RunOutcome * World :=
  let '(raw_responses, w) :=
    fetch_all E (ParsedQuery.combinations parsed) (ParsedQuery.post_filters parsed) w in
  match first_fatal raw_responses with
  | Some fatal_error => (ExitFatal fatal_error, w)
  | None =>
      let results := process_results (lib E) raw_responses in
      match results with
      | [] => (ExitNoFlights, w)
      | _ :: _ =>
          match ParsedQuery.post_filters parsed with
          | [] => (Exported (sort_results results (ParsedQuery.ranking_preference parsed)), w)
          | _ :: _ =>
              let results :=
                apply_post_filters (lib E) results (ParsedQuery.post_filters parsed) in
              match results with
              | [] => (ExitNoneLeft, w)
              | _ :: _ =>
                  (Exported (sort_results results (ParsedQuery.ranking_preference parsed)), w)
              end
          end
      end
  end.

(** ** llm_parser.py: the persisted parse *)

(** Content of [.last_parse.json]. *)
Record ParseFile := {
  pf_query_hash : string;
  pf_timestamp : Q;
  pf_parsed : ParsedQuery
}.

(** What [client.responses.parse(...)] does: raise, or return a response
    whose [output_parsed] may be [None]. *)
Inductive ResponsesOutcome :=
| ResponsesRaises
| ResponsesReturns (output_parsed : option ParsedQuery).

(** What [client.beta.chat.completions.parse(...)] does: raise, or return a
    message with its [refusal] and [parsed] fields. *)
Inductive ChatOutcome :=
| ChatRaises
| ChatReturns (refusal : option string) (parsed : option ParsedQuery).

(** A request to the model, with the user content it carries. *)
Inductive LLMRequest :=
| ResponsesRequest (content : string)
| ChatRequest (content : string).

(** What the parser reads: the library, the clock and the model, whose
    answer may depend on the requests already made. *)
Record ParserEnv := {
  p_lib : PyLib;
  p_now : Q;
  responses_parse : list LLMRequest -> string -> ResponsesOutcome;
  chat_parse : list LLMRequest -> string -> ChatOutcome
}.

(** What the parser reads and writes: the parse file ([None]: missing,
    unreadable or invalid) and the requests sent to the model so far. *)
Record ParserWorld := {
  parse_file : option ParseFile;
  llm_log : list LLMRequest
}.

Definition log_llm (request : LLMRequest) (w : ParserWorld) : ParserWorld :=
  {| parse_file := parse_file w; llm_log := llm_log w ++ [request] |}.

(** [_query_hash] *)
Definition _query_hash (L : PyLib) (text : string) : string :=
  PyStr.take 16 (sha256_hex L (PyStr.strip text)).

(** [_save_parse] *)
Definition _save_parse (P : ParserEnv) (parsed : ParsedQuery) (query_text : string)
    (w : ParserWorld) : ParserWorld :=
  {| parse_file := Some {| pf_query_hash := _query_hash (p_lib P) query_text;
                           pf_timestamp := p_now P;
                           pf_parsed := parsed |};
     llm_log := llm_log w |}.

(** [_load_parse] *)
Definition _load_parse (P : ParserEnv) (query_text : string) (w : ParserWorld)
  : option ParsedQuery :=
  match parse_file w with
  | None => None
  | Some data =>
      if negb (String.eqb (pf_query_hash data) (_query_hash (p_lib P) query_text)) then None
      else Some (pf_parsed data)
  end.

(** [parse_query]; [None] stands for an exception that leaves the function. *)
Definition parse_query (P : ParserEnv) (free_text : string) (force : bool) (w : ParserWorld)
  : option ParsedQuery * ParserWorld :=
  match (if force then None else _load_parse P free_text w) with
  | Some cached => (Some cached, w)
  | None =>
      let content := PyStr.strip free_text in
      let response := responses_parse P (llm_log w) content in
      let w := log_llm (ResponsesRequest content) w in
      match response with
      | ResponsesReturns (Some parsed_response) =>
          (Some parsed_response, _save_parse P parsed_response free_text w)
      | _ =>
          let completion := chat_parse P (llm_log w) content in
          let w := log_llm (ChatRequest content) w in
          match completion with
          | ChatRaises => (None, w)
          | ChatReturns refusal parsed =>
              if PyStr.truthy_opt refusal then (None, w)
              else
                match parsed with
                | Some parsed => (Some parsed, _save_parse P parsed free_text w)
                | None => (None, w)
                end
          end
      end
  end.

(** ** excel_exporter.py: the route cells *)

(** The arrow U+2192 of the route cells, in UTF-8. *)
Definition SEP : string := String "226" (String "134" (String "146" "")).

(** [_route_value] *)
Definition _route_value (result : FlightResult) (is_return : bool) : string :=
  if is_return then
    if PyStr.truthy_opt (return_depart_time result)
    then destination result +:+ SEP +:+ origin result
    else ""
  else origin result +:+ SEP +:+ destination result.

(** The value that [export] writes in a duration column, for the attributes
    [total_duration_mins] and [return_total_duration_mins]: the minutes
    formatted by [_fmt_duration], or [""] for [None]. The [_fmt_duration] of
    this module is, word for word, the one of result_processor.py. *)
Definition duration_cell (value : option Z) : string :=
  match value with
  | Some minutes => _fmt_duration minutes
  | None => ""
  end.

(** ** seed_cache.py: reading the cells back *)

(** [\d] on ASCII. *)
Definition is_digit (a : ascii) : bool :=
  match Ascii.is_nat a with
  | Some _ => true
  | None => false
  end.

(** The value of the longest run of digits at the head of [s], continuing
    [acc], and what follows the run. *)
Fixpoint read_digits (acc : Z) (s : string) : Z * string :=
  match s with
  | EmptyString => (acc, s)
  | String a s' =>
      match Ascii.is_nat a with
      | Some d => read_digits (acc * 10 + Z.of_nat d) s'
      | None => (acc, s)
      end
  end.

(** [(\d+)] at the head of [s], with [int] of the group: greedy, so the
    whole run of digits, which has to be non-empty. *)
Definition read_int (s : string) : option (Z * string) :=
  match s with
  | EmptyString => None
  | String a _ => if is_digit a then Some (read_digits 0 s) else None
  end.

(** [_parse_duration_mins]: [re.match(r"(\d+)h\s*(\d+)m", s)], then
    [int(m.group(1)) * 60 + int(m.group(2))], or 0 without a match. *)
Definition _parse_duration_mins (s : string) : Z :=
  match read_int s with
  | Some (h, String "h" rest) =>
      match read_int (PyStr.lstrip rest) with
      | Some (m, String "m" _) => h * 60 + m
      | _ => 0
      end
  | _ => 0
  end.

(** [s] without the prefix [p], when it starts with it. *)
Fixpoint strip_prefix (p s : string) : option string :=
  match p, s with
  | EmptyString, _ => Some s
  | String a p', String b s' => if Ascii.eqb a b then strip_prefix p' s' else None
  | String _ _, EmptyString => None
  end.

(** [s.split(sep, 1)] when [sep in s]: what stands before and after the
    first occurrence of [sep]; [None] when [sep] does not occur. *)
Fixpoint split_once (sep s : string) : option (string * string) :=
  match strip_prefix sep s with
  | Some rest => Some (EmptyString, rest)
  | None =>
      match s with
      | EmptyString => None
      | String a s' =>
          match split_once sep s' with
          | Some (before, rest) => Some (String a before, rest)
          | None => None
          end
      end
  end.

(** [_parse_route] *)
Definition _parse_route (route_str : string) : string * string :=
  match split_once SEP route_str with
  | Some (a, b) => (PyStr.strip a, PyStr.strip b)
  | None =>
      match split_once "->" route_str with
      | Some (a, b) => (PyStr.strip a, PyStr.strip b)
      | None =>
          match split_once "-" route_str with
          | Some (a, b) => (PyStr.strip a, PyStr.strip b)
          | None => ("", "")
          end
      end
  end.

(** ** A concrete library and sample data, to run the functions *)

Module Sample.

(** [n] decimal digits at the head of [s]. *)
Fixpoint digits (n : nat) (acc : Z) (s : string) : option (Z * string) :=
  match n with
  | O => Some (acc, s)
  | S n' =>
      match s with
      | EmptyString => None
      | String a s' =>
          match Ascii.is_nat a with
          | Some d => digits n' (acc * 10 + Z.of_nat d) s'
          | None => None
          end
      end
  end.

Definition expect (c : ascii) (s : string) : option string :=
  match s with
  | String a s' => if Ascii.eqb a c then Some s' else None
  | EmptyString => None
  end.

Definition is_leap (y : Z) : bool :=
  ((y mod 4 =? 0) && negb (y mod 100 =? 0)) || (y mod 400 =? 0).

Definition days_in_month (y m : Z) : Z :=
  if m =? 2 then (if is_leap y then 29 else 28)
  else if (m =? 4) || (m =? 6) || (m =? 9) || (m =? 11) then 30
  else 31.

Definition mk_datetime (y mo d h mi s : Z) : option datetime :=
  if (1 <=? y) && (1 <=? mo) && (mo <=? 12) && (1 <=? d) && (d <=? days_in_month y mo)
     && (h <? 24) && (mi <? 60) && (s <? 60)
  then Some {| dt_year := y; dt_month := mo; dt_day := d; dt_hour := h;
               dt_minute := mi; dt_second := s; dt_microsecond := 0 |}
  else None.

(** [datetime.fromisoformat] on the forms [YYYY-MM-DD], [YYYY-MM-DD HH:MM] and
    [YYYY-MM-DD HH:MM:SS], with any one character between date and time. *)
Definition iso_basic (s : string) : option datetime :=
  '(y, s) ← digits 4 0 s;
  s ← expect "-"%char s;
  '(mo, s) ← digits 2 0 s;
  s ← expect "-"%char s;
  '(d, s) ← digits 2 0 s;
  match s with
  | EmptyString => mk_datetime y mo d 0 0 0
  | String _ s =>
      '(h, s) ← digits 2 0 s;
      s ← expect ":"%char s;
      '(mi, s) ← digits 2 0 s;
      match s with
      | EmptyString => mk_datetime y mo d h mi 0
      | _ =>
          s ← expect ":"%char s;
          '(sec, s) ← digits 2 0 s;
          match s with
          | EmptyString => mk_datetime y mo d h mi sec
          | _ => None
          end
      end
  end.

(** The library used in the examples: the identity stands in for SHA-256,
    quotes without escapes for [json.dumps] of a string, and the exact
    quotient for the rounded emission figure. *)
Definition sample_lib : PyLib :=
  {| sha256_hex := fun s => s;
     fromisoformat := iso_basic;
     round_kg := fun g => (g # 1000)%Q;
     json_string := fun s => String "034"%char s +:+ String "034"%char "" |}.

Definition seg (airline_name fn from dep_time to arr_time : string) : Segment :=
  {| seg_airline := airline_name; seg_flight_number := fn;
     seg_airplane := ""; seg_legroom := ""; seg_extensions := [];
     seg_departure_airport := Some {| ap_id := Some from; ap_time := Some dep_time |};
     seg_arrival_airport := Some {| ap_id := Some to; ap_time := Some arr_time |};
     seg_travel_class := Some "Economy" |}.

Definition group (segments : list Segment) (p : option Z) : FlightGroup :=
  {| grp_flights := segments; grp_layovers := []; grp_price := p;
     grp_total_duration := Some 180; grp_carbon_this_flight := None;
     grp_departure_token := None; grp_airline_logo := None; grp_extensions := [];
     grp_return_flights := []; grp_return_layovers := [];
     grp_return_total_duration := None; grp_return_airline_logo := None;
     grp_return_extensions := [] |}.

Definition response (best other : list FlightGroup) : Response :=
  {| resp_error := None; best_flights := best; other_flights := other |}.

Definition g_frontier : FlightGroup :=
  group [seg "Frontier" "F9 100" "BWI" "2026-03-29 21:43" "FLL" "2026-03-30 00:29"] (Some 89).
Definition g_delta : FlightGroup :=
  group [seg "Delta" "DL 200" "BWI" "2026-03-29 07:00" "FLL" "2026-03-29 09:40"] (Some 120).
Definition g_united : FlightGroup :=
  group [seg "United" "UA 300" "BWI" "2026-03-29 10:00" "FLL" "2026-03-29 12:45"] None.
Definition g_back : FlightGroup :=
  group [seg "Spirit" "NK 400" "FLL" "2026-04-02 06:00" "BWI" "2026-04-02 08:35"] (Some 75).

Definition one_way_combo : SearchCombination :=
  {| SearchCombination.departure_id := "BWI"; SearchCombination.arrival_id := "FLL";
     SearchCombination.outbound_date := "2026-03-29"; SearchCombination.return_date := None;
     SearchCombination.type := 2; SearchCombination.travel_class := 1;
     SearchCombination.adults := 1; SearchCombination.children := 0;
     SearchCombination.stops := 0; SearchCombination.include_airlines := None;
     SearchCombination.exclude_airlines := None; SearchCombination.max_price := None;
     SearchCombination.max_duration := None; SearchCombination.bags := 0;
     SearchCombination.sort_by := 2; SearchCombination.outbound_times := None;
     SearchCombination.return_times := None |}.

Definition round_trip_combo : SearchCombination :=
  {| SearchCombination.departure_id := "BWI"; SearchCombination.arrival_id := "FLL";
     SearchCombination.outbound_date := "2026-03-29";
     SearchCombination.return_date := Some "2026-04-02";
     SearchCombination.type := 1; SearchCombination.travel_class := 1;
     SearchCombination.adults := 1; SearchCombination.children := 0;
     SearchCombination.stops := 0; SearchCombination.include_airlines := None;
     SearchCombination.exclude_airlines := None; SearchCombination.max_price := None;
     SearchCombination.max_duration := None; SearchCombination.bags := 0;
     SearchCombination.sort_by := 2; SearchCombination.outbound_times := None;
     SearchCombination.return_times := None |}.

(** An environment whose remote service gives the same answer to every
    request. *)
Definition env (c : Config) (answer : ApiOutcome) : Env :=
  {| cfg := c; lib := sample_lib; now := 1000%Q; today_month := "2026-03";
     serp := fun _ _ => answer |}.

Definition world (used : Z) (cache : gmap string CacheEntry) : World :=
  {| usage_file := Some {| month := "2026-03"; count := used |};
     cache_file := cache; api_log := []; sleeps := 0 |}.

(** The results of three groups, in the order Delta, Frontier, United. *)
Definition three_results : list FlightResult :=
  omap (_process_flight_group sample_lib) [g_delta; g_frontier; g_united].

(** The results of one-segment groups arriving at the given times. *)
Definition arriving (times : list string) : list FlightResult :=
  omap (fun t => _process_flight_group sample_lib
                   (group [seg "Delta" ("DL " +:+ t) "BWI" "2026-03-29 07:00" "FLL" t] None))
       times.

(** A service that answers every request with no error and no group. *)
Definition env_no_groups : Env := env (default_config "k") (ApiReturns (response [] [])).

(** The request of the one-way sample combination. *)
Definition one_way_params : Params := _build_params env_no_groups one_way_combo.

(** The sample configuration with the cache switched off ([--no-cache]). *)
Definition config_no_cache : Config :=
  {| SERPAPI_KEY := "k"; SERPAPI_MONTHLY_LIMIT := 250;
     SERPAPI_CACHE_TTL_HOURS := 12; NO_CACHE := true |}.

(** A service that answers every request with the Delta group. *)
Definition env_no_cache : Env := env config_no_cache (ApiReturns (response [g_delta] [])).
Definition env_cache : Env := env (default_config "k") (ApiReturns (response [g_delta] [])).

(** A cache file with one entry, written at the current time, for the
    request of the one-way sample combination. *)
Definition fresh_entry : CacheEntry :=
  {| ce_timestamp := 1000%Q; ce_response := response [g_frontier] [] |}.
Definition cache_one_way : gmap string CacheEntry :=
  {[ _cache_key env_cache (_build_params env_cache one_way_combo) := fresh_entry ]}.

(** A cache file that holds the two one-way legs of the round-trip sample
    combination, and nothing for its round-trip request. *)
Definition cache_legs : gmap string CacheEntry :=
  <[ _cache_key env_cache
       (one_way_outbound_params (independent_base env_cache round_trip_combo))
     := {| ce_timestamp := 1000%Q; ce_response := response [g_frontier] [] |} ]>
  {[ _cache_key env_cache
       (one_way_return_params round_trip_combo (independent_base env_cache round_trip_combo))
     := {| ce_timestamp := 1000%Q; ce_response := response [g_back] [] |} ]}.

(** A service that rejects the credential. *)
Definition env_bad_key : Env :=
  env (default_config "k")
      (ApiReturns {| resp_error := Some "Invalid API key. Your API key should be here";
                     best_flights := []; other_flights := [] |}).

(** An outbound group that carries a continuation token. *)
Definition g_token : FlightGroup :=
  {| grp_flights := grp_flights g_frontier; grp_layovers := []; grp_price := Some 160;
     grp_total_duration := Some 166; grp_carbon_this_flight := None;
     grp_departure_token := Some "token-1"; grp_airline_logo := None; grp_extensions := [];
     grp_return_flights := []; grp_return_layovers := [];
     grp_return_total_duration := None; grp_return_airline_logo := None;
     grp_return_extensions := [] |}.

(** A service that answers every request with the return group, and a cache
    file with a fresh entry for the round-trip request. *)
Definition env_returns : Env := env (default_config "k") (ApiReturns (response [g_back] [])).
Definition cache_round_trip : gmap string CacheEntry :=
  {[ _cache_key env_returns (_build_params env_returns round_trip_combo)
     := {| ce_timestamp := 1000%Q; ce_response := response [g_token] [] |} ]}.

Definition bad_key_message : string := "Invalid API key. Your API key should be here".

(** A service that answers the first request and rejects the credential
    from the second request on. *)
Definition env_key_revoked : Env :=
  {| cfg := default_config "k"; lib := sample_lib; now := 1000%Q; today_month := "2026-03";
     serp := fun sent _ =>
       match sent with
       | [] => ApiReturns (response [g_delta] [])
       | _ :: _ => ApiReturns {| resp_error := Some bad_key_message;
                                 best_flights := []; other_flights := [] |}
       end |}.

End Sample.

(** ** Vocabulary of the statements *)

(** The five fields that the specification names as the key of a result. *)
Definition key5 (r : FlightResult)
  : string * string * string * option string * option string :=
  (itinerary_type r, flight_numbers r, depart_time r,
   return_flight_numbers r, return_depart_time r).

(** The key string as a function of the five fields. *)
Definition key5_string (k : string * string * string * option string * option string) : string :=
  let '(ty, fn, dt, rfn, rdt) := k in
  ty +:+ "|" +:+ fn +:+ "|" +:+ dt +:+ "|" +:+ PyStr.fmt_opt rfn +:+ "|" +:+ PyStr.fmt_opt rdt.

(** Every result the raw responses give rise to, in input order, duplicates
    included. *)
Definition produced (L : PyLib) (raw_responses : list Raw) : list FlightResult :=
  concat (map (response_results L) raw_responses).

(** Keeping the first result of every key string, given the keys already
    seen: what the two loops of [process_results] compute. *)
Fixpoint keep_first (seen : gset string) (xs : list FlightResult) : list FlightResult :=
  match xs with
  | [] => []
  | x :: xs' =>
      if decide (dedup_key x ∈ seen) then keep_first seen xs'
      else x :: keep_first ({[dedup_key x]} ∪ seen) xs'
  end.

(** A group with at least one segment. *)
Definition has_segments (g : FlightGroup) : bool :=
  match grp_flights g with
  | [] => false
  | _ :: _ => true
  end.

(** [group.get("price", 0)] *)
Definition price_or_0 (g : FlightGroup) : Z := default 0 (grp_price g).

(** A request that carries a continuation token: a return-leg lookup. *)
Definition is_token_lookup (params : Params) : Prop :=
  is_Some (PyDict.get "departure_token" params).

(** Between [w] and [w'] at most [n] requests were sent, all of them
    return-leg lookups, and the usage counter rose by at most one per request. *)
Definition only_token_lookups (E : Env) (n : nat) (w w' : World) : Prop :=
  exists calls,
    api_log w' = api_log w ++ calls /\
    Forall is_token_lookup calls /\
    (length calls <= n)%nat /\
    get_monthly_usage E w <= get_monthly_usage E w'
      <= get_monthly_usage E w + Z.of_nat (length calls).

(** The groups a one-way lookup finds in the cache alone. *)
Definition cached_groups (E : Env) (w : World) (params : Params) : list FlightGroup :=
  match _cache_lookup E params w with
  | Some cached => all_groups cached
  | None => []
  end.

(** What a combination adds to the result list once the quota is reached:
    an empty response and, for a round trip, an independent-pair unit filled
    from the cache alone. *)
Definition skipped (E : Env) (w : World) (combo : SearchCombination) : list Raw :=
  RawEmpty ::
  (if is_round_trip combo then
     [RawIndependent (combo_info combo)
        (cached_groups E w (one_way_outbound_params (independent_base E combo)))
        (cached_groups E w (one_way_return_params combo (independent_base E combo)))]
   else []).

(** The two worlds differ at most in the number of pauses taken. *)
Definition same_files (w w' : World) : Prop :=
  usage_file w' = usage_file w /\ cache_file w' = cache_file w /\ api_log w' = api_log w.

(** The [airline_filters] of [fetch_all]. *)
Definition airline_filters_of (post_filters : list PostFilter) : list PostFilter :=
  List.filter
    (fun f => match filter_type f with at_least_one_leg_airline => true | _ => false end)
    post_filters.

(** The pairs of the cross product, outbound leg outermost. *)
Definition cross_pairs (outs rets : list GroupLeg) : list FlightResult :=
  flat_map (fun o => map (make_pair o) rets) outs.

(** What the specification says of one combined result and the two groups
    it is made of. *)
Definition pair_of_groups (r : FlightResult) (og : FlightGroup * FlightGroup) : Prop :=
  itinerary_type r = "independent_one_way" /\
  total_price r = Some (price_or_0 og.1 + price_or_0 og.2) /\
  price r = price_or_0 og.1 + price_or_0 og.2 /\
  outbound_price r = Some (price_or_0 og.1) /\
  return_price r = Some (price_or_0 og.2).

(** The airline filter built from a value and a leg scope. *)
Definition airline_filter (v : string) (lg : Leg) : PostFilter :=
  {| filter_type := at_least_one_leg_airline; value := v; leg := lg |}.


(** [a] is at or before [b]: the same instant, or [b] is later. *)
Definition dt_le (a b : datetime) : Prop := a = b \/ dt_gt b a = true.

(** The arrival filter built from a value and a leg scope. *)
Definition arrival_filter (v : string) (lg : Leg) : PostFilter :=
  {| filter_type := arrival_before; value := v; leg := lg |}.

(** A leg's arrival passes when it is missing, empty or unparseable, or when
    it parses to an instant at or before the deadline. *)
Definition arrival_ok (L : PyLib) (deadline : datetime) (t : option string) : Prop :=
  forall s arr, t = Some s -> s <> "" -> fromisoformat L s = Some arr -> dt_le arr deadline.

(** The legs a scope checks all pass. *)
Definition arrival_spec (L : PyLib) (lg : Leg) (deadline : datetime) (r : FlightResult) : Prop :=
  (lg = outbound \/ lg = any -> arrival_ok L deadline (Some (arrive_time r))) /\
  (lg = return_leg \/ lg = any -> arrival_ok L deadline (return_arrive_time r)).

(** One guarded check of [arrival_keep]. *)
Definition leg_check (L : PyLib) (deadline : datetime) (s : string) : bool :=
  match fromisoformat L s with
  | Some arr => negb (dt_gt arr deadline)
  | None => true
  end.

(** Age of a cache entry in seconds, and the TTL in seconds. *)
Definition age_seconds (E : Env) (entry : CacheEntry) : Q := (now E - ce_timestamp entry)%Q.
Definition ttl_seconds (E : Env) : Q := inject_Z (SERPAPI_CACHE_TTL_HOURS (cfg E) * 3600).

(** [n] counted requests in a row, as far as the usage file goes. *)
Definition increment_usage_times (E : Env) (n : nat) (w : World) : World :=
  Nat.iter n (fun w => (_increment_usage E w).2) w.

(** What a run does to the files: [steps E n k w w'] says that [w'] is
    reached from [w] by at most [n] requests and exactly [k] pauses, where a
    request either changes nothing but the log, or is made under the quota
    and is then counted and stored. *)
Inductive steps (E : Env) : nat -> nat -> World -> World -> Prop :=
| steps_refl w : steps E 0 0 w w
| steps_sleep w : steps E 0 1 w (sleep w)
| steps_uncounted params w : steps E 1 0 w (log_request params w)
| steps_counted params response w :
    quota_reached E w = false ->
    steps E 1 0 w (_cache_store E params response (_increment_usage E (log_request params w)).2)
| steps_trans n1 k1 n2 k2 w1 w2 w3 :
    steps E n1 k1 w1 w2 -> steps E n2 k2 w2 w3 -> steps E (n1 + n2) (k1 + k2) w1 w3
| steps_weaken n m k w w' :
    steps E n k w w' -> (n <= m)%nat -> steps E m k w w'.

(** The distinct route keys of the round-trip combinations. *)
Definition round_trip_routes (combinations : list SearchCombination) : gset string :=
  list_to_set (route_key <$> List.filter is_round_trip combinations).

(** What [_enrich_return_legs] may do to a group: nothing, or attach the
    fields of a return group. *)
Definition enriched (group group' : FlightGroup) : Prop :=
  group' = group \/
  (PyStr.truthy_opt (grp_departure_token group) = true /\
   exists return_group, group' = attach_return group return_group).

(** A unit of independent one-way legs, as opposed to a plain response. *)
Definition is_independent (raw : Raw) : bool :=
  match raw with
  | RawIndependent _ _ _ => true
  | _ => false
  end.

(** The four rankings of [sort_results], the one a preference text selects,
    and the order each one stands for. *)
Inductive Ranking := by_duration | by_departure | by_arrival | by_price.

Definition ranking_of (ranking_preference : string) : Ranking :=
  let pref := PyStr.lower ranking_preference in
  if PyStr.contains "duration" pref then by_duration
  else if PyStr.contains "departure" pref || PyStr.contains "depart" pref then by_departure
  else if PyStr.contains "arrival" pref || PyStr.contains "arrive" pref then by_arrival
  else by_price.

Definition ranked (k : Ranking) (a b : FlightResult) : Prop :=
  match k with
  | by_duration => duration_key a <= duration_key b
  | by_departure => String.le (depart_time a) (depart_time b)
  | by_arrival => String.le (arrive_time a) (arrive_time b)
  | by_price => price_key a <= price_key b
  end.

Definition tied (k : Ranking) (a b : FlightResult) : bool :=
  match k with
  | by_duration => bool_decide (duration_key b = duration_key a)
  | by_departure => bool_decide (depart_time b = depart_time a)
  | by_arrival => bool_decide (arrive_time b = arrive_time a)
  | by_price => bool_decide (price_key b = price_key a)
  end.

(** A string that does not start with white space. *)
Definition clean_head (s : string) : Prop :=
  match s with
  | EmptyString => True
  | String a _ => Ascii.is_space a = false
  end.

(** The digits of a decimal number read from the left, continuing [acc]. *)
Fixpoint uint_value (acc : Z) (u : Decimal.uint) : Z :=
  match u with
  | Decimal.Nil => acc
  | Decimal.D0 u => uint_value (acc * 10 + 0) u
  | Decimal.D1 u => uint_value (acc * 10 + 1) u
  | Decimal.D2 u => uint_value (acc * 10 + 2) u
  | Decimal.D3 u => uint_value (acc * 10 + 3) u
  | Decimal.D4 u => uint_value (acc * 10 + 4) u
  | Decimal.D5 u => uint_value (acc * 10 + 5) u
  | Decimal.D6 u => uint_value (acc * 10 + 6) u
  | Decimal.D7 u => uint_value (acc * 10 + 7) u
  | Decimal.D8 u => uint_value (acc * 10 + 8) u
  | Decimal.D9 u => uint_value (acc * 10 + 9) u
  end.

(** ** More sample data *)

Module MoreSample.

(** A parsed query: a one-way search and a round trip, ranked by price, with
    an arrival deadline on the outbound leg and a preferred airline. *)
Definition parsed : ParsedQuery :=
  {| ParsedQuery.combinations := [Sample.one_way_combo; Sample.round_trip_combo];
     ParsedQuery.ranking_preference := "price";
     ParsedQuery.query_summary := "BWI to FLL";
     ParsedQuery.post_filters :=
       [arrival_filter "2026-03-29T12:00" outbound; airline_filter "delta" any] |}.

(** A model that answers every request on the Responses API with [parsed]. *)
Definition parser_env : ParserEnv :=
  {| p_lib := Sample.sample_lib; p_now := 1000%Q;
     responses_parse := fun _ _ => ResponsesReturns (Some parsed);
     chat_parse := fun _ _ => ChatRaises |}.

(** No parse file, no request sent. *)
Definition parser_world : ParserWorld := {| parse_file := None; llm_log := [] |}.

End MoreSample.

(** * Properties of result_processor.py *)

Section Normalizer.
Context (L : PyLib).

Lemma process_flight_group_Some (g : FlightGroup) (r : FlightResult) :
  _process_flight_group L g = Some r ->
  has_segments g = true /\ itinerary_type r = "round_trip" /\ preferred r = false.
Proof.
  unfold _process_flight_group, has_segments.
  destruct (grp_flights g) as [|first rest]; [discriminate|].
  intros [= <-]. auto.
Qed.


Lemma extract_group_leg_Some (g : FlightGroup) (lg : GroupLeg) :
  _extract_group_leg g = Some lg ->
  has_segments g = true /\ leg_price lg = price_or_0 g.
Proof.
  unfold _extract_group_leg, has_segments.
  destruct (grp_flights g) as [|first rest]; [discriminate|].
  destruct (fold_left _ _ _) as [airlines fns]. intros [= <-]. auto.
Qed.

Lemma extract_group_leg_None (g : FlightGroup) :
  _extract_group_leg g = None -> has_segments g = false.
Proof.
  unfold _extract_group_leg, has_segments.
  destruct (grp_flights g) as [|first rest]; [reflexivity|].
  destruct (fold_left _ _ _). discriminate.
Qed.

(** The inner loop appends one pair per return group that has segments. *)
Lemma pairs_for_out_app (o : GroupLeg) (top_ret : list FlightGroup) (pairs : list FlightResult) :
  pairs_for_out o top_ret pairs
  = pairs ++ map (make_pair o) (omap _extract_group_leg top_ret).
Proof.
  unfold pairs_for_out. revert pairs.
  induction top_ret as [|g top_ret IH]; intros pairs; simpl.
  - by rewrite app_nil_r.
  - destruct (_extract_group_leg g) as [lg|]; simpl; rewrite IH; [|done].
    by rewrite <- app_assoc.
Qed.

Lemma build_independent_pairs_cross (og rg : list FlightGroup) :
  _build_independent_pairs og rg
  = cross_pairs (omap _extract_group_leg (firstn 3 og))
                (omap _extract_group_leg (firstn 3 rg)).
Proof.
  assert (Hloop : forall top_out top_ret acc,
    fold_left
      (fun pairs out_g =>
         match _extract_group_leg out_g with
         | None => pairs
         | Some out_leg => pairs_for_out out_leg top_ret pairs
         end) top_out acc
    = acc ++ cross_pairs (omap _extract_group_leg top_out)
                         (omap _extract_group_leg top_ret)).
  { intros top_out top_ret. induction top_out as [|g top_out IH]; intros acc; simpl.
    - by rewrite app_nil_r.
    - destruct (_extract_group_leg g) as [lg|]; simpl; rewrite IH; [|done].
      by rewrite pairs_for_out_app, <- app_assoc. }
  unfold _build_independent_pairs.
  destruct og as [|o1 og]; [reflexivity|].
  destruct rg as [|r1 rg].
  - unfold cross_pairs. simpl (omap _ (firstn 3 [])).
    induction (omap _extract_group_leg (firstn 3 (o1 :: og))) as [|o outs IH];
      simpl; [reflexivity | exact IH].
  - apply (Hloop _ _ []).
Qed.

Lemma omap_extract_length (gs : list FlightGroup) :
  length (omap _extract_group_leg gs) = length (List.filter has_segments gs).
Proof.
  induction gs as [|g gs IH]; simpl; [done|].
  destruct (_extract_group_leg g) as [lg|] eqn:Hg.
  - apply extract_group_leg_Some in Hg as [-> _]. simpl. f_equal. exact IH.
  - apply extract_group_leg_None in Hg as ->. exact IH.
Qed.

End Normalizer.

Lemma cross_pairs_inner (g : FlightGroup) (o : GroupLeg) (rets : list FlightGroup) :
  _extract_group_leg g = Some o ->
  Forall2 pair_of_groups
    (map (make_pair o) (omap _extract_group_leg rets))
    (map (fun t => (g, t)) (List.filter has_segments rets)).
Proof.
  intros Hg. apply extract_group_leg_Some in Hg as [_ Hpo].
  induction rets as [|t rets IH]; simpl; [constructor|].
  destruct (_extract_group_leg t) as [lt|] eqn:Ht.
  - apply extract_group_leg_Some in Ht as [-> Hpt]. simpl.
    constructor; [|exact IH].
    unfold pair_of_groups; simpl. rewrite Hpo, Hpt. auto.
  - apply extract_group_leg_None in Ht as ->. exact IH.
Qed.

Lemma cross_pairs_groups (outs rets : list FlightGroup) :
  Forall2 pair_of_groups
    (cross_pairs (omap _extract_group_leg outs) (omap _extract_group_leg rets))
    (list_prod (List.filter has_segments outs) (List.filter has_segments rets)).
Proof.
  induction outs as [|g outs IH]; simpl; [constructor|].
  destruct (_extract_group_leg g) as [lg|] eqn:Hg.
  - pose proof (cross_pairs_inner g lg rets Hg) as Hin.
    apply extract_group_leg_Some in Hg as [-> _]. simpl.
    apply Forall2_app; [exact Hin | exact IH].
  - apply extract_group_leg_None in Hg as ->. exact IH.
Qed.

Lemma filter_firstn_length_le {A} (f : A -> bool) (n : nat) (l : list A) :
  (length (List.filter f (firstn n l)) <= n)%nat.
Proof.
  etransitivity; [apply List.filter_length_le|]. apply firstn_le_length.
Qed.

(** The results of an independent-pair unit, matched one by one with the
    pairs of groups they are made of. *)
Lemma build_independent_pairs_groups (og rg : list FlightGroup) :
  Forall2 pair_of_groups
    (_build_independent_pairs og rg)
    (list_prod (List.filter has_segments (firstn 3 og))
               (List.filter has_segments (firstn 3 rg))).
Proof. rewrite build_independent_pairs_cross. apply cross_pairs_groups. Qed.

(** C8. Whatever the number of outbound and return groups of an
    independent-pair unit, [_build_independent_pairs] yields at most nine
    results: one for each pair made of one of the first three outbound groups
    and one of the first three return groups, among those with a non-empty
    segment list, outbound group outermost. Each is tagged
    ["independent_one_way"], and its total price is the outbound group's price
    plus the return group's price, an absent price counting as 0. *)
Theorem build_independent_pairs_cap (outbound_groups return_groups : list FlightGroup) :
  let outs := List.filter has_segments (firstn 3 outbound_groups) in
  let rets := List.filter has_segments (firstn 3 return_groups) in
  (length (_build_independent_pairs outbound_groups return_groups) <= 9)%nat /\
  Forall2 pair_of_groups
    (_build_independent_pairs outbound_groups return_groups)
    (list_prod outs rets).
Proof.
  intros outs rets.
  pose proof (build_independent_pairs_groups outbound_groups return_groups) as HF.
  fold outs rets in HF. split; [|exact HF].
  rewrite (Forall2_length _ _ _ HF), length_prod.
  pose proof (filter_firstn_length_le has_segments 3 outbound_groups).
  pose proof (filter_firstn_length_le has_segments 3 return_groups).
  fold outs rets in H, H0. nia.
Qed.

(** The expansion of five outbound and four return groups has nine results,
    not twenty. *)
Example build_independent_pairs_5x4 :
  length (_build_independent_pairs
            [Sample.g_frontier; Sample.g_delta; Sample.g_united; Sample.g_delta; Sample.g_frontier]
            [Sample.g_back; Sample.g_back; Sample.g_back; Sample.g_back]) = 9%nat.
Proof. vm_compute. reflexivity. Qed.

(** ** Deduplication *)


Lemma dedup_run_snd (xs : list FlightResult) (seen : gset string) (res : list FlightResult) :
  (fold_left dedup_add xs (seen, res)).2 = res ++ keep_first seen xs.
Proof.
  revert seen res. induction xs as [|x xs IH]; intros seen res; simpl.
  - by rewrite app_nil_r.
  - unfold dedup_add at 2; simpl.
    destruct (decide (dedup_key x ∈ seen)); rewrite IH; [done|].
    by rewrite <- app_assoc.
Qed.

Lemma fold_responses_concat (L : PyLib) (rs : list Raw) (st : DedupState) :
  fold_left (fun st response => fold_left dedup_add (response_results L response) st) rs st
  = fold_left dedup_add (produced L rs) st.
Proof.
  unfold produced. revert st. induction rs as [|r rs IH]; intros st; simpl; [done|].
  by rewrite fold_left_app, IH.
Qed.

(** [process_results] keeps the first result of every key string. *)
Lemma process_results_keep_first (L : PyLib) (rs : list Raw) :
  process_results L rs = keep_first ∅ (produced L rs).
Proof.
  unfold process_results. rewrite fold_responses_concat. apply dedup_run_snd.
Qed.

Lemma keep_first_fresh (seen : gset string) (xs : list FlightResult) (r : FlightResult) :
  r ∈ keep_first seen xs -> dedup_key r ∉ seen.
Proof.
  revert seen. induction xs as [|x xs IH]; intros seen; simpl.
  - by intros ?%elem_of_nil.
  - destruct (decide (dedup_key x ∈ seen)) as [Hin|Hnin]; [by apply IH|].
    intros [->|Hr]%elem_of_cons; [done|].
    apply IH in Hr. set_solver.
Qed.

Lemma keep_first_NoDup (seen : gset string) (xs : list FlightResult) :
  NoDup (map dedup_key (keep_first seen xs)).
Proof.
  revert seen. induction xs as [|x xs IH]; intros seen; simpl; [constructor|].
  destruct (decide (dedup_key x ∈ seen)); [apply IH|].
  simpl. constructor; [|apply IH].
  intros Hin. apply (list_elem_of_fmap dedup_key) in Hin as (r & Hk & Hr).
  apply keep_first_fresh in Hr. set_solver.
Qed.


Lemma keep_first_sublist (seen : gset string) (xs : list FlightResult) :
  sublist (keep_first seen xs) xs.
Proof.
  revert seen. induction xs as [|x xs IH]; intros seen; simpl; [constructor|].
  destruct (decide (dedup_key x ∈ seen)).
  - apply sublist_cons, IH.
  - apply sublist_skip, IH.
Qed.



Lemma keep_first_app (seen : gset string) (xs ys : list FlightResult) :
  keep_first seen (xs ++ ys)
  = keep_first seen xs ++ keep_first (list_to_set (map dedup_key xs) ∪ seen) ys.
Proof.
  revert seen. induction xs as [|x xs IH]; intros seen; simpl.
  - f_equal. by rewrite (left_id_L ∅ (∪)).
  - destruct (decide (dedup_key x ∈ seen)) as [Hin|Hnin]; rewrite IH.
    + do 2 f_equal. apply leibniz_equiv, set_equiv. intros k.
      rewrite !elem_of_union, elem_of_singleton.
      split; [tauto | intros [[->|?]|?]; tauto].
    + simpl. do 3 f_equal. apply leibniz_equiv, set_equiv. intros k.
      rewrite !elem_of_union. tauto.
Qed.





(** A group with a segment, fed twice, in one response or in two. *)
Example process_results_same_group_twice :
  length (process_results Sample.sample_lib
            [RawResponse (Sample.response [Sample.g_delta; Sample.g_delta] [])]) = 1%nat /\
  length (process_results Sample.sample_lib
            [RawResponse (Sample.response [Sample.g_delta] []);
             RawResponse (Sample.response [] [Sample.g_delta])]) = 1%nat.
Proof. split; vm_compute; reflexivity. Qed.

(** ** Itinerary types *)

Lemma build_independent_pairs_type (og rg : list FlightGroup) :
  Forall (fun r => itinerary_type r = "independent_one_way")
         (_build_independent_pairs og rg).
Proof.
  pose proof (build_independent_pairs_groups og rg) as HF.
  induction HF as [|r p rs ps Hp _ IH]; constructor; [apply Hp | exact IH].
Qed.

Lemma response_results_type (L : PyLib) (response : Raw) :
  Forall (fun r => itinerary_type r = "round_trip" \/
                   itinerary_type r = "independent_one_way")
         (response_results L response).
Proof.
  destruct response as [|msg|resp|info og rg]; simpl; try constructor.
  - apply Forall_forall. intros r Hr.
    apply list_elem_of_omap in Hr as (g & _ & Hg).
    left. by apply process_flight_group_Some in Hg as (_ & ? & _).
  - eapply Forall_impl; [apply build_independent_pairs_type|]. simpl. auto.
Qed.

(** C10. A result made from a plain flight group always has itinerary type
    ["round_trip"], whatever search the group came from (the function sees the
    group only); every result of the normalizer has one of the two types
    ["round_trip"] and ["independent_one_way"]; and the type is the leading
    component of the deduplication key. *)
Theorem itinerary_type_values (L : PyLib) :
  (forall g, itinerary_type <$> _process_flight_group L g
             = if has_segments g then Some "round_trip" else None) /\
  (forall raw_responses,
     Forall (fun r => itinerary_type r = "round_trip" \/
                      itinerary_type r = "independent_one_way")
            (process_results L raw_responses)) /\
  (forall r, exists rest, dedup_key r = itinerary_type r +:+ "|" +:+ rest).
Proof.
  repeat split.
  - intros g. unfold _process_flight_group, has_segments.
    destruct (grp_flights g); reflexivity.
  - intros rs. rewrite process_results_keep_first.
    apply Forall_forall. intros r Hr.
    pose proof (elem_of_sublist _ _ _ Hr (keep_first_sublist ∅ (produced L rs))) as Hp.
    unfold produced in Hp. apply (proj1 (list_elem_of_In _ _)) in Hp.
    apply in_concat in Hp as (l & Hl & Hrl).
    apply in_map_iff in Hl as (resp & <- & _).
    pose proof (response_results_type L resp) as HF.
    rewrite Forall_forall in HF. apply HF, list_elem_of_In, Hrl.
  - intros r. eexists. reflexivity.
Qed.

(** A one-way search: the group it returns is normalised as ["round_trip"]. *)
Example one_way_result_is_round_trip :
  itinerary_type <$> process_results Sample.sample_lib
                       [RawResponse (Sample.response [Sample.g_delta] [])]
  = ["round_trip"].
Proof. vm_compute. reflexivity. Qed.

(** ** Post-filters: the soft airline preference *)

Lemma set_preferred_matches (r : FlightResult) (needle : string) (lg : Leg) :
  _airline_matches (set_preferred r) needle lg = _airline_matches r needle lg.
Proof. reflexivity. Qed.

Lemma prefix_app_iff (n h : string) :
  String.prefix n h = true <-> exists b, h = n +:+ b.
Proof.
  revert h. induction n as [|a n IH]; intros h.
  - split; [intros _; by exists h | intros _; by destruct h].
  - destruct h as [|c h]; cbn [String.prefix String.append].
    + split; [done | intros [b Hb]; discriminate].
    + destruct (ascii_dec a c) as [->|Hne].
      * rewrite IH. split; intros [b Hb]; exists b; [by rewrite Hb | by injection Hb].
      * split; [done | intros [b Hb]; injection Hb; congruence].
Qed.


Lemma lower_upper_ascii (a : ascii) :
  PyStr.lower_ascii (PyStr.upper_ascii a) = PyStr.lower_ascii a.
Proof. destruct a as [[] [] [] [] [] [] [] []]; reflexivity. Qed.

Lemma lower_idem_ascii (a : ascii) :
  PyStr.lower_ascii (PyStr.lower_ascii a) = PyStr.lower_ascii a.
Proof. destruct a as [[] [] [] [] [] [] [] []]; reflexivity. Qed.

(** Letter case of the filter value does not matter. *)
Lemma lower_upper (s : string) : PyStr.lower (PyStr.upper s) = PyStr.lower s.
Proof.
  induction s as [|a s IH]; [reflexivity|].
  cbn. f_equal; [apply lower_upper_ascii | exact IH].
Qed.

Lemma lower_idem (s : string) : PyStr.lower (PyStr.lower s) = PyStr.lower s.
Proof.
  induction s as [|a s IH]; [reflexivity|].
  cbn. f_equal; [apply lower_idem_ascii | exact IH].
Qed.


(** Writing the filter value in capitals changes nothing. *)
Lemma airline_filter_case_insensitive (L : PyLib) (results : list FlightResult)
    (v : string) (lg : Leg) :
  apply_post_filters L results [airline_filter (PyStr.upper v) lg]
  = apply_post_filters L results [airline_filter v lg].
Proof.
  unfold apply_post_filters, apply_post_filter; simpl. by rewrite lower_upper.
Qed.

Lemma filter_partition_Permutation {A} (f : A -> bool) (g : A -> A) (l : list A) :
  Permutation (map g (List.filter f l) ++ List.filter (fun x => negb (f x)) l)
              (map (fun x => if f x then g x else x) l).
Proof.
  induction l as [|x l IH]; simpl; [constructor|].
  destruct (f x); simpl.
  - by constructor.
  - etransitivity; [symmetry; apply Permutation_middle|]. by constructor.
Qed.

(** The filter on values: the matching results, marked, then the others. *)
Lemma airline_filter_values (L : PyLib) (results : list FlightResult)
    (v : string) (lg : Leg) :
  let matches r := _airline_matches r (PyStr.lower v) lg in
  let out := apply_post_filters L results [airline_filter v lg] in
  out = map set_preferred (List.filter matches results)
        ++ List.filter (fun r => negb (matches r)) results /\
  length out = length results /\
  Permutation out (map (fun r => if matches r then set_preferred r else r) results) /\
  (Forall (fun r => preferred r = false) results ->
   Forall (fun r => preferred r = matches r) out).
Proof.
  intros matches out.
  assert (Hout : out = map set_preferred (List.filter matches results)
                       ++ List.filter (fun r => negb (matches r)) results) by reflexivity.
  assert (Hperm : Permutation out
                    (map (fun r => if matches r then set_preferred r else r) results)).
  { rewrite Hout. apply filter_partition_Permutation. }
  split; [exact Hout|]. split; [|split; [exact Hperm|]].
  - rewrite (Permutation_length Hperm). apply length_map.
  - intros Hin. rewrite Hout. apply Forall_app. split.
    + apply Forall_forall. intros r Hr.
      apply (proj1 (list_elem_of_In _ _)), in_map_iff in Hr as (r0 & <- & Hr0).
      apply filter_In in Hr0 as [_ Hm]. simpl. symmetry. exact Hm.
    + apply Forall_forall. intros r Hr.
      apply (proj1 (list_elem_of_In _ _)), filter_In in Hr as [Hr Hm].
      apply negb_true_iff in Hm. rewrite Hm.
      rewrite Forall_forall in Hin. apply Hin, list_elem_of_In, Hr.
Qed.








(** Three results of which the second is Frontier's: it comes first and
    flagged, the other two follow in their order. *)
Example airline_filter_frontier :
  let out := apply_post_filters Sample.sample_lib Sample.three_results
               [airline_filter "Frontier" any] in
  map (fun r => (airline r, preferred r)) out
  = [("Frontier", true); ("Delta", false); ("United", false)].
Proof. vm_compute. reflexivity. Qed.

(** A result flagged by an earlier airline filter keeps its flag under a
    later filter that it does not match. *)
Example airline_filter_twice :
  let out := apply_post_filters Sample.sample_lib Sample.three_results
               [airline_filter "delta" outbound; airline_filter "FRONTIER" any] in
  map (fun r => (airline r, preferred r)) out
  = [("Frontier", true); ("Delta", true); ("United", false)].
Proof. vm_compute. reflexivity. Qed.

(** ** Post-filters: the arrival deadline *)

Lemma lex_gt_false_iff (xs ys : list Z) :
  length xs = length ys ->
  lex_gt xs ys = false <-> xs = ys \/ lex_gt ys xs = true.
Proof.
  revert ys. induction xs as [|x xs IH]; intros [|y ys] Hlen; try discriminate.
  - simpl. split; [by left | done].
  - injection Hlen as Hlen. specialize (IH ys Hlen). simpl.
    rewrite orb_false_iff, andb_false_iff, orb_true_iff, andb_true_iff.
    rewrite !Z.ltb_ge, Z.ltb_lt, Z.eqb_neq, Z.eqb_eq, IH.
    split.
    + intros [Hle [Hne|[->|Hgt]]].
      * right. left. lia.
      * destruct (decide (x = y)) as [->|Hne]; [by left | right; left; lia].
      * destruct (decide (x = y)) as [->|Hne]; [right; right; done | right; left; lia].
    + intros [[= -> ->]|[Hlt|[-> Hgt]]].
      * split; [lia | right; by left].
      * split; [lia | left; lia].
      * split; [lia | right; by right].
Qed.

Lemma dt_fields_inj (a b : datetime) : dt_fields a = dt_fields b -> a = b.
Proof. destruct a, b. unfold dt_fields; simpl. intros [= -> -> -> -> -> -> ->]. done. Qed.

Lemma dt_gt_false_iff (a b : datetime) : dt_gt a b = false <-> dt_le a b.
Proof.
  unfold dt_gt, dt_le. rewrite lex_gt_false_iff by reflexivity.
  split; (intros [H|H]; [left | by right]); [by apply dt_fields_inj | by rewrite H].
Qed.

Lemma dt_gt_irrefl (a : datetime) : dt_gt a a = false.
Proof. apply dt_gt_false_iff. by left. Qed.

Lemma truthy_true_iff (s : string) : PyStr.truthy s = true <-> s <> "".
Proof.
  unfold PyStr.truthy. rewrite negb_true_iff. split.
  - intros H ->. discriminate.
  - intros H. apply String.eqb_neq, H.
Qed.

Lemma leg_check_ok (L : PyLib) (deadline : datetime) (s : string) :
  s <> "" ->
  leg_check L deadline s = true <-> arrival_ok L deadline (Some s).
Proof.
  intros Hs. unfold leg_check, arrival_ok. split.
  - intros Hc s' arr [= <-] _ Hp. rewrite Hp in Hc.
    by apply dt_gt_false_iff, negb_true_iff.
  - intros Hok. destruct (fromisoformat L s) as [arr|] eqn:Hp; [|done].
    apply negb_true_iff, dt_gt_false_iff. by apply (Hok s).
Qed.

Lemma arrival_ok_missing (L : PyLib) (deadline : datetime) (t : option string) :
  PyStr.truthy_opt t = false -> arrival_ok L deadline t.
Proof.
  intros Ht s arr -> Hs _. simpl in Ht.
  apply truthy_true_iff in Hs. congruence.
Qed.

Lemma arrival_keep_spec (L : PyLib) (lg : Leg) (deadline : datetime) (r : FlightResult) :
  arrival_keep L lg deadline r = true <-> arrival_spec L lg deadline r.
Proof.
  assert (Hout : forall s, (if PyStr.truthy s then leg_check L deadline s else true) = true
                           <-> arrival_ok L deadline (Some s)).
  { intros s. destruct (PyStr.truthy s) eqn:Ht.
    - apply leg_check_ok. by apply truthy_true_iff.
    - split; [intros _; by apply arrival_ok_missing | done]. }
  assert (Hret : forall t,
            (if PyStr.truthy_opt t then leg_check L deadline (default "" t) else true) = true
            <-> arrival_ok L deadline t).
  { intros [s|]; simpl; [apply Hout|].
    split; [intros _; by apply arrival_ok_missing | done]. }
  unfold arrival_spec. rewrite <- Hout, <- Hret.
  unfold arrival_keep, leg_check.
  destruct lg; simpl;
    destruct (PyStr.truthy (arrive_time r)); simpl;
    destruct (PyStr.truthy_opt (return_arrive_time r)); simpl;
    try destruct (fromisoformat L (arrive_time r)) as [arr|]; simpl;
    try destruct (dt_gt arr deadline); simpl;
    try destruct (fromisoformat L (default "" (return_arrive_time r))) as [ret_arr|]; simpl;
    try destruct (dt_gt ret_arr deadline); simpl;
    intuition congruence.
Qed.


(** The deadline 2026-03-30T08:00 keeps an arrival at 08:00:00 and removes
    one at 08:00:01; an arrival that does not parse is kept. *)
Example arrival_before_boundary :
  map arrive_time
      (apply_post_filters Sample.sample_lib
         (Sample.arriving ["2026-03-30T08:00:00"; "2026-03-30T08:00:01"; "tomorrow"])
         [arrival_filter "2026-03-30T08:00" any])
  = ["2026-03-30T08:00:00"; "tomorrow"].
Proof. vm_compute. reflexivity. Qed.


(** * Properties of flight_fetcher.py *)

(** ** The cache key *)

Global Instance item_le_total : Total item_le.
Proof.
  intros a b. unfold item_le.
  destruct (decide (a.1 = b.1)) as [Hab|Hab].
  - rewrite decide_True by done. apply (total String.le).
  - rewrite decide_False by done. apply (total String.le).
Qed.

Global Instance item_le_antisym : AntiSymm (=) item_le.
Proof.
  intros [k1 v1] [k2 v2]. unfold item_le; simpl.
  destruct (decide (k1 = k2)) as [->|Hne].
  - rewrite decide_True by done. intros H1 H2. f_equal. by apply (anti_symm String.le).
  - rewrite decide_False by done. intros H1 H2. destruct Hne. by apply (anti_symm String.le).
Qed.

Global Instance item_le_trans : Transitive item_le.
Proof.
  intros [k1 v1] [k2 v2] [k3 v3]. unfold item_le; simpl.
  destruct (decide (k1 = k2)) as [->|H12], (decide (k2 = k3)) as [->|H23].
  - intros Ha Hb. by etransitivity.
  - auto.
  - rewrite decide_False by done. auto.
  - intros Ha Hb. destruct (decide (k1 = k3)) as [->|H13].
    + destruct H12. by apply (anti_symm String.le).
    + by etransitivity.
Qed.

Lemma StronglySorted_filter {A} (R : A -> A -> Prop) (f : A -> bool) (l : list A) :
  StronglySorted R l -> StronglySorted R (List.filter f l).
Proof.
  induction 1 as [|x l Hs IH Hx]; simpl; [constructor|].
  destruct (f x); [|exact IH].
  constructor; [exact IH|].
  apply Forall_forall. intros y Hy.
  apply (proj1 (list_elem_of_In _ _)), filter_In in Hy as [Hy _].
  rewrite Forall_forall in Hx. apply Hx, list_elem_of_In, Hy.
Qed.

Lemma Permutation_bool_filter {A} (f : A -> bool) (l l' : list A) :
  Permutation l l' -> Permutation (List.filter f l) (List.filter f l').
Proof.
  induction 1 as [|x l l' _ IH|x y l|l l' l'' _ IH1 _ IH2]; simpl.
  - constructor.
  - destruct (f x); [by constructor | exact IH].
  - destruct (f x), (f y); try reflexivity. constructor.
  - by etransitivity.
Qed.

Lemma pop_filter {V} (k : string) (d : PyDict.dict V) :
  PyDict.pop k d = List.filter (fun kv => negb (String.eqb kv.1 k)) d.
Proof. reflexivity. Qed.

(** The sorted, credential-free item list depends only on the items other
    than [api_key], whatever their order. *)
Lemma sorted_items_stable (p1 p2 : Params) :
  Permutation (PyDict.pop "api_key" p1) (PyDict.pop "api_key" p2) ->
  List.filter (fun kv => negb (String.eqb kv.1 "api_key")) (merge_sort item_le p1)
  = List.filter (fun kv => negb (String.eqb kv.1 "api_key")) (merge_sort item_le p2).
Proof.
  intros Hperm.
  apply (StronglySorted_unique item_le).
  - apply StronglySorted_filter, Sorted_StronglySorted, Sorted_merge_sort; apply _.
  - apply StronglySorted_filter, Sorted_StronglySorted, Sorted_merge_sort; apply _.
  - etransitivity; [apply Permutation_bool_filter, merge_sort_Permutation|].
    etransitivity; [exact Hperm|].
    symmetry. apply Permutation_bool_filter, merge_sort_Permutation.
Qed.

(** C4. Two parameter dicts that hold the same items once the [api_key] item
    is set aside, in whatever order, get the same cache key: the key ignores
    the order of the fields and the value of the credential. *)
Theorem cache_key_stable (E : Env) (p1 p2 : Params) :
  Permutation (PyDict.pop "api_key" p1) (PyDict.pop "api_key" p2) ->
  _cache_key E p1 = _cache_key E p2.
Proof.
  intros Hperm. unfold _cache_key, stable_params.
  by rewrite (sorted_items_stable p1 p2 Hperm).
Qed.

(** Three readings of the premise: the same items in another order, another
    credential, and, for dicts proper (every key once), the same value under
    every field other than [api_key]. *)
Lemma cache_key_reordered (E : Env) (p1 p2 : Params) :
  Permutation p1 p2 -> _cache_key E p1 = _cache_key E p2.
Proof.
  intros Hperm. unfold _cache_key, stable_params.
  by rewrite (sorted_items_stable p1 p2 (Permutation_bool_filter _ _ _ Hperm)).
Qed.

Lemma pop_set_same {V} (k : string) (v : V) (d : PyDict.dict V) :
  PyDict.pop k (PyDict.set k v d) = PyDict.pop k d.
Proof.
  unfold PyDict.pop. induction d as [|[k' v'] d IH]; simpl.
  - by rewrite String.eqb_refl.
  - destruct (String.eqb k' k) eqn:Hk; simpl; rewrite Hk; simpl; [done | by rewrite IH].
Qed.

Lemma cache_key_credential (E : Env) (p : Params) (credential : string) :
  _cache_key E (PyDict.set "api_key" credential p) = _cache_key E p.
Proof.
  unfold _cache_key, stable_params.
  rewrite (sorted_items_stable (PyDict.set "api_key" credential p) p); [done|].
  by rewrite pop_set_same.
Qed.

Lemma dict_get_elem_of {V} (d : PyDict.dict V) (k : string) (v : V) :
  PyDict.wf d -> (k, v) ∈ d <-> PyDict.get k d = Some v.
Proof.
  unfold PyDict.wf, PyDict.keys. induction d as [|[k' v'] d IH]; simpl.
  - intros _. split; [by intros ?%elem_of_nil | done].
  - intros [Hk' Hd]%NoDup_cons. rewrite elem_of_cons, (IH Hd).
    destruct (String.eqb k' k) eqn:Hk.
    + apply String.eqb_eq in Hk as ->. split.
      * intros [Heq|Hget]; [by simplify_eq|].
        destruct Hk'. apply (list_elem_of_fmap_2' fst _ (k, v)); [|done].
        by apply IH.
      * intros [= ->]. by left.
    + apply String.eqb_neq in Hk. split; [|by right].
      intros [Heq|Hget]; [by simplify_eq | exact Hget].
Qed.

Lemma pop_elem_of {V} (d : PyDict.dict V) (k0 k : string) (v : V) :
  (k, v) ∈ PyDict.pop k0 d <-> k <> k0 /\ (k, v) ∈ d.
Proof.
  unfold PyDict.pop. rewrite list_elem_of_In, filter_In, <- list_elem_of_In. simpl.
  rewrite negb_true_iff, String.eqb_neq. tauto.
Qed.

Lemma pop_NoDup {V} (d : PyDict.dict V) (k0 : string) :
  PyDict.wf d -> NoDup (PyDict.pop k0 d).
Proof.
  intros Hwf. apply (NoDup_fmap_1 fst) in Hwf.
  unfold PyDict.pop. apply NoDup_ListNoDup, List.NoDup_filter, NoDup_ListNoDup, Hwf.
Qed.

Lemma same_fields_Permutation (p1 p2 : Params) :
  PyDict.wf p1 -> PyDict.wf p2 ->
  (forall k, k <> "api_key" -> PyDict.get k p1 = PyDict.get k p2) ->
  Permutation (PyDict.pop "api_key" p1) (PyDict.pop "api_key" p2).
Proof.
  intros Hwf1 Hwf2 Hsame.
  apply NoDup_Permutation; [by apply pop_NoDup | by apply pop_NoDup|].
  intros [k v]. rewrite !pop_elem_of, !dict_get_elem_of by done.
  split; intros [Hk Hget]; (split; [exact Hk|]); [rewrite <- Hsame | rewrite Hsame]; done.
Qed.

Lemma cache_key_stable_witness :
  Permutation
    (PyDict.pop "api_key" [("engine", "google_flights"); ("api_key", "first"); ("type", "2")])
    (PyDict.pop "api_key" [("type", "2"); ("engine", "google_flights"); ("api_key", "second")])
  /\
  _cache_key (Sample.env (default_config "first") ApiRaises)
    [("engine", "google_flights"); ("api_key", "first"); ("type", "2")]
  = _cache_key (Sample.env (default_config "first") ApiRaises)
      [("type", "2"); ("engine", "google_flights"); ("api_key", "second")].
Proof.
  assert (Hp : Permutation
    (PyDict.pop "api_key" [("engine", "google_flights"); ("api_key", "first"); ("type", "2")])
    (PyDict.pop "api_key" [("type", "2"); ("engine", "google_flights"); ("api_key", "second")])).
  { simpl. apply perm_swap. }
  split; [exact Hp|].
  apply (cache_key_stable _ _ _ Hp).
Defined.

(** A dict that differs in another field gets another key (with the sample
    library, whose hash is injective). *)
Example cache_key_distinguishes :
  _cache_key (Sample.env (default_config "k") ApiRaises) [("type", "1"); ("api_key", "k")]
  <> _cache_key (Sample.env (default_config "k") ApiRaises) [("type", "2"); ("api_key", "k")].
Proof. vm_compute. discriminate. Qed.

(** ** What each effect touches *)

Lemma load_usage_month (E : Env) (w : World) : month (_load_usage E w) = today_month E.
Proof.
  unfold _load_usage. destruct (usage_file w) as [data|]; [|reflexivity].
  destruct (String.eqb (month data) (today_month E)) eqn:Hm; simpl; [|reflexivity].
  by apply String.eqb_eq.
Qed.

Lemma increment_usage_count (E : Env) (w : World) :
  get_monthly_usage E (_increment_usage E w).2 = get_monthly_usage E w + 1.
Proof.
  unfold get_monthly_usage, _increment_usage, _save_usage, _load_usage at 1; simpl.
  rewrite load_usage_month, String.eqb_refl. reflexivity.
Qed.

Lemma increment_usage_frame (E : Env) (w : World) :
  cache_file (_increment_usage E w).2 = cache_file w /\
  api_log (_increment_usage E w).2 = api_log w /\
  sleeps (_increment_usage E w).2 = sleeps w.
Proof. done. Qed.

Lemma cache_store_frame (E : Env) (params : Params) (response : Response) (w : World) :
  usage_file (_cache_store E params response w) = usage_file w /\
  api_log (_cache_store E params response w) = api_log w /\
  sleeps (_cache_store E params response w) = sleeps w.
Proof. unfold _cache_store. by destruct (NO_CACHE (cfg E)). Qed.

(** The usage counter is read from the usage file only. *)
Lemma load_usage_ext (E : Env) (w1 w2 : World) :
  usage_file w1 = usage_file w2 -> _load_usage E w1 = _load_usage E w2.
Proof. unfold _load_usage. by intros ->. Qed.

Lemma quota_reached_ext (E : Env) (w1 w2 : World) :
  usage_file w1 = usage_file w2 -> quota_reached E w1 = quota_reached E w2.
Proof. unfold quota_reached. by intros ->%(load_usage_ext E). Qed.

(** The cache is read from the cache file only. *)
Lemma cache_lookup_ext (E : Env) (params : Params) (w1 w2 : World) :
  cache_file w1 = cache_file w2 -> _cache_lookup E params w1 = _cache_lookup E params w2.
Proof. unfold _cache_lookup, _cache_load. by intros ->. Qed.

Lemma store_after_increment_usage (E : Env) (params : Params) (results : Response) (w : World) :
  get_monthly_usage E (_cache_store E params results (_increment_usage E w).2)
  = get_monthly_usage E w + 1.
Proof.
  rewrite <- increment_usage_count. unfold get_monthly_usage. f_equal.
  apply load_usage_ext, cache_store_frame.
Qed.

(** ** Lookups that find nothing *)

(** On a cache miss under the quota, [_fetch_one_way_groups] sends the
    request, whatever comes back. *)
Lemma fetch_one_way_miss_log (E : Env) (params : Params) (w : World) :
  _cache_lookup E params w = None ->
  quota_reached E w = false ->
  api_log (_fetch_one_way_groups E params w).2 = api_log w ++ [params].
Proof.
  intros Hmiss Hq. unfold _fetch_one_way_groups, api_call. rewrite Hmiss, Hq.
  destruct (serp E (api_log w) params) as [|results]; [reflexivity|].
  destruct (has_error results); [reflexivity|].
  destruct (all_groups results); [reflexivity|]. simpl.
  by rewrite (proj1 (proj2 (cache_store_frame _ _ _ _))).
Qed.

Lemma lookup_return_miss_log (E : Env) (base_params : Params) (token : string) (w : World) :
  let params := PyDict.set "departure_token" token base_params in
  _cache_lookup E params w = None ->
  quota_reached E w = false ->
  api_log (_lookup_return_group E base_params token w).2 = api_log w ++ [params].
Proof.
  intros params Hmiss Hq. unfold _lookup_return_group, api_call. fold params.
  rewrite Hmiss, Hq.
  destruct (serp E (api_log w) params) as [|results]; [reflexivity|].
  destruct (has_error results); [reflexivity|].
  destruct (all_groups results); [reflexivity|]. simpl.
  by rewrite (proj1 (proj2 (cache_store_frame _ _ _ _))).
Qed.

(** C9. A one-way-leg lookup or a return-leg lookup whose request comes back
    without error and without any flight group returns nothing, leaves the
    usage file and the cache file as they were, and only records the request
    as sent; the same lookup made again is again a cache miss and sends the
    request again. *)
Theorem empty_lookup_not_counted (E : Env) (base_params : Params) (token : string)
    (w : World) (results : Response) :
  has_error results = false ->
  all_groups results = [] ->
  quota_reached E w = false ->
  (_cache_lookup E base_params w = None ->
   serp E (api_log w) base_params = ApiReturns results ->
   let w' := (_fetch_one_way_groups E base_params w).2 in
   _fetch_one_way_groups E base_params w = ([], log_request base_params w) /\
   usage_file w' = usage_file w /\ cache_file w' = cache_file w /\
   _cache_lookup E base_params w' = None /\
   api_log (_fetch_one_way_groups E base_params w').2
   = api_log w ++ [base_params; base_params]) /\
  (let params := PyDict.set "departure_token" token base_params in
   _cache_lookup E params w = None ->
   serp E (api_log w) params = ApiReturns results ->
   let w' := (_lookup_return_group E base_params token w).2 in
   _lookup_return_group E base_params token w = (None, log_request params w) /\
   usage_file w' = usage_file w /\ cache_file w' = cache_file w /\
   _cache_lookup E params w' = None /\
   api_log (_lookup_return_group E base_params token w').2
   = api_log w ++ [params; params]).
Proof.
  intros Herr Hgroups Hq. split.
  - intros Hmiss Hserp.
    assert (Hrun : _fetch_one_way_groups E base_params w
                   = ([], log_request base_params w)).
    { unfold _fetch_one_way_groups, api_call.
      by rewrite Hmiss, Hq, Hserp, Herr, Hgroups. }
    rewrite Hrun; simpl. repeat split.
    + by rewrite <- Hmiss.
    + rewrite fetch_one_way_miss_log; simpl.
      * by rewrite <- app_assoc.
      * by rewrite <- Hmiss.
      * by rewrite <- Hq.
  - intros params Hmiss Hserp.
    assert (Hrun : _lookup_return_group E base_params token w
                   = (None, log_request params w)).
    { unfold _lookup_return_group, api_call. fold params.
      by rewrite Hmiss, Hq, Hserp, Herr, Hgroups. }
    rewrite Hrun; simpl. repeat split.
    + by rewrite <- Hmiss.
    + rewrite lookup_return_miss_log; simpl; fold params.
      * by rewrite <- app_assoc.
      * by rewrite <- Hmiss.
      * by rewrite <- Hq.
Qed.

Lemma empty_lookup_not_counted_witness :
  (has_error (Sample.response [] []) = false /\
   all_groups (Sample.response [] []) = [] /\
   quota_reached Sample.env_no_groups (Sample.world 7 ∅) = false) /\
  _fetch_one_way_groups Sample.env_no_groups Sample.one_way_params (Sample.world 7 ∅)
  = ([], log_request Sample.one_way_params (Sample.world 7 ∅)) /\
  _lookup_return_group Sample.env_no_groups Sample.one_way_params "token" (Sample.world 7 ∅)
  = (None, log_request (PyDict.set "departure_token" "token" Sample.one_way_params)
                       (Sample.world 7 ∅)).
Proof.
  split; [repeat split|].
  destruct (empty_lookup_not_counted Sample.env_no_groups Sample.one_way_params "token"
              (Sample.world 7 ∅) (Sample.response [] []) eq_refl eq_refl eq_refl)
    as [Hone Hret].
  split.
  - apply Hone; reflexivity.
  - apply Hret; reflexivity.
Defined.

(** ** Cache hits *)

Lemma dict_get_set_eq {V} (k : string) (v : V) (d : PyDict.dict V) :
  PyDict.get k (PyDict.set k v d) = Some v.
Proof.
  induction d as [|[k' v'] d IH]; simpl.
  - by rewrite String.eqb_refl.
  - destruct (String.eqb k' k) eqn:Hk; simpl; rewrite Hk; [reflexivity | exact IH].
Qed.

Lemma dict_get_set_ne {V} (k k' : string) (v : V) (d : PyDict.dict V) :
  k <> k' -> PyDict.get k (PyDict.set k' v d) = PyDict.get k d.
Proof.
  intros Hne. induction d as [|[k0 v0] d IH]; simpl.
  - destruct (String.eqb k' k) eqn:Hk; [|reflexivity].
    apply String.eqb_eq in Hk. congruence.
  - destruct (String.eqb k0 k') eqn:Hk0; simpl.
    + apply String.eqb_eq in Hk0 as ->.
      destruct (String.eqb k' k) eqn:Hk; [|reflexivity].
      apply String.eqb_eq in Hk. congruence.
    + destruct (String.eqb k0 k); [reflexivity | exact IH].
Qed.

Lemma get_set_if_truthy_ne (k k' : string) (o : option string) (f : string -> string)
    (d : Params) :
  k <> k' -> PyDict.get k (set_if_truthy k' o f d) = PyDict.get k d.
Proof.
  intros Hne. unfold set_if_truthy. destruct o as [s|]; [|reflexivity].
  destruct (PyStr.truthy s); [by apply dict_get_set_ne | reflexivity].
Qed.

Lemma get_set_if_some_ne (k k' : string) (o : option Z) (d : Params) :
  k <> k' -> PyDict.get k (set_if_some k' o d) = PyDict.get k d.
Proof.
  intros Hne. unfold set_if_some. destruct o; [by apply dict_get_set_ne | reflexivity].
Qed.

(** The request of a combination carries no continuation token. *)
Lemma build_params_no_token (E : Env) (combo : SearchCombination) :
  ~ is_token_lookup (_build_params E combo).
Proof.
  unfold is_token_lookup, _build_params.
  destruct (PyStr.truthy_opt (SearchCombination.include_airlines combo));
    rewrite !get_set_if_truthy_ne, !get_set_if_some_ne, !get_set_if_truthy_ne by discriminate;
    simpl; by intros [? ?].
Qed.

Lemma only_token_lookups_refl (E : Env) (n : nat) (w : World) :
  only_token_lookups E n w w.
Proof.
  exists []. rewrite app_nil_r. split; [reflexivity|].
  split; [constructor|]. simpl. lia.
Qed.

Lemma only_token_lookups_trans (E : Env) (n1 n2 : nat) (w1 w2 w3 : World) :
  only_token_lookups E n1 w1 w2 -> only_token_lookups E n2 w2 w3 ->
  only_token_lookups E (n1 + n2) w1 w3.
Proof.
  intros (c1 & Hl1 & Hf1 & Hn1 & Hu1) (c2 & Hl2 & Hf2 & Hn2 & Hu2).
  exists (c1 ++ c2). rewrite Hl2, Hl1, <- app_assoc, length_app.
  split; [reflexivity|]. split; [by apply Forall_app|]. lia.
Qed.

Lemma only_token_lookups_weaken (E : Env) (n m : nat) (w w' : World) :
  (n <= m)%nat -> only_token_lookups E n w w' -> only_token_lookups E m w w'.
Proof.
  intros Hnm (c & Hl & Hf & Hn & Hu). exists c.
  split; [exact Hl|]. split; [exact Hf|]. lia.
Qed.

Lemma lookup_return_group_calls (E : Env) (base_params : Params) (token : string) (w : World) :
  only_token_lookups E 1 w (_lookup_return_group E base_params token w).2.
Proof.
  unfold _lookup_return_group, api_call.
  set (params := PyDict.set "departure_token" token base_params).
  assert (Htok : is_token_lookup params).
  { unfold is_token_lookup, params. rewrite dict_get_set_eq. by eexists. }
  assert (Hsame : only_token_lookups E 1 w (log_request params w)).
  { exists [params]. split; [reflexivity|].
    split; [by apply Forall_singleton|].
    change (get_monthly_usage E (log_request params w)) with (get_monthly_usage E w).
    simpl. lia. }
  destruct (_cache_lookup E params w); [apply only_token_lookups_refl|].
  destruct (quota_reached E w); [apply only_token_lookups_refl|].
  destruct (serp E (api_log w) params) as [|results]; [exact Hsame|].
  destruct (has_error results); [exact Hsame|].
  destruct (all_groups results) as [|g gs]; [exact Hsame|].
  pose proof (store_after_increment_usage E params results (log_request params w)) as Hu.
  pose proof (cache_store_frame E params results
                (_increment_usage E (log_request params w)).2) as (_ & Hlog & _).
  pose proof (increment_usage_frame E (log_request params w)) as (_ & Hlog' & _).
  destruct (_increment_usage E (log_request params w)) as [c w1]. cbn [fst snd] in *.
  exists [params]. rewrite Hlog, Hlog', Hu.
  split; [reflexivity|]. split; [by apply Forall_singleton|].
  change (get_monthly_usage E (log_request params w)) with (get_monthly_usage E w).
  simpl. lia.
Qed.

Lemma enrich_group_calls (E : Env) (params : Params) (group : FlightGroup) (w : World) :
  only_token_lookups E 1 w (enrich_group E params group w).2.
Proof.
  unfold enrich_group.
  destruct (grp_departure_token group) as [token|]; [|apply only_token_lookups_refl].
  destruct (PyStr.truthy token); simpl; [|apply only_token_lookups_refl].
  pose proof (lookup_return_group_calls E params token w) as H.
  by destruct (_lookup_return_group E params token w) as [[rg|] w'].
Qed.

Lemma enrich_groups_calls (E : Env) (params : Params) (groups : list FlightGroup) (w : World) :
  only_token_lookups E (length groups) w (enrich_groups E params groups w).2.
Proof.
  revert w. induction groups as [|g groups IH]; intros w; simpl.
  - apply only_token_lookups_refl.
  - pose proof (enrich_group_calls E params g w) as H1.
    destruct (enrich_group E params g w) as [g' w1]. simpl in H1.
    pose proof (IH w1) as H2.
    destruct (enrich_groups E params groups w1) as [gs' w2]. simpl in *.
    apply (only_token_lookups_trans E 1 (length groups) w w1 w2 H1 H2).
Qed.

Lemma enrich_return_legs_calls (E : Env) (results : Response) (params : Params)
    (combo : SearchCombination) (w : World) :
  only_token_lookups E 5 w (_enrich_return_legs E results params combo w).2.
Proof.
  unfold _enrich_return_legs.
  pose proof (enrich_groups_calls E params (firstn 5 (all_groups results)) w) as H.
  destruct (enrich_groups E params (firstn 5 (all_groups results)) w) as [top w']. simpl in *.
  eapply only_token_lookups_weaken; [|exact H]. apply firstn_le_length.
Qed.

Lemma expired_false_iff (E : Env) (entry : CacheEntry) :
  expired E entry = false <->
  ((now E - ce_timestamp entry) / inject_Z 3600
   <= inject_Z (SERPAPI_CACHE_TTL_HOURS (cfg E)))%Q.
Proof. unfold expired. by rewrite negb_false_iff, Qle_bool_iff. Qed.

(** A hit: the cache is on, holds an entry for the request, and the entry is
    not older than the TTL. *)
Lemma cache_lookup_hit (E : Env) (params : Params) (w : World) (entry : CacheEntry) :
  NO_CACHE (cfg E) = false ->
  cache_file w !! _cache_key E params = Some entry ->
  expired E entry = false ->
  _cache_lookup E params w = Some (ce_response entry).
Proof.
  intros Hon Hentry Hfresh. unfold _cache_lookup, _cache_load.
  by rewrite Hon, Hentry, Hfresh.
Qed.

Lemma cache_lookup_disabled (E : Env) (params : Params) (w : World) :
  NO_CACHE (cfg E) = true -> _cache_lookup E params w = None.
Proof. intros Hoff. unfold _cache_lookup. by rewrite Hoff. Qed.

(** C5, as the code has it. With the cache enabled ([NO_CACHE] false), when
    the cache file holds an entry for the request of a combination and the
    entry is not older than the TTL, [fetch_combination] does not send that
    request: whatever it sends are return-leg lookups, at most five, and the
    usage counter rises by at most one per such lookup. For a combination
    that is not a round trip nothing at all changes: no request, same usage
    file, same cache file. *)
Theorem cache_hit_skips_primary_call (E : Env) (combo : SearchCombination)
    (index total : Z) (w : World) (entry : CacheEntry) :
  NO_CACHE (cfg E) = false ->
  cache_file w !! _cache_key E (_build_params E combo) = Some entry ->
  ((now E - ce_timestamp entry) / inject_Z 3600
   <= inject_Z (SERPAPI_CACHE_TTL_HOURS (cfg E)))%Q ->
  let w' := (fetch_combination E combo index total w).2 in
  only_token_lookups E 5 w w' /\
  (forall calls, api_log w' = api_log w ++ calls -> _build_params E combo ∉ calls) /\
  (is_round_trip combo = false ->
   w' = w /\
   (fetch_combination E combo index total w).1
   = if quota_reached E w then RawEmpty else RawResponse (ce_response entry)).
Proof.
  intros Hon Hentry Hfresh w'.
  apply expired_false_iff in Hfresh.
  pose proof (cache_lookup_hit E _ w entry Hon Hentry Hfresh) as Hhit.
  assert (Hinv : only_token_lookups E 5 w w').
  { unfold w', fetch_combination.
    destruct (quota_reached E w); [apply only_token_lookups_refl|].
    rewrite Hhit. destruct (is_round_trip combo); [|apply only_token_lookups_refl].
    pose proof (enrich_return_legs_calls E (ce_response entry) (_build_params E combo)
                  combo w) as H.
    by destruct (_enrich_return_legs E (ce_response entry) (_build_params E combo) combo w). }
  split; [exact Hinv|]. split.
  - intros calls Hcalls Hin.
    destruct Hinv as (calls' & Hlog & Htok & _).
    rewrite Hlog in Hcalls. apply app_inv_head in Hcalls as <-.
    rewrite Forall_forall in Htok.
    by apply (build_params_no_token E combo), Htok.
  - intros Hone. unfold w', fetch_combination.
    destruct (quota_reached E w); [done|].
    by rewrite Hhit, Hone.
Qed.

Lemma cache_hit_skips_primary_call_witness :
  (NO_CACHE (cfg Sample.env_cache) = false /\
   cache_file (Sample.world 3 Sample.cache_one_way)
     !! _cache_key Sample.env_cache (_build_params Sample.env_cache Sample.one_way_combo)
   = Some Sample.fresh_entry /\
   ((now Sample.env_cache - ce_timestamp Sample.fresh_entry) / inject_Z 3600
    <= inject_Z (SERPAPI_CACHE_TTL_HOURS (cfg Sample.env_cache)))%Q) /\
  (fetch_combination Sample.env_cache Sample.one_way_combo 1 1
     (Sample.world 3 Sample.cache_one_way)).2
  = Sample.world 3 Sample.cache_one_way.
Proof.
  assert (Hentry : cache_file (Sample.world 3 Sample.cache_one_way)
     !! _cache_key Sample.env_cache (_build_params Sample.env_cache Sample.one_way_combo)
     = Some Sample.fresh_entry) by apply lookup_singleton_eq.
  assert (Hfresh : ((now Sample.env_cache - ce_timestamp Sample.fresh_entry) / inject_Z 3600
    <= inject_Z (SERPAPI_CACHE_TTL_HOURS (cfg Sample.env_cache)))%Q).
  { apply Qle_bool_iff. reflexivity. }
  split; [done|].
  apply (cache_hit_skips_primary_call Sample.env_cache Sample.one_way_combo 1 1
           (Sample.world 3 Sample.cache_one_way) Sample.fresh_entry eq_refl Hentry Hfresh).
  reflexivity.
Defined.

(** A second call with the same request within the TTL: the first call
    sends the request and stores the answer, the second one is served from
    the cache and the count stays where the first call left it. *)
Example second_call_is_cache_hit :
  get_monthly_usage Sample.env_cache
    (fetch_combination Sample.env_cache Sample.one_way_combo 1 1 (Sample.world 3 ∅)).2 = 4 /\
  get_monthly_usage Sample.env_cache
    (fetch_combination Sample.env_cache Sample.one_way_combo 1 1
       (fetch_combination Sample.env_cache Sample.one_way_combo 1 1 (Sample.world 3 ∅)).2).2
  = 4 /\
  length (api_log
    (fetch_combination Sample.env_cache Sample.one_way_combo 1 1
       (fetch_combination Sample.env_cache Sample.one_way_combo 1 1 (Sample.world 3 ∅)).2).2)
  = 1%nat.
Proof. repeat split; vm_compute; reflexivity. Qed.

(** A round trip served from the cache: the round-trip request is not sent,
    the one request that goes out is the return-leg lookup for the group's
    token, it is counted, and the return leg is attached to the group. *)
Example cache_hit_round_trip_enriches :
  api_log (fetch_combination Sample.env_returns Sample.round_trip_combo 1 1
             (Sample.world 3 Sample.cache_round_trip)).2
  = [PyDict.set "departure_token" "token-1"
       (_build_params Sample.env_returns Sample.round_trip_combo)] /\
  get_monthly_usage Sample.env_returns
    (fetch_combination Sample.env_returns Sample.round_trip_combo 1 1
       (Sample.world 3 Sample.cache_round_trip)).2 = 4 /\
  (fetch_combination Sample.env_returns Sample.round_trip_combo 1 1
     (Sample.world 3 Sample.cache_round_trip)).1
  = RawResponse (Sample.response [attach_return Sample.g_token Sample.g_back] []).
Proof. repeat split; vm_compute; reflexivity. Qed.

(** C5 as stated fails when the cache is switched off: the cache file holds a
    fresh entry for the request, yet the request is sent and counted. *)
Lemma cache_entry_unused_when_cache_off :
  cache_file (Sample.world 3 Sample.cache_one_way)
    !! _cache_key Sample.env_no_cache (_build_params Sample.env_no_cache Sample.one_way_combo)
  = Some Sample.fresh_entry /\
  expired Sample.env_no_cache Sample.fresh_entry = false /\
  api_log (fetch_combination Sample.env_no_cache Sample.one_way_combo 1 1
             (Sample.world 3 Sample.cache_one_way)).2
  = [_build_params Sample.env_no_cache Sample.one_way_combo] /\
  get_monthly_usage Sample.env_no_cache
    (fetch_combination Sample.env_no_cache Sample.one_way_combo 1 1
       (Sample.world 3 Sample.cache_one_way)).2 = 4.
Proof.
  split; [apply lookup_singleton_eq|].
  split; [reflexivity|].
  split; reflexivity.
Qed.

(** ** The quota *)

Lemma fetch_combination_quota (E : Env) (combo : SearchCombination) (index total : Z)
    (w : World) :
  quota_reached E w = true -> fetch_combination E combo index total w = (RawEmpty, w).
Proof. intros Hq. unfold fetch_combination. by rewrite Hq. Qed.

Lemma fetch_one_way_quota (E : Env) (params : Params) (w : World) :
  quota_reached E w = true ->
  _fetch_one_way_groups E params w = (cached_groups E w params, w).
Proof.
  intros Hq. unfold _fetch_one_way_groups, cached_groups.
  destruct (_cache_lookup E params w); [reflexivity|]. by rewrite Hq.
Qed.

Lemma fetch_independent_quota (E : Env) (combo : SearchCombination) (base : Params)
    (w : World) :
  quota_reached E w = true ->
  fetch_independent E combo base w
  = (RawIndependent (combo_info combo)
       (cached_groups E w (one_way_outbound_params base))
       (cached_groups E w (one_way_return_params combo base)), w).
Proof.
  intros Hq. unfold fetch_independent. by rewrite !fetch_one_way_quota.
Qed.

Lemma cached_groups_ext (E : Env) (w w' : World) (params : Params) :
  same_files w w' -> cached_groups E w' params = cached_groups E w params.
Proof.
  intros (_ & Hc & _). unfold cached_groups. by rewrite (cache_lookup_ext E params w' w).
Qed.

Lemma skipped_ext (E : Env) (w w' : World) (combo : SearchCombination) :
  same_files w w' -> skipped E w' combo = skipped E w combo.
Proof.
  intros Hs. unfold skipped. by rewrite !(cached_groups_ext E w w').
Qed.

Lemma same_files_refl (w : World) : same_files w w.
Proof. done. Qed.

Lemma same_files_sleep (w w' : World) : same_files w w' -> same_files w (sleep w').
Proof. done. Qed.

Lemma quota_reached_same_files (E : Env) (w w' : World) :
  same_files w w' -> quota_reached E w' = quota_reached E w.
Proof. intros (Hu & _). by apply quota_reached_ext. Qed.

(** With the quota reached, the main loop goes through every remaining
    combination; none of them sends a request or touches a file. *)
Lemma fetch_loop_quota (E : Env) (total : Z) (w0 : World)
    (combinations : list SearchCombination) :
  quota_reached E w0 = true ->
  forall i results w, same_files w0 w ->
  exists w',
    fetch_loop E total i combinations results w
    = (results ++ flat_map (skipped E w0) combinations, w') /\ same_files w0 w'.
Proof.
  intros Hq. induction combinations as [|combo rest IH]; intros i results w Hw; simpl.
  - exists w. by rewrite app_nil_r.
  - assert (Hqw : quota_reached E w = true) by by rewrite (quota_reached_same_files E w0 w).
    rewrite (fetch_combination_quota E combo i total w Hqw). simpl.
    unfold after_combination.
    rewrite (fetch_independent_quota E combo _ w Hqw), !(cached_groups_ext E w0 w) by done.
    destruct (is_round_trip combo) eqn:Hrt.
    + destruct (IH (i + 1) ((results ++ [RawEmpty]) ++
                  [RawIndependent (combo_info combo)
                     (cached_groups E w0 (one_way_outbound_params (independent_base E combo)))
                     (cached_groups E w0 (one_way_return_params combo (independent_base E combo)))])
                  (if i <? total then sleep w else w)) as (w' & Hrun & Hw').
      { by destruct (i <? total). }
      exists w'. split; [|exact Hw'].
      rewrite Hrun. simpl. by rewrite <- !app_assoc.
    + destruct (IH (i + 1) (results ++ [RawEmpty]) (if i <? total then sleep w else w))
        as (w' & Hrun & Hw').
      { by destruct (i <? total). }
      exists w'. split; [|exact Hw'].
      rewrite Hrun. simpl. by rewrite <- !app_assoc.
Qed.

Lemma dual_route_quota (E : Env) (combo : SearchCombination) (afs : list PostFilter)
    (w0 : World) :
  quota_reached E w0 = true ->
  forall results w, same_files w0 w ->
  exists extra, dual_route E combo afs results w = (results ++ extra, w).
Proof.
  intros Hq. unfold dual_route.
  induction afs as [|af afs IH]; intros results w Hw; simpl.
  - exists []. by rewrite app_nil_r.
  - assert (Hqw : quota_reached E w = true) by by rewrite (quota_reached_same_files E w0 w).
    rewrite (fetch_independent_quota E combo _ w Hqw).
    destruct (IH (results ++ [RawIndependent (combo_info combo)
                    (cached_groups E w (one_way_outbound_params (dual_base E combo af)))
                    (cached_groups E w (one_way_return_params combo (dual_base E combo af)))])
                 w Hw) as (extra & Hrun).
    eexists. rewrite Hrun, <- app_assoc. reflexivity.
Qed.

Lemma dual_loop_quota (E : Env) (afs : list PostFilter) (w0 : World)
    (combinations : list SearchCombination) :
  quota_reached E w0 = true ->
  forall seen results w, same_files w0 w ->
  exists extra w',
    dual_loop E afs combinations seen results w = (results ++ extra, w') /\
    same_files w0 w'.
Proof.
  intros Hq. induction combinations as [|combo rest IH]; intros seen results w Hw; simpl.
  - exists [], w. by rewrite app_nil_r.
  - destruct (bool_decide (route_key combo ∈ seen) || negb (is_round_trip combo)).
    + by apply IH.
    + destruct (dual_route_quota E combo afs w0 Hq results w Hw) as (extra1 & ->).
      destruct (IH ({[route_key combo]} ∪ seen) (results ++ extra1) (sleep w))
        as (extra2 & w' & Hrun & Hw'); [done|].
      exists (extra1 ++ extra2), w'. by rewrite Hrun, <- app_assoc.
Qed.

(** C1, as the code has it. When the stored usage count is at or above the
    monthly limit at the start of a combination, [fetch_combination] sends no
    request, changes no file and returns the empty response, raising nothing.
    The main loop of [fetch_all] does not return early: it appends that empty
    response and, for a round trip, an independent-pair unit filled from the
    cache alone, and goes on to the next combination, which fares the same
    since the count has not moved. The whole of [fetch_all] sends no request
    and leaves the usage file and the cache file as they were. *)
Theorem quota_reached_skips_each_combination (E : Env)
    (combinations : list SearchCombination) (post_filters : list PostFilter) (w : World) :
  quota_reached E w = true ->
  (forall combo index total, fetch_combination E combo index total w = (RawEmpty, w)) /\
  (forall total i results,
     exists w',
       fetch_loop E total i combinations results w
       = (results ++ flat_map (skipped E w) combinations, w') /\ same_files w w') /\
  (exists extra w',
     fetch_all E combinations post_filters w
     = (flat_map (skipped E w) combinations ++ extra, w') /\
     same_files w w' /\
     (airline_filters_of post_filters = [] -> extra = [])).
Proof.
  intros Hq. split; [|split].
  - intros combo index total. by apply fetch_combination_quota.
  - intros total i results. by apply (fetch_loop_quota E total w).
  - unfold fetch_all. fold (airline_filters_of post_filters).
    destruct (fetch_loop_quota E (Z.of_nat (length combinations)) w combinations Hq
                1 [] w (same_files_refl w)) as (w1 & -> & Hw1). simpl.
    destruct (airline_filters_of post_filters) as [|af afs].
    { exists [], w1. by rewrite app_nil_r. }
    destruct combinations as [|combo rest].
    { exists [], w1. done. }
    destruct (dual_loop_quota E (af :: afs) w (combo :: rest) Hq ∅
                (flat_map (skipped E w) (combo :: rest)) w1 Hw1)
      as (extra & w' & Hrun & Hw').
    exists extra, w'. split; [exact Hrun|]. split; [exact Hw' | discriminate].
Qed.

Lemma quota_reached_skips_each_combination_witness :
  quota_reached Sample.env_cache (Sample.world 250 Sample.cache_legs) = true /\
  exists extra w',
    fetch_all Sample.env_cache [Sample.round_trip_combo; Sample.one_way_combo] []
      (Sample.world 250 Sample.cache_legs)
    = (flat_map (skipped Sample.env_cache (Sample.world 250 Sample.cache_legs))
         [Sample.round_trip_combo; Sample.one_way_combo] ++ extra, w') /\
    same_files (Sample.world 250 Sample.cache_legs) w' /\
    (airline_filters_of [] = [] -> extra = []).
Proof.
  split; [reflexivity|].
  apply (quota_reached_skips_each_combination Sample.env_cache
           [Sample.round_trip_combo; Sample.one_way_combo] []
           (Sample.world 250 Sample.cache_legs)).
  reflexivity.
Defined.

(** C1 as stated fails: with the count at the limit before the first
    combination, nothing has been gathered, yet the batch does not return
    early with nothing. Both combinations are gone through, the list holds an
    entry for each and an independent-pair unit for the round trip, and that
    unit, filled from the cache, becomes an itinerary. *)
Lemma quota_reached_batch_goes_on :
  quota_reached Sample.env_cache (Sample.world 250 Sample.cache_legs) = true /\
  (fetch_all Sample.env_cache [Sample.round_trip_combo; Sample.one_way_combo] []
     (Sample.world 250 Sample.cache_legs)).1
  = [RawEmpty;
     RawIndependent (combo_info Sample.round_trip_combo) [Sample.g_frontier] [Sample.g_back];
     RawEmpty] /\
  (fetch_all Sample.env_cache [Sample.round_trip_combo; Sample.one_way_combo] []
     (Sample.world 250 Sample.cache_legs)).1 <> [] /\
  length (process_results Sample.sample_lib
            (fetch_all Sample.env_cache [Sample.round_trip_combo; Sample.one_way_combo] []
               (Sample.world 250 Sample.cache_legs)).1) = 1%nat.
Proof.
  assert (Hrun : (fetch_all Sample.env_cache [Sample.round_trip_combo; Sample.one_way_combo] []
     (Sample.world 250 Sample.cache_legs)).1
  = [RawEmpty;
     RawIndependent (combo_info Sample.round_trip_combo) [Sample.g_frontier] [Sample.g_back];
     RawEmpty]) by (vm_compute; reflexivity).
  split; [reflexivity|]. split; [exact Hrun|]. rewrite Hrun.
  split; [discriminate | vm_compute; reflexivity].
Qed.

(** ** The fatal error *)

Lemma invalid_key_truthy (error : string) :
  is_invalid_key error = true -> PyStr.truthy error = true.
Proof. destruct error; [discriminate | reflexivity]. Qed.

Lemma fetch_combination_fatal (E : Env) (combo : SearchCombination) (index total : Z)
    (w : World) (r : Response) (error : string) :
  quota_reached E w = false ->
  _cache_lookup E (_build_params E combo) w = None ->
  serp E (api_log w) (_build_params E combo) = ApiReturns r ->
  resp_error r = Some error ->
  is_invalid_key error = true ->
  fetch_combination E combo index total w
  = (RawFatal error, log_request (_build_params E combo) w).
Proof.
  intros Hq Hmiss Hserp Herr Hkey.
  unfold fetch_combination, api_call, has_error.
  rewrite Hq, Hmiss, Hserp, Herr. simpl.
  by rewrite (invalid_key_truthy error Hkey), Hkey.
Qed.

(** The main loop over [pre ++ rest] is the loop over [rest] started where
    the loop over [pre] ended, provided that one did not end on a fatal
    error. *)
Lemma fetch_loop_app (E : Env) (total : Z) (pre rest : list SearchCombination) :
  forall i results w res1 w1,
    fetch_loop E total i pre results w = (res1, w1) ->
    Forall (fun raw => is_fatal raw = false) res1 ->
    fetch_loop E total i (pre ++ rest) results w
    = fetch_loop E total (i + Z.of_nat (length pre)) rest res1 w1.
Proof.
  induction pre as [|combo pre IH]; intros i results w res1 w1 Hrun Hok; simpl in *.
  - injection Hrun as <- <-. by rewrite Z.add_0_r.
  - destruct (fetch_combination E combo i total w) as [raw w2].
    destruct (is_fatal raw) eqn:Hf.
    + injection Hrun as <- <-.
      apply Forall_app in Hok as [_ Hraw].
      inversion Hraw as [|? ? Hr _]. simpl in Hr. congruence.
    + destruct (after_combination E total i combo (results ++ [raw]) w2) as [results2 w3].
      rewrite (IH _ _ _ _ _ Hrun Hok). f_equal. lia.
Qed.

Lemma dual_route_appends (E : Env) (combo : SearchCombination) (afs : list PostFilter) :
  forall results w, exists extra w', dual_route E combo afs results w = (results ++ extra, w').
Proof.
  unfold dual_route. induction afs as [|af afs IH]; intros results w; simpl.
  - exists [], w. by rewrite app_nil_r.
  - destruct (fetch_independent E combo (dual_base E combo af) w) as [unit w1].
    destruct (IH (results ++ [unit]) w1) as (extra & w' & ->).
    exists (unit :: extra), w'. by rewrite <- app_assoc.
Qed.

(** The dual fetch only appends to the result list. *)
Lemma dual_loop_appends (E : Env) (afs : list PostFilter)
    (combinations : list SearchCombination) :
  forall seen results w,
    exists extra w', dual_loop E afs combinations seen results w = (results ++ extra, w').
Proof.
  induction combinations as [|combo rest IH]; intros seen results w; simpl.
  - exists [], w. by rewrite app_nil_r.
  - destruct (bool_decide (route_key combo ∈ seen) || negb (is_round_trip combo)).
    + apply IH.
    + destruct (dual_route_appends E combo afs results w) as (extra1 & w1 & ->).
      destruct (IH ({[route_key combo]} ∪ seen) (results ++ extra1) (sleep w1))
        as (extra2 & w' & ->).
      exists (extra1 ++ extra2), w'. by rewrite <- app_assoc.
Qed.

(** C2, as the code has it. Let the main loop of [fetch_all] have gone
    through the combinations [pre] without fatal error, and let the request of
    the next combination be sent (quota not reached, cache miss) and come back
    with an error that names an invalid API key. Then the main loop ends
    there: it appends the sentinel [RawFatal] to the result list and fetches
    none of the later combinations, so its result and its world are those
    reached after [pre], plus the sentinel and the one request. The sentinel
    is an element of the list [fetch_all] returns, which is where the caller
    finds it; without airline post-filters it is the last element and nothing
    else is done. *)
Theorem fatal_error_stops_main_loop (E : Env) (pre : list SearchCombination)
    (combo : SearchCombination) (post : list SearchCombination)
    (post_filters : list PostFilter) (w w1 : World) (res1 : list Raw)
    (r : Response) (error : string) :
  let combinations := pre ++ combo :: post in
  let total := Z.of_nat (length combinations) in
  fetch_loop E total 1 pre [] w = (res1, w1) ->
  Forall (fun raw => is_fatal raw = false) res1 ->
  quota_reached E w1 = false ->
  _cache_lookup E (_build_params E combo) w1 = None ->
  serp E (api_log w1) (_build_params E combo) = ApiReturns r ->
  resp_error r = Some error ->
  is_invalid_key error = true ->
  fetch_loop E total 1 combinations [] w
  = (res1 ++ [RawFatal error], log_request (_build_params E combo) w1) /\
  is_fatal (RawFatal error) = true /\
  exists extra w2,
    fetch_all E combinations post_filters w = (res1 ++ RawFatal error :: extra, w2) /\
    (airline_filters_of post_filters = [] ->
     extra = [] /\ w2 = log_request (_build_params E combo) w1).
Proof.
  intros combinations total Hpre Hok Hq Hmiss Hserp Herr Hkey.
  assert (Hf : is_fatal (RawFatal error) = true) by by apply invalid_key_truthy.
  assert (Hloop : fetch_loop E total 1 combinations [] w
                  = (res1 ++ [RawFatal error], log_request (_build_params E combo) w1)).
  { unfold combinations. rewrite (fetch_loop_app E total pre _ 1 [] w res1 w1 Hpre Hok).
    simpl. rewrite (fetch_combination_fatal E combo _ total w1 r error) by done.
    by rewrite Hf. }
  split; [exact Hloop|]. split; [exact Hf|].
  unfold fetch_all. fold (airline_filters_of post_filters). fold combinations total.
  rewrite Hloop.
  destruct (airline_filters_of post_filters) as [|af afs].
  { exists [], (log_request (_build_params E combo) w1). done. }
  assert (Hne : exists c cs, combinations = c :: cs).
  { unfold combinations. destruct pre; simpl; eauto. }
  destruct Hne as (c & cs & ->).
  destruct (dual_loop_appends E (af :: afs) (c :: cs) ∅ (res1 ++ [RawFatal error])
              (log_request (_build_params E combo) w1)) as (extra & w2 & ->).
  exists extra, w2. rewrite <- app_assoc. split; [reflexivity | discriminate].
Qed.

Lemma fatal_error_stops_main_loop_witness :
  (fetch_loop Sample.env_key_revoked 3 1
     [Sample.one_way_combo; Sample.round_trip_combo; Sample.one_way_combo] []
     (Sample.world 0 ∅)).1
  = (fetch_loop Sample.env_key_revoked 3 1 [Sample.one_way_combo] [] (Sample.world 0 ∅)).1
    ++ [RawFatal Sample.bad_key_message].
Proof.
  pose proof (fatal_error_stops_main_loop Sample.env_key_revoked
                [Sample.one_way_combo] Sample.round_trip_combo [Sample.one_way_combo] []
                (Sample.world 0 ∅)
                (fetch_loop Sample.env_key_revoked 3 1 [Sample.one_way_combo] []
                   (Sample.world 0 ∅)).2
                (fetch_loop Sample.env_key_revoked 3 1 [Sample.one_way_combo] []
                   (Sample.world 0 ∅)).1
                {| resp_error := Some Sample.bad_key_message;
                   best_flights := []; other_flights := [] |}
                Sample.bad_key_message) as H.
  cbv zeta in H.
  destruct H as [Hloop _].
  - apply surjective_pairing.
  - vm_compute. repeat constructor.
  - vm_compute. reflexivity.
  - vm_compute. reflexivity.
  - vm_compute. reflexivity.
  - reflexivity.
  - vm_compute. reflexivity.
  - change (Z.of_nat (length ([Sample.one_way_combo]
              ++ Sample.round_trip_combo :: [Sample.one_way_combo]))) with 3 in Hloop.
    simpl app in Hloop. by rewrite Hloop.
Defined.

(** C2 as stated fails: the sentinel is an element of the very list that
    [fetch_all] returns. *)
Lemma fatal_sentinel_in_result_list :
  (fetch_all Sample.env_bad_key [Sample.one_way_combo; Sample.round_trip_combo] []
     (Sample.world 0 ∅)).1
  = [RawFatal Sample.bad_key_message] /\
  In (RawFatal Sample.bad_key_message)
     (fetch_all Sample.env_bad_key [Sample.one_way_combo; Sample.round_trip_combo] []
        (Sample.world 0 ∅)).1.
Proof.
  assert (Hrun : (fetch_all Sample.env_bad_key [Sample.one_way_combo; Sample.round_trip_combo] []
     (Sample.world 0 ∅)).1 = [RawFatal Sample.bad_key_message]) by (vm_compute; reflexivity).
  split; [exact Hrun|]. rewrite Hrun. by left.
Qed.

(** An invalid-key error that comes back from a return-leg or one-way
    lookup is not fatal: with the credential rejected from the second request
    on, a round trip ends without sentinel. *)
Example invalid_key_in_lookup_not_fatal :
  existsb is_fatal
    (fetch_all Sample.env_key_revoked [Sample.round_trip_combo] [] (Sample.world 0 ∅)).1
  = false /\
  length (api_log
    (fetch_all Sample.env_key_revoked [Sample.round_trip_combo] [] (Sample.world 0 ∅)).2)
  = 3%nat.
Proof. split; vm_compute; reflexivity. Qed.

(** After the main loop has stopped on the fatal error, the dual fetch for an
    airline post-filter still sends its two one-way requests. *)
Example dual_fetch_runs_after_fatal :
  (fetch_all Sample.env_bad_key [Sample.round_trip_combo; Sample.one_way_combo]
     [airline_filter "Frontier" any] (Sample.world 0 ∅)).1
  = [RawFatal Sample.bad_key_message;
     RawIndependent (combo_info Sample.round_trip_combo) [] []] /\
  length (api_log (fetch_all Sample.env_bad_key [Sample.round_trip_combo; Sample.one_way_combo]
                     [airline_filter "Frontier" any] (Sample.world 0 ∅)).2) = 3%nat.
Proof. split; vm_compute; reflexivity. Qed.

(** * Further properties of flight_fetcher.py *)

(** ** Strings as lists of characters *)

Lemma append_cons (x : ascii) (a b : string) : String x a +:+ b = String x (a +:+ b).
Proof. reflexivity. Qed.

Lemma append_nil_l (b : string) : "" +:+ b = b.
Proof. reflexivity. Qed.

Lemma string_app_assoc (a b c : string) : (a +:+ b) +:+ c = a +:+ b +:+ c.
Proof. induction a as [|x a IH]; [done|]. by rewrite !append_cons, IH. Qed.

Lemma string_app_nil_r (s : string) : s +:+ "" = s.
Proof. induction s as [|x s IH]; [done|]. by rewrite append_cons, IH. Qed.

Lemma string_rev_app_spec (s1 s2 : string) : String.rev_app s1 s2 = String.rev s1 +:+ s2.
Proof.
  revert s2. induction s1 as [|a s1 IH]; intros s2; [reflexivity|].
  unfold String.rev. cbn [String.rev_app]. rewrite (IH (String a s2)), (IH (String a "")).
  by rewrite string_app_assoc.
Qed.

Lemma string_rev_cons (a : ascii) (s : string) : String.rev (String a s) = String.rev s +:+ String a "".
Proof. unfold String.rev at 1. cbn [String.rev_app]. apply string_rev_app_spec. Qed.

Lemma chars_app (s1 s2 : string) :
  list_ascii_of_string (s1 +:+ s2) = list_ascii_of_string s1 ++ list_ascii_of_string s2.
Proof.
  induction s1 as [|a s1 IH]; [done|].
  rewrite append_cons. cbn [list_ascii_of_string]. by rewrite IH.
Qed.

Lemma chars_rev (s : string) :
  list_ascii_of_string (String.rev s) = rev (list_ascii_of_string s).
Proof.
  induction s as [|a s IH]; [reflexivity|].
  rewrite string_rev_cons, chars_app, IH. reflexivity.
Qed.

Lemma chars_inj (s1 s2 : string) :
  list_ascii_of_string s1 = list_ascii_of_string s2 -> s1 = s2.
Proof.
  intros H. rewrite <- (string_of_list_ascii_of_string s1), H.
  apply string_of_list_ascii_of_string.
Qed.

Lemma string_rev_involutive (s : string) : String.rev (String.rev s) = s.
Proof. apply chars_inj. by rewrite !chars_rev, List.rev_involutive. Qed.

Lemma elem_of_rev {A} (a : A) (l : list A) : a ∈ rev l <-> a ∈ l.
Proof. rewrite !list_elem_of_In. symmetry. apply in_rev. Qed.

Lemma chars_lstrip (s : string) (a : ascii) :
  a ∈ list_ascii_of_string (PyStr.lstrip s) -> a ∈ list_ascii_of_string s.
Proof.
  induction s as [|b s IH]; cbn [PyStr.lstrip list_ascii_of_string]; [done|].
  destruct (Ascii.is_space b); [|done]. intros H. right. by apply IH.
Qed.

Lemma chars_strip (s : string) (a : ascii) :
  a ∈ list_ascii_of_string (PyStr.strip s) -> a ∈ list_ascii_of_string s.
Proof.
  unfold PyStr.strip. rewrite chars_rev, elem_of_rev. intros H%chars_lstrip.
  rewrite chars_rev, elem_of_rev in H. by apply chars_lstrip.
Qed.

(** ** [str.split] on one character *)

Lemma split_go_no_sep (sep : ascii) (x cur : string) :
  sep ∉ list_ascii_of_string x ->
  PyStr.split_go sep cur x = [String.rev cur +:+ x].
Proof.
  revert cur. induction x as [|a x IH]; intros cur Hx; cbn [PyStr.split_go].
  - by rewrite string_app_nil_r.
  - cbn [list_ascii_of_string] in Hx. apply not_elem_of_cons in Hx as [Ha Hx].
    destruct (Ascii.eqb_spec a sep) as [->|_]; [done|].
    rewrite (IH _ Hx), string_rev_cons, string_app_assoc. reflexivity.
Qed.

Lemma split_go_at_sep (sep : ascii) (x cur rest : string) :
  sep ∉ list_ascii_of_string x ->
  PyStr.split_go sep cur (x +:+ String sep rest)
  = (String.rev cur +:+ x) :: PyStr.split_go sep "" rest.
Proof.
  revert cur. induction x as [|a x IH]; intros cur Hx;
    rewrite ?append_cons, ?append_nil_l; cbn [PyStr.split_go].
  - by rewrite Ascii.eqb_refl, string_app_nil_r.
  - cbn [list_ascii_of_string] in Hx. apply not_elem_of_cons in Hx as [Ha Hx].
    destruct (Ascii.eqb_spec a sep) as [->|_]; [done|].
    rewrite (IH _ Hx), string_rev_cons, string_app_assoc. reflexivity.
Qed.

Lemma split_go_parts (sep : ascii) (s cur p : string) :
  sep ∉ list_ascii_of_string cur ->
  p ∈ PyStr.split_go sep cur s -> sep ∉ list_ascii_of_string p.
Proof.
  revert cur. induction s as [|a s IH]; intros cur Hcur; cbn [PyStr.split_go].
  - intros ->%list_elem_of_singleton. by rewrite chars_rev, elem_of_rev.
  - destruct (Ascii.eqb_spec a sep) as [->|Hne].
    + intros [->|Hp]%elem_of_cons.
      * by rewrite chars_rev, elem_of_rev.
      * apply (IH ""); [|exact Hp]. cbn. apply not_elem_of_nil.
    + apply IH. cbn [list_ascii_of_string]. apply not_elem_of_cons. split; [congruence|done].
Qed.

Lemma split_parts (sep : ascii) (s p : string) :
  p ∈ PyStr.split sep s -> sep ∉ list_ascii_of_string p.
Proof. apply split_go_parts. cbn. apply not_elem_of_nil. Qed.

Lemma split_two (sep : ascii) (a b : string) :
  sep ∉ list_ascii_of_string a -> sep ∉ list_ascii_of_string b ->
  PyStr.split sep (a +:+ String sep b) = [a; b].
Proof.
  intros Ha Hb. unfold PyStr.split. rewrite (split_go_at_sep sep a "" b Ha).
  by rewrite (split_go_no_sep sep b "" Hb).
Qed.

Lemma departure_only_split (time_str : string) :
  PyStr.split ","%char (_departure_only time_str)
  = match PyStr.split ","%char time_str with
    | p0 :: p1 :: _ => [PyStr.strip p0; PyStr.strip p1]
    | _ => PyStr.split ","%char time_str
    end.
Proof.
  unfold _departure_only.
  destruct (PyStr.split ","%char time_str) as [|p0 [|p1 ps]] eqn:Hs; [done..|].
  apply split_two.
  - intros H%chars_strip. revert H. apply (split_parts _ time_str). rewrite Hs. by left.
  - intros H%chars_strip. revert H. apply (split_parts _ time_str). rewrite Hs.
    right. by left.
Qed.

(** ** Dicts *)

Lemma dict_keys_set {V} (k : string) (v : V) (d : PyDict.dict V) :
  PyDict.keys (PyDict.set k v d)
  = if bool_decide (k ∈ PyDict.keys d) then PyDict.keys d else PyDict.keys d ++ [k].
Proof.
  unfold PyDict.keys. induction d as [|[k' v'] d IH]; [reflexivity|].
  cbn [PyDict.set map fst]. destruct (String.eqb_spec k' k) as [->|Hne].
  - rewrite bool_decide_eq_true_2 by (by left). reflexivity.
  - cbn [map fst]. rewrite IH.
    destruct (bool_decide (k ∈ map fst d)) eqn:Hin.
    + apply bool_decide_eq_true_1 in Hin. rewrite bool_decide_eq_true_2 by (by right). done.
    + apply bool_decide_eq_false_1 in Hin. rewrite bool_decide_eq_false_2; [done|].
      intros [?|?]%elem_of_cons; congruence.
Qed.

Lemma dict_wf_set {V} (k : string) (v : V) (d : PyDict.dict V) :
  PyDict.wf d -> PyDict.wf (PyDict.set k v d).
Proof.
  unfold PyDict.wf. intros Hwf. rewrite dict_keys_set.
  destruct (bool_decide (k ∈ PyDict.keys d)) eqn:Hin; [exact Hwf|].
  apply bool_decide_eq_false_1 in Hin.
  apply NoDup_app. split; [exact Hwf|]. split; [|apply NoDup_singleton].
  intros x Hx ->%list_elem_of_singleton. done.
Qed.

Lemma dict_wf_pop {V} (k : string) (d : PyDict.dict V) :
  PyDict.wf d -> PyDict.wf (PyDict.pop k d).
Proof.
  unfold PyDict.wf, PyDict.keys, PyDict.pop. induction d as [|[k' v'] d IH]; [done|].
  cbn [map fst List.filter]. intros [Hk Hd]%NoDup_cons.
  destruct (negb (String.eqb k' k)); [|by apply IH].
  cbn [map fst]. apply NoDup_cons. split; [|by apply IH].
  intros Hin. apply Hk. apply list_elem_of_fmap in Hin as ([k2 v2] & -> & Hin).
  apply list_elem_of_In, filter_In in Hin as [Hin _].
  apply (list_elem_of_fmap_2' fst _ (k2, v2)); [by apply list_elem_of_In|done].
Qed.

Lemma dict_get_pop_eq {V} (k : string) (d : PyDict.dict V) :
  PyDict.get k (PyDict.pop k d) = None.
Proof.
  unfold PyDict.pop. induction d as [|[k' v'] d IH]; [reflexivity|].
  cbn [List.filter fst]. destruct (String.eqb k' k) eqn:Hk; [exact IH|].
  cbn [negb PyDict.get]. by rewrite Hk.
Qed.

Lemma dict_get_pop_ne {V} (k k' : string) (d : PyDict.dict V) :
  k <> k' -> PyDict.get k (PyDict.pop k' d) = PyDict.get k d.
Proof.
  intros Hne. unfold PyDict.pop. induction d as [|[k0 v0] d IH]; [reflexivity|].
  cbn [List.filter fst PyDict.get]. destruct (String.eqb_spec k0 k') as [->|Hk0].
  - cbn [negb]. rewrite IH. destruct (String.eqb_spec k' k); [congruence|done].
  - cbn [negb PyDict.get]. by rewrite IH.
Qed.

Lemma pop_set_ne {V} (k k' : string) (v : V) (d : PyDict.dict V) :
  k <> k' -> PyDict.pop k (PyDict.set k' v d) = PyDict.set k' v (PyDict.pop k d).
Proof.
  intros Hne. unfold PyDict.pop. induction d as [|[k0 v0] d IH].
  - cbn [PyDict.set List.filter fst]. destruct (String.eqb_spec k' k); [congruence|done].
  - cbn [PyDict.set List.filter fst]. destruct (String.eqb_spec k0 k') as [->|Hk0].
    + cbn [List.filter fst]. destruct (String.eqb_spec k' k); [congruence|].
      cbn [negb PyDict.set]. by rewrite String.eqb_refl.
    + cbn [List.filter fst]. destruct (String.eqb_spec k0 k) as [->|Hk].
      * cbn [negb]. exact IH.
      * cbn [negb PyDict.set]. destruct (String.eqb_spec k0 k'); [congruence|]. by rewrite IH.
Qed.

Lemma wf_set_if_truthy (k : string) (o : option string) (f : string -> string) (d : Params) :
  PyDict.wf d -> PyDict.wf (set_if_truthy k o f d).
Proof.
  intros Hwf. unfold set_if_truthy. destruct o as [s|]; [|done].
  destruct (PyStr.truthy s); [by apply dict_wf_set|done].
Qed.

Lemma wf_set_if_some (k : string) (o : option Z) (d : Params) :
  PyDict.wf d -> PyDict.wf (set_if_some k o d).
Proof. intros Hwf. unfold set_if_some. destruct o; [by apply dict_wf_set|done]. Qed.

Lemma get_set_if_truthy_eq (k : string) (o : option string) (f : string -> string)
    (d : Params) :
  PyDict.get k (set_if_truthy k o f d)
  = if PyStr.truthy_opt o then f <$> o else PyDict.get k d.
Proof.
  unfold set_if_truthy, PyStr.truthy_opt. destruct o as [s|]; [|reflexivity].
  destruct (PyStr.truthy s); [apply dict_get_set_eq|reflexivity].
Qed.

Lemma pop_set_if_truthy_ne (k k' : string) (o : option string) (f : string -> string)
    (d : Params) :
  k <> k' -> PyDict.pop k (set_if_truthy k' o f d) = set_if_truthy k' o f (PyDict.pop k d).
Proof.
  intros Hne. unfold set_if_truthy. destruct o as [s|]; [|reflexivity].
  destruct (PyStr.truthy s); [by apply pop_set_ne|reflexivity].
Qed.

Lemma pop_set_if_some_ne (k k' : string) (o : option Z) (d : Params) :
  k <> k' -> PyDict.pop k (set_if_some k' o d) = set_if_some k' o (PyDict.pop k d).
Proof.
  intros Hne. unfold set_if_some. destruct o; [by apply pop_set_ne|reflexivity].
Qed.

Lemma build_params_wf (E : Env) (combo : SearchCombination) :
  PyDict.wf (_build_params E combo).
Proof.
  unfold _build_params.
  repeat first [apply wf_set_if_truthy | apply wf_set_if_some
               | match goal with |- PyDict.wf (if ?b then _ else _) => destruct b end].
  all: unfold PyDict.wf, PyDict.keys; cbn [map fst];
    apply (bool_decide_unpack _); vm_compute; reflexivity.
Qed.

(** X1. The request of a combination is a dict proper (no key twice) and
    never holds both airline lists: [include_airlines] is sent when the
    combination has a non-empty one, and [exclude_airlines] only when it has
    no inclusion list and a non-empty exclusion list. *)
Theorem build_params_airline_filters (E : Env) (combo : SearchCombination) :
  let include := SearchCombination.include_airlines combo in
  let exclude := SearchCombination.exclude_airlines combo in
  let params := _build_params E combo in
  PyDict.wf params /\
  PyDict.get "include_airlines" params = (if PyStr.truthy_opt include then include else None) /\
  PyDict.get "exclude_airlines" params
  = (if PyStr.truthy_opt include then None
     else if PyStr.truthy_opt exclude then exclude else None).
Proof.
  intros include exclude params. split; [apply build_params_wf|].
  subst params. unfold _build_params. fold include exclude.
  destruct (PyStr.truthy_opt include) eqn:Hi; split.
  - rewrite !get_set_if_truthy_ne, !get_set_if_some_ne by discriminate.
    rewrite get_set_if_truthy_eq, Hi. by destruct include.
  - by rewrite !get_set_if_truthy_ne, !get_set_if_some_ne, !get_set_if_truthy_ne
      by discriminate.
  - by rewrite !get_set_if_truthy_ne, !get_set_if_some_ne, !get_set_if_truthy_ne
      by discriminate.
  - rewrite !get_set_if_truthy_ne, !get_set_if_some_ne by discriminate.
    rewrite get_set_if_truthy_eq, get_set_if_truthy_ne by discriminate.
    destruct (PyStr.truthy_opt exclude); [by destruct exclude|reflexivity].
Qed.

(** X2. Expanding an airport code twice is expanding it once: what
    [_expand_airports] returns, a list of airports for a metro code or the
    code itself, is not expanded any further. *)
Theorem expand_airports_idempotent (code : string) :
  _expand_airports (_expand_airports code) = _expand_airports code.
Proof.
  assert (Hc : _expand_airports code
               = default code (PyDict.get (PyStr.upper code) _METRO_EXPANSION))
    by reflexivity.
  rewrite Hc. clear Hc.
  destruct (PyDict.get (PyStr.upper code) _METRO_EXPANSION) as [v|] eqn:Hget; cbn [default].
  - unfold _METRO_EXPANSION in Hget. cbn [PyDict.get] in Hget.
    repeat match type of Hget with
           | (if ?b then _ else _) = _ => destruct b; [injection Hget as <-; reflexivity|]
           end.
    discriminate.
  - unfold _expand_airports. by rewrite Hget.
Qed.

Lemma build_params_pop_api_key (E : Env) (combo : SearchCombination) :
  PyDict.pop "api_key" (_build_params E combo)
  = PyDict.pop "api_key"
      (_build_params {| cfg := default_config ""; lib := lib E; now := now E;
                        today_month := today_month E; serp := serp E |} combo).
Proof.
  unfold _build_params.
  destruct (PyStr.truthy_opt (SearchCombination.include_airlines combo));
    by rewrite !pop_set_if_truthy_ne, !pop_set_if_some_ne, !pop_set_if_truthy_ne by discriminate.
Qed.

(** X3. The cache key of a combination's request does not depend on the
    configured API key: two configurations that differ in whatever way give
    the request of a combination the same cache key (the hash function being
    the same). *)
Theorem cache_key_of_combination (E1 E2 : Env) (combo : SearchCombination) :
  lib E1 = lib E2 ->
  _cache_key E1 (_build_params E1 combo) = _cache_key E2 (_build_params E2 combo).
Proof.
  intros Hlib. unfold _cache_key, stable_params. rewrite Hlib. do 3 f_equal.
  apply sorted_items_stable.
  rewrite (build_params_pop_api_key E1), (build_params_pop_api_key E2).
  unfold _build_params. reflexivity.
Qed.

Lemma cache_key_of_combination_witness :
  _cache_key (Sample.env (default_config "first") ApiRaises)
    (_build_params (Sample.env (default_config "first") ApiRaises) Sample.round_trip_combo)
  = _cache_key (Sample.env Sample.config_no_cache ApiRaises)
      (_build_params (Sample.env Sample.config_no_cache ApiRaises) Sample.round_trip_combo).
Proof.
  exact (cache_key_of_combination (Sample.env (default_config "first") ApiRaises)
           (Sample.env Sample.config_no_cache ApiRaises) Sample.round_trip_combo eq_refl).
Defined.

Lemma build_params_get_base (E : Env) (combo : SearchCombination) (k : string) :
  k ∈ ["departure_id"; "arrival_id"; "outbound_date"; "type"] ->
  PyDict.get k (_build_params E combo)
  = PyDict.get k
      [("departure_id", _expand_airports (SearchCombination.departure_id combo));
       ("arrival_id", _expand_airports (SearchCombination.arrival_id combo));
       ("outbound_date", SearchCombination.outbound_date combo);
       ("type", PyStr.str_of_Z (SearchCombination.type combo))].
Proof.
  intros Hk. unfold _build_params.
  repeat (apply elem_of_cons in Hk as [->|Hk]);
    [destruct (PyStr.truthy_opt (SearchCombination.include_airlines combo));
     by rewrite !get_set_if_truthy_ne, !get_set_if_some_ne, !get_set_if_truthy_ne
       by discriminate..|].
  by apply elem_of_nil in Hk.
Qed.

Lemma build_params_outbound_times (E : Env) (combo : SearchCombination) :
  PyDict.get "outbound_times" (_build_params E combo)
  = if PyStr.truthy_opt (SearchCombination.outbound_times combo)
    then _departure_only <$> SearchCombination.outbound_times combo
    else None.
Proof.
  unfold _build_params. rewrite get_set_if_truthy_ne by discriminate.
  rewrite get_set_if_truthy_eq.
  destruct (PyStr.truthy_opt (SearchCombination.outbound_times combo)); [reflexivity|].
  destruct (PyStr.truthy_opt (SearchCombination.include_airlines combo));
    by rewrite !get_set_if_some_ne, !get_set_if_truthy_ne by discriminate.
Qed.

Lemma build_params_return_times (E : Env) (combo : SearchCombination) :
  PyDict.get "return_times" (_build_params E combo)
  = if PyStr.truthy_opt (SearchCombination.return_times combo)
    then _departure_only <$> SearchCombination.return_times combo
    else None.
Proof.
  unfold _build_params. rewrite get_set_if_truthy_eq.
  destruct (PyStr.truthy_opt (SearchCombination.return_times combo)); [reflexivity|].
  destruct (PyStr.truthy_opt (SearchCombination.include_airlines combo));
    by rewrite !get_set_if_truthy_ne, !get_set_if_some_ne, !get_set_if_truthy_ne
      by discriminate.
Qed.

(** The four-part branch of the outbound one-way request is not taken when
    the window went through [_departure_only]. *)
Lemma one_way_outbound_params_cut (base : Params) :
  (forall s, PyDict.get "outbound_times" base = Some s ->
             (length (PyStr.split ","%char s) <= 2)%nat) ->
  one_way_outbound_params base
  = PyDict.pop "return_times" (PyDict.pop "return_date" (PyDict.set "type" "2" base)).
Proof.
  intros Hlen. unfold one_way_outbound_params.
  rewrite !dict_get_pop_ne, dict_get_set_ne by discriminate.
  destruct (PyDict.get "outbound_times" base) as [s|] eqn:Hs; [|reflexivity].
  destruct (PyStr.truthy s); [|reflexivity].
  specialize (Hlen s eq_refl).
  by destruct (PyStr.split ","%char s) as [|p0 [|p1 [|p2 [|p3 [|p4 ps]]]]];
    simpl in Hlen; try lia.
Qed.

Lemma departure_only_length (s : string) :
  (length (PyStr.split ","%char (_departure_only s)) <= 2)%nat.
Proof.
  rewrite departure_only_split.
  destruct (PyStr.split ","%char s) as [|p0 [|p1 ps]]; simpl; lia.
Qed.

(** X4. [_departure_only] sends at most two values: when the window has two
    comma-separated values or more, what it returns splits into exactly the
    first two, stripped of surrounding white space; a window without comma
    is returned as it is. *)
Theorem departure_only_two_values (time_str : string) :
  PyStr.split ","%char (_departure_only time_str)
  = match PyStr.split ","%char time_str with
    | p0 :: p1 :: _ => [PyStr.strip p0; PyStr.strip p1]
    | _ => PyStr.split ","%char time_str
    end /\
  (length (PyStr.split ","%char (_departure_only time_str)) <= 2)%nat.
Proof. split; [apply departure_only_split|apply departure_only_length]. Qed.

Lemma independent_base_get (E : Env) (combo : SearchCombination) (k : string) :
  k <> "include_airlines" -> k <> "exclude_airlines" ->
  PyDict.get k (independent_base E combo) = PyDict.get k (_build_params E combo).
Proof. intros H1 H2. unfold independent_base. by rewrite !dict_get_pop_ne. Qed.

Lemma one_way_outbound_params_get (base : Params) (k : string) :
  k <> "outbound_times" -> k <> "type" -> k <> "return_date" -> k <> "return_times" ->
  PyDict.get k (one_way_outbound_params base) = PyDict.get k base.
Proof.
  intros H1 H2 H3 H4. unfold one_way_outbound_params.
  set (p := PyDict.pop "return_times" _).
  assert (Hp : PyDict.get k p = PyDict.get k base).
  { subst p. by rewrite !dict_get_pop_ne, dict_get_set_ne. }
  destruct (PyDict.get "outbound_times" p) as [s|]; [|exact Hp].
  destruct (PyStr.truthy s); [|exact Hp].
  destruct (PyStr.split ","%char s) as [|p0 [|p1 [|p2 [|p3 [|p4 ps]]]]]; try exact Hp.
  by rewrite dict_get_set_ne.
Qed.

Lemma one_way_outbound_params_fixed (base : Params) :
  PyDict.get "type" (one_way_outbound_params base) = Some "2" /\
  PyDict.get "return_date" (one_way_outbound_params base) = None /\
  PyDict.get "return_times" (one_way_outbound_params base) = None.
Proof.
  unfold one_way_outbound_params. set (p := PyDict.pop "return_times" _).
  assert (Hp : PyDict.get "type" p = Some "2" /\ PyDict.get "return_date" p = None /\
               PyDict.get "return_times" p = None).
  { subst p. split; [|split].
    - by rewrite !dict_get_pop_ne, dict_get_set_eq by discriminate.
    - by rewrite dict_get_pop_ne, dict_get_pop_eq by discriminate.
    - by rewrite dict_get_pop_eq. }
  destruct (PyDict.get "outbound_times" p) as [s|]; [|exact Hp].
  destruct (PyStr.truthy s); [|exact Hp].
  destruct (PyStr.split ","%char s) as [|p0 [|p1 [|p2 [|p3 [|p4 ps]]]]]; try exact Hp.
  by rewrite !dict_get_set_ne by discriminate.
Qed.

Lemma one_way_return_params_get (combo : SearchCombination) (base : Params) (k : string) :
  k ∉ ["outbound_times"; "type"; "return_date"; "departure_id"; "arrival_id";
       "outbound_date"] ->
  PyDict.get k (one_way_return_params combo base) = PyDict.get k base.
Proof.
  intros Hk. unfold one_way_return_params.
  repeat (apply not_elem_of_cons in Hk as [? Hk]).
  by rewrite get_set_if_truthy_ne, !dict_get_pop_ne, !dict_get_set_ne.
Qed.

(** X5. The two one-way requests that the main loop of [fetch_all] derives
    from a round trip. Both are of type 2, hold no [return_date] and neither
    airline list. The outbound one keeps the airports, the date and the
    outbound window of the round-trip request (the branch that would cut a
    four-part window is never taken, the window having at most two values),
    and holds no [return_times]. The return one has the airports swapped and
    the return date as its date; it still holds the [return_times] of the
    round-trip request, which the code does not remove. *)
Theorem one_way_requests (E : Env) (combo : SearchCombination) :
  let request := _build_params E combo in
  let base := independent_base E combo in
  let out := one_way_outbound_params base in
  let ret := one_way_return_params combo base in
  out = PyDict.pop "return_times" (PyDict.pop "return_date" (PyDict.set "type" "2" base)) /\
  (PyDict.get "type" out = Some "2" /\ PyDict.get "type" ret = Some "2") /\
  (PyDict.get "return_date" out = None /\ PyDict.get "return_date" ret = None) /\
  (PyDict.get "include_airlines" out = None /\ PyDict.get "exclude_airlines" out = None /\
   PyDict.get "include_airlines" ret = None /\ PyDict.get "exclude_airlines" ret = None) /\
  (PyDict.get "departure_id" out
     = Some (_expand_airports (SearchCombination.departure_id combo)) /\
   PyDict.get "arrival_id" out
     = Some (_expand_airports (SearchCombination.arrival_id combo)) /\
   PyDict.get "outbound_date" out = Some (SearchCombination.outbound_date combo)) /\
  (PyDict.get "departure_id" ret
     = Some (_expand_airports (SearchCombination.arrival_id combo)) /\
   PyDict.get "arrival_id" ret
     = Some (_expand_airports (SearchCombination.departure_id combo)) /\
   PyDict.get "outbound_date" ret
     = Some (default "" (SearchCombination.return_date combo))) /\
  PyDict.get "outbound_times" out = PyDict.get "outbound_times" request /\
  PyDict.get "return_times" out = None /\
  PyDict.get "return_times" ret = PyDict.get "return_times" request.
Proof.
  intros request base out ret.
  assert (Hcut : out = PyDict.pop "return_times"
                         (PyDict.pop "return_date" (PyDict.set "type" "2" base))).
  { apply one_way_outbound_params_cut. intros s. subst base.
    rewrite independent_base_get, build_params_outbound_times by discriminate.
    destruct (PyStr.truthy_opt _); [|done].
    destruct (SearchCombination.outbound_times combo); [|done].
    intros [= <-]. apply departure_only_length. }
  assert (Hinc : PyDict.get "include_airlines" base = None).
  { subst base. unfold independent_base. by rewrite dict_get_pop_ne, dict_get_pop_eq. }
  assert (Hexc : PyDict.get "exclude_airlines" base = None).
  { subst base. unfold independent_base. by rewrite dict_get_pop_eq. }
  destruct (one_way_outbound_params_fixed base) as (Ht & Hrd & Hrt).
  split; [exact Hcut|]. subst out ret.
  split; [split; [exact Ht|]|].
  { unfold one_way_return_params.
    by rewrite get_set_if_truthy_ne, !dict_get_pop_ne, !dict_get_set_ne, dict_get_set_eq
      by discriminate. }
  split; [split; [exact Hrd|]|].
  { unfold one_way_return_params.
    by rewrite get_set_if_truthy_ne, dict_get_pop_ne, dict_get_pop_eq by discriminate. }
  split.
  { rewrite !one_way_outbound_params_get by discriminate.
    rewrite !one_way_return_params_get; [done|..];
      (intros H; repeat (apply elem_of_cons in H as [H|H]; [discriminate|]);
       by apply elem_of_nil in H). }
  split.
  { rewrite !one_way_outbound_params_get by discriminate. subst base.
    rewrite !independent_base_get, !build_params_get_base; [done|..]; try discriminate;
      (apply (bool_decide_unpack _); reflexivity). }
  split.
  { unfold one_way_return_params.
    rewrite !get_set_if_truthy_ne, !dict_get_pop_ne by discriminate.
    rewrite dict_get_set_ne, dict_get_set_ne, dict_get_set_eq by discriminate.
    rewrite dict_get_set_ne, dict_get_set_eq by discriminate.
    by rewrite dict_get_set_eq. }
  split.
  { rewrite Hcut, !dict_get_pop_ne, dict_get_set_ne by discriminate.
    subst base. by rewrite independent_base_get. }
  split; [exact Hrt|].
  rewrite one_way_return_params_get.
  - subst base. by rewrite independent_base_get.
  - intros H; repeat (apply elem_of_cons in H as [H|H]; [discriminate|]).
    by apply elem_of_nil in H.
Qed.

(** ** The usage counter and the cache, once more *)

Lemma keep_on_save_iff (E : Env) (v : CacheEntry) :
  keep_on_save E v = true <-> (age_seconds E v < ttl_seconds E)%Q.
Proof.
  unfold keep_on_save, age_seconds, ttl_seconds.
  rewrite negb_true_iff, <- not_true_iff_false, Qle_bool_iff.
  split; [apply Qnot_le_lt | apply Qlt_not_le].
Qed.

Lemma expired_false_seconds (E : Env) (entry : CacheEntry) :
  expired E entry = false <-> (age_seconds E entry <= ttl_seconds E)%Q.
Proof.
  rewrite expired_false_iff. unfold age_seconds, ttl_seconds.
  rewrite inject_Z_mult.
  set (a := (now E - ce_timestamp entry)%Q). set (t := inject_Z (SERPAPI_CACHE_TTL_HOURS (cfg E))).
  assert (H0 : (0 < inject_Z 3600)%Q) by reflexivity.
  split; intros H.
  - rewrite <- (Qmult_div_r a (inject_Z 3600)) by (intros Hz; rewrite Hz in H0; discriminate).
    rewrite (Qmult_comm (inject_Z 3600)). by apply Qmult_le_compat_r; [|apply Qlt_le_weak].
  - by apply Qle_shift_div_r.
Qed.

Lemma age_of_fresh_entry (E : Env) (response : Response) :
  (age_seconds E {| ce_timestamp := now E; ce_response := response |} == 0)%Q.
Proof. unfold age_seconds. simpl. apply Qplus_opp_r. Qed.

Lemma ttl_seconds_pos (E : Env) :
  (0 < ttl_seconds E)%Q <-> 0 < SERPAPI_CACHE_TTL_HOURS (cfg E).
Proof.
  unfold ttl_seconds. change 0%Q with (inject_Z 0). rewrite <- Zlt_Qlt. lia.
Qed.

Lemma cache_store_lookup_key (E : Env) (params : Params) (response : Response) (w : World)
    (k : string) (e : CacheEntry) :
  NO_CACHE (cfg E) = false ->
  cache_file (_cache_store E params response w) !! k = Some e <->
  (age_seconds E e < ttl_seconds E)%Q /\
  (if decide (k = _cache_key E params)
   then e = {| ce_timestamp := now E; ce_response := response |}
   else cache_file w !! k = Some e).
Proof.
  intros Hon. unfold _cache_store, _cache_save, _cache_load. rewrite Hon.
  cbn [cache_file with_cache]. rewrite map_lookup_filter_Some. cbn [snd].
  rewrite <- keep_on_save_iff, Is_true_true.
  destruct (decide (k = _cache_key E params)) as [->|Hne].
  - rewrite lookup_insert_eq. split; intros [H1 H2]; split; congruence.
  - rewrite lookup_insert_ne by done. tauto.
Qed.

Lemma cache_store_lookup_same (E : Env) (params : Params) (response : Response) (w : World) :
  NO_CACHE (cfg E) = false ->
  _cache_lookup E params (_cache_store E params response w)
  = if 0 <? SERPAPI_CACHE_TTL_HOURS (cfg E) then Some response else None.
Proof.
  intros Hon.
  set (e := {| ce_timestamp := now E; ce_response := response |}).
  pose proof (cache_store_lookup_key E params response w (_cache_key E params)) as Hk.
  pose proof (age_of_fresh_entry E response) as Hage. fold e in Hage.
  destruct (Z.ltb_spec 0 (SERPAPI_CACHE_TTL_HOURS (cfg E))) as [Hpos|Hneg].
  - apply ttl_seconds_pos in Hpos.
    apply (cache_lookup_hit E params _ e Hon).
    + apply Hk; [exact Hon|]. rewrite decide_True by done. split; [by rewrite Hage|done].
    + apply expired_false_seconds. rewrite Hage. by apply Qlt_le_weak.
  - unfold _cache_lookup, _cache_load. rewrite Hon.
    destruct (cache_file (_cache_store E params response w) !! _cache_key E params)
      as [e'|] eqn:He'; [|reflexivity].
    apply cache_store_lookup_key in He' as [Hlt He']; [|exact Hon].
    rewrite decide_True in He' by done.
    subst e'. fold e in Hlt. rewrite Hage in Hlt. apply ttl_seconds_pos in Hlt. lia.
Qed.

(** X6. Store, then look up. With the cache on, the response just stored
    for a request is what a lookup of that request returns, provided the TTL
    is positive; with a TTL of zero hours or less the entry is pruned by the
    very save that writes it, and the lookup finds nothing. *)
Theorem cache_store_then_lookup (E : Env) (params : Params) (response : Response) (w : World) :
  NO_CACHE (cfg E) = false ->
  _cache_lookup E params (_cache_store E params response w)
  = if 0 <? SERPAPI_CACHE_TTL_HOURS (cfg E) then Some response else None.
Proof. apply cache_store_lookup_same. Qed.

Lemma cache_store_then_lookup_witness :
  NO_CACHE (cfg Sample.env_cache) = false /\
  _cache_lookup Sample.env_cache Sample.one_way_params
    (_cache_store Sample.env_cache Sample.one_way_params (Sample.response [Sample.g_delta] [])
       (Sample.world 0 ∅))
  = Some (Sample.response [Sample.g_delta] []).
Proof.
  split; [reflexivity|].
  exact (cache_store_then_lookup Sample.env_cache Sample.one_way_params
           (Sample.response [Sample.g_delta] []) (Sample.world 0 ∅) eq_refl).
Defined.

(** X7. What a store leaves in the cache file. With the cache on, after
    [_cache_store] the file holds exactly the entries younger than the TTL
    among the new entry and the old entries under other keys: every entry
    as old as the TTL or older is gone, whatever its key, and the younger
    entries of other requests are untouched. *)
Theorem cache_store_prunes (E : Env) (params : Params) (response : Response) (w : World)
    (k : string) (e : CacheEntry) :
  NO_CACHE (cfg E) = false ->
  cache_file (_cache_store E params response w) !! k = Some e <->
  (age_seconds E e < ttl_seconds E)%Q /\
  (if decide (k = _cache_key E params)
   then e = {| ce_timestamp := now E; ce_response := response |}
   else cache_file w !! k = Some e).
Proof. apply cache_store_lookup_key. Qed.

Lemma cache_store_prunes_witness :
  NO_CACHE (cfg Sample.env_cache) = false /\
  cache_file (_cache_store Sample.env_cache [("type", "2")] (Sample.response [] [])
                (Sample.world 0 Sample.cache_one_way))
    !! _cache_key Sample.env_cache Sample.one_way_params = Some Sample.fresh_entry.
Proof.
  split; [reflexivity|].
  apply (proj2 (cache_store_prunes Sample.env_cache [("type", "2")] (Sample.response [] [])
                  (Sample.world 0 Sample.cache_one_way)
                  (_cache_key Sample.env_cache Sample.one_way_params) Sample.fresh_entry
                  eq_refl)).
  split; [reflexivity|]. vm_compute. reflexivity.
Defined.



Lemma increment_usage_times_S (E : Env) (n : nat) (w : World) :
  increment_usage_times E (S n) w = (_increment_usage E (increment_usage_times E n w)).2.
Proof. reflexivity. Qed.

(** X9. The usage counter over a month change. When the usage file is
    missing, or holds another month than the current one, the counter reads
    0 whatever the file says, and after [n + 1] counted requests the file
    holds the current month with the count [n + 1]: the old count is
    forgotten, not carried over. *)
Theorem usage_counter_rollover (E : Env) (w : World) (n : nat) :
  (forall data, usage_file w = Some data -> month data <> today_month E) ->
  get_monthly_usage E w = 0 /\
  usage_file (increment_usage_times E (S n) w)
  = Some {| month := today_month E; count := Z.of_nat (S n) |}.
Proof.
  intros Hold.
  assert (H0 : get_monthly_usage E w = 0).
  { unfold get_monthly_usage, _load_usage. destruct (usage_file w) as [data|]; [|done].
    specialize (Hold data eq_refl). apply String.eqb_neq in Hold. by rewrite Hold. }
  split; [exact H0|].
  assert (Hn : forall m, get_monthly_usage E (increment_usage_times E m w) = Z.of_nat m).
  { induction m as [|m IH]; [exact H0|].
    rewrite increment_usage_times_S, increment_usage_count, IH. lia. }
  rewrite increment_usage_times_S. unfold _increment_usage at 1. cbn [snd _save_usage with_usage usage_file].
  rewrite load_usage_month. f_equal. f_equal.
  specialize (Hn n). unfold get_monthly_usage in Hn. rewrite Hn. lia.
Qed.

Lemma usage_counter_rollover_witness :
  let w := {| usage_file := Some {| month := "2026-02"; count := 249 |};
              cache_file := ∅; api_log := []; sleeps := 0 |} in
  get_monthly_usage Sample.env_cache w = 0 /\
  usage_file (increment_usage_times Sample.env_cache 3 w)
  = Some {| month := "2026-03"; count := 3 |}.
Proof.
  intros w. apply (usage_counter_rollover Sample.env_cache w 2).
  intros data [= <-]. discriminate.
Defined.



(** X11. A search that fails is neither counted nor cached. When the request
    of a combination is sent (quota not reached, cache miss) and raises or
    comes back with an error, [fetch_combination] leaves the usage file and
    the cache file as they were, the request being the only trace, and
    returns the empty dict, or the fatal-error sentinel when the error names
    an invalid API key. *)
Theorem failed_search_not_counted (E : Env) (combo : SearchCombination) (index total : Z)
    (w : World) :
  quota_reached E w = false ->
  _cache_lookup E (_build_params E combo) w = None ->
  match serp E (api_log w) (_build_params E combo) with
  | ApiRaises => True
  | ApiReturns results => has_error results = true
  end ->
  let out := fetch_combination E combo index total w in
  usage_file out.2 = usage_file w /\
  cache_file out.2 = cache_file w /\
  api_log out.2 = api_log w ++ [_build_params E combo] /\
  (out.1 = RawEmpty \/ exists error, out.1 = RawFatal error /\ is_invalid_key error = true).
Proof.
  intros Hq Hmiss Hfail out. subst out. unfold fetch_combination, api_call.
  rewrite Hq, Hmiss.
  destruct (serp E (api_log w) (_build_params E combo)) as [|results];
    [by repeat split; try left|].
  rewrite Hfail. destruct (is_invalid_key _) eqn:Hkey; [|by repeat split; try left].
  repeat split. right. by eexists.
Qed.

Lemma failed_search_not_counted_witness :
  let out := fetch_combination Sample.env_bad_key Sample.round_trip_combo 1 1
               (Sample.world 7 Sample.cache_legs) in
  usage_file out.2 = Some {| month := "2026-03"; count := 7 |} /\
  cache_file out.2 = Sample.cache_legs /\
  api_log out.2 = [_build_params Sample.env_bad_key Sample.round_trip_combo] /\
  (out.1 = RawEmpty \/ exists error, out.1 = RawFatal error /\ is_invalid_key error = true).
Proof.
  apply (failed_search_not_counted Sample.env_bad_key Sample.round_trip_combo 1 1
           (Sample.world 7 Sample.cache_legs)); vm_compute; reflexivity.
Defined.

(** ** The return legs *)

Lemma enrich_group_enriched (E : Env) (params : Params) (group : FlightGroup) (w : World) :
  enriched group (enrich_group E params group w).1.
Proof.
  unfold enrich_group, enriched.
  destruct (grp_departure_token group) as [token|] eqn:Htoken; [|by left].
  destruct (PyStr.truthy token) eqn:Ht; cbn [negb]; [|by left].
  destruct (_lookup_return_group E params token w) as [[rg|] w1]; [|by left].
  right. split; [exact Ht|]. by exists rg.
Qed.

Lemma enrich_groups_enriched (E : Env) (params : Params) (groups : list FlightGroup) :
  forall w, Forall2 enriched groups (enrich_groups E params groups w).1.
Proof.
  induction groups as [|g gs IH]; intros w; cbn [enrich_groups]; [constructor|].
  pose proof (enrich_group_enriched E params g w) as Hg.
  destruct (enrich_group E params g w) as [g' w1].
  specialize (IH w1). destruct (enrich_groups E params gs w1) as [gs' w2].
  by constructor.
Qed.

Lemma skipn_after_firstn {A} (n : nat) (top gs : list A) :
  length top = length (firstn n gs) -> skipn n (top ++ skipn n gs) = skipn n gs.
Proof.
  rewrite length_take. intros Hlen.
  destruct (decide (n <= length gs)%nat) as [Hle|Hgt].
  - rewrite drop_app_length'; [done|lia].
  - rewrite (drop_ge gs) by lia. rewrite app_nil_r. apply drop_ge. lia.
Qed.

Lemma enriched_refl (groups : list FlightGroup) : Forall2 enriched groups groups.
Proof. induction groups; constructor; [by left|done]. Qed.

(** X12. What the enrichment of return legs may change. [_enrich_return_legs]
    returns the response with as many best and other groups as before, in
    the same order, each one either untouched or, if it carries a
    continuation token, with the five return fields of a return group
    attached; the groups after the fifth are untouched, and no group changes
    its outbound segments, layovers, price, duration or token. *)
Theorem enrich_return_legs_shape (E : Env) (results : Response) (params : Params)
    (combo : SearchCombination) (w : World) :
  let out := (_enrich_return_legs E results params combo w).1 in
  resp_error out = resp_error results /\
  length (best_flights out) = length (best_flights results) /\
  length (other_flights out) = length (other_flights results) /\
  Forall2 enriched (all_groups results) (all_groups out) /\
  skipn 5 (all_groups out) = skipn 5 (all_groups results) /\
  Forall2 (fun g g' => grp_flights g' = grp_flights g /\
                       grp_layovers g' = grp_layovers g /\
                       grp_price g' = grp_price g /\
                       grp_total_duration g' = grp_total_duration g /\
                       grp_departure_token g' = grp_departure_token g)
          (all_groups results) (all_groups out).
Proof.
  intros out. subst out. unfold _enrich_return_legs.
  pose proof (enrich_groups_enriched E params (firstn 5 (all_groups results)) w) as Htop.
  destruct (enrich_groups E params (firstn 5 (all_groups results)) w) as [top w1].
  cbn [fst] in *. cbn [resp_error best_flights other_flights].
  set (gs := all_groups results) in *.
  set (gs' := top ++ skipn 5 gs).
  assert (Hall : Forall2 enriched gs gs').
  { rewrite <- (firstn_skipn 5 gs) at 1. apply Forall2_app; [exact Htop|apply enriched_refl]. }
  assert (Hlen : length gs' = length gs) by (symmetry; by eapply Forall2_length).
  assert (Hout : all_groups {| resp_error := resp_error results;
                               best_flights := firstn (length (best_flights results)) gs';
                               other_flights := skipn (length (best_flights results)) gs' |}
                 = gs').
  { unfold all_groups. cbn [best_flights other_flights]. apply firstn_skipn. }
  assert (Hgs : length gs = (length (best_flights results)
                             + length (other_flights results))%nat).
  { subst gs. unfold all_groups. by rewrite length_app. }
  rewrite Hout. split; [reflexivity|].
  split; [rewrite length_take; lia|]. split; [rewrite length_drop; lia|].
  split; [exact Hall|]. split.
  - subst gs'. apply skipn_after_firstn. symmetry. by eapply Forall2_length.
  - eapply Forall2_impl; [exact Hall|]. cbn beta.
    intros g g' [->|(_ & rg & ->)]; by repeat split.
Qed.

(** ** A whole batch *)

Lemma steps_none (E : Env) (n : nat) (w : World) : steps E n 0 w w.
Proof. apply (steps_weaken E 0); [constructor|lia]. Qed.

Lemma steps_then (E : Env) (n1 n2 n k1 k2 k : nat) (w1 w2 w3 : World) :
  steps E n1 k1 w1 w2 -> steps E n2 k2 w2 w3 ->
  (n1 + n2 <= n)%nat -> k = (k1 + k2)%nat -> steps E n k w1 w3.
Proof.
  intros H1 H2 Hn ->. eapply steps_weaken; [|exact Hn]. by eapply steps_trans.
Qed.

Lemma lookup_return_group_steps (E : Env) (base_params : Params) (token : string) (w : World) :
  steps E 1 0 w (_lookup_return_group E base_params token w).2.
Proof.
  unfold _lookup_return_group.
  destruct (_cache_lookup E _ w); [apply steps_none|].
  destruct (quota_reached E w) eqn:Hq; [apply steps_none|].
  unfold api_call. destruct (serp E _ _) as [|results]; [apply steps_uncounted|].
  destruct (has_error results); [apply steps_uncounted|].
  destruct (all_groups results); [apply steps_uncounted|].
  by apply steps_counted.
Qed.

Lemma fetch_one_way_groups_steps (E : Env) (params : Params) (w : World) :
  steps E 1 0 w (_fetch_one_way_groups E params w).2.
Proof.
  unfold _fetch_one_way_groups.
  destruct (_cache_lookup E _ w); [apply steps_none|].
  destruct (quota_reached E w) eqn:Hq; [apply steps_none|].
  unfold api_call. destruct (serp E _ _) as [|results]; [apply steps_uncounted|].
  destruct (has_error results); [apply steps_uncounted|].
  destruct (all_groups results); [apply steps_uncounted|].
  by apply steps_counted.
Qed.

Lemma enrich_group_steps (E : Env) (params : Params) (group : FlightGroup) (w : World) :
  steps E 1 0 w (enrich_group E params group w).2.
Proof.
  unfold enrich_group. destruct (grp_departure_token group) as [token|]; [|apply steps_none].
  destruct (negb (PyStr.truthy token)); [apply steps_none|].
  pose proof (lookup_return_group_steps E params token w) as H.
  by destruct (_lookup_return_group E params token w) as [[g|] w'].
Qed.

Lemma enrich_groups_steps (E : Env) (params : Params) (groups : list FlightGroup) (w : World) :
  steps E (length groups) 0 w (enrich_groups E params groups w).2.
Proof.
  revert w. induction groups as [|g gs IH]; intros w; [apply steps_none|].
  cbn [enrich_groups].
  pose proof (enrich_group_steps E params g w) as H1.
  destruct (enrich_group E params g w) as [g' w1]. cbn [snd] in H1.
  pose proof (IH w1) as H2.
  destruct (enrich_groups E params gs w1) as [gs' w2]. cbn [snd] in *.
  eapply steps_then; [exact H1|exact H2|simpl; lia|reflexivity].
Qed.

Lemma enrich_return_legs_steps (E : Env) (results : Response) (params : Params)
    (combo : SearchCombination) (w : World) :
  steps E 5 0 w (_enrich_return_legs E results params combo w).2.
Proof.
  unfold _enrich_return_legs.
  pose proof (enrich_groups_steps E params (firstn 5 (all_groups results)) w) as H.
  destruct (enrich_groups E params _ w) as [top w1]. cbn [snd] in *.
  eapply steps_weaken; [exact H|]. rewrite length_take. lia.
Qed.

Lemma fetch_combination_steps (E : Env) (combo : SearchCombination) (index total : Z)
    (w : World) :
  steps E 6 0 w (fetch_combination E combo index total w).2.
Proof.
  unfold fetch_combination.
  destruct (quota_reached E w) eqn:Hq; [apply steps_none|].
  destruct (_cache_lookup E _ w) as [cached|].
  { destruct (is_round_trip combo); [|apply steps_none].
    pose proof (enrich_return_legs_steps E cached (_build_params E combo) combo w) as H.
    destruct (_enrich_return_legs E cached _ combo w) as [c w1].
    eapply steps_weaken; [exact H|lia]. }
  unfold api_call. destruct (serp E _ _) as [|results];
    [eapply steps_weaken; [apply steps_uncounted|lia]|].
  destruct (has_error results).
  { destruct (is_invalid_key _); (eapply steps_weaken; [apply steps_uncounted|lia]). }
  pose proof (steps_counted E (_build_params E combo) results w Hq) as H1.
  destruct (_increment_usage E (log_request _ w)) as [c w1]. cbn [snd] in H1.
  destruct (is_round_trip combo); [|eapply steps_weaken; [exact H1|lia]].
  pose proof (enrich_return_legs_steps E results (_build_params E combo) combo
                (_cache_store E (_build_params E combo) results w1)) as H2.
  destruct (_enrich_return_legs E results _ combo _) as [r w2]. cbn [snd] in *.
  eapply steps_then; [exact H1|exact H2|lia|reflexivity].
Qed.

Lemma fetch_independent_steps (E : Env) (combo : SearchCombination) (base : Params)
    (w : World) :
  steps E 2 0 w (fetch_independent E combo base w).2.
Proof.
  unfold fetch_independent.
  pose proof (fetch_one_way_groups_steps E (one_way_outbound_params base) w) as H1.
  destruct (_fetch_one_way_groups E (one_way_outbound_params base) w) as [og w1].
  pose proof (fetch_one_way_groups_steps E (one_way_return_params combo base) w1) as H2.
  destruct (_fetch_one_way_groups E (one_way_return_params combo base) w1) as [rg w2].
  cbn [snd] in *. eapply steps_then; [exact H1|exact H2|lia|reflexivity].
Qed.


Lemma after_combination_steps (E : Env) (total i : Z) (combo : SearchCombination)
    (results : list Raw) (w : World) :
  steps E 2 (if i <? total then 1 else 0) w (after_combination E total i combo results w).2 /\
  length (after_combination E total i combo results w).1
  = (length results + (if is_round_trip combo then 1 else 0))%nat.
Proof.
  unfold after_combination.
  assert (Hs : forall w1, steps E 0 (if i <? total then 1 else 0) w1
                            (if i <? total then sleep w1 else w1)).
  { intros w1. destruct (i <? total); constructor. }
  destruct (is_round_trip combo).
  - pose proof (fetch_independent_steps E combo (independent_base E combo) w) as H.
    destruct (fetch_independent E combo _ w) as [unit w1]. cbn [fst snd] in *. split.
    + eapply steps_then; [exact H|apply Hs|lia|reflexivity].
    + rewrite length_app. reflexivity.
  - cbn [fst snd]. split; [|lia]. eapply steps_weaken; [apply Hs|lia].
Qed.

(** The main loop, whatever happens: eight requests per combination at most. *)
Lemma fetch_loop_steps (E : Env) (total : Z) (combinations : list SearchCombination) :
  forall (i : Z) (results : list Raw) (w : World),
    exists k, steps E (8 * length combinations) k w
                (fetch_loop E total i combinations results w).2.
Proof.
  induction combinations as [|combo rest IH]; intros i results w.
  { exists 0%nat. apply steps_none. }
  cbn [fetch_loop].
  pose proof (fetch_combination_steps E combo i total w) as H1.
  destruct (fetch_combination E combo i total w) as [raw w1]. cbn [snd] in H1.
  destruct (is_fatal raw).
  { exists 0%nat. eapply steps_weaken; [exact H1|simpl; lia]. }
  pose proof (after_combination_steps E total i combo (results ++ [raw]) w1) as [H2 _].
  destruct (after_combination E total i combo (results ++ [raw]) w1) as [results' w2].
  cbn [snd] in H2.
  destruct (IH (i + 1) results' w2) as [k H3].
  eexists. eapply steps_then; [eapply steps_trans; [exact H1|exact H2]|exact H3| |reflexivity].
  simpl. lia.
Qed.


(** *** What the steps keep *)

Lemma steps_sleeps (E : Env) (n k : nat) (w w' : World) :
  steps E n k w w' -> sleeps w' = (sleeps w + k)%nat.
Proof.
  induction 1 as [w|w|p w|p r w Hq|n1 k1 n2 k2 w1 w2 w3 _ IH1 _ IH2|n m k w w' _ IH Hn];
    cbn [sleeps sleep log_request]; try lia.
  rewrite (proj2 (proj2 (cache_store_frame _ _ _ _))). simpl. lia.
Qed.

Lemma steps_requests (E : Env) (n k : nat) (w w' : World) :
  steps E n k w w' ->
  exists calls,
    api_log w' = api_log w ++ calls /\ (length calls <= n)%nat /\
    get_monthly_usage E w <= get_monthly_usage E w'
      <= get_monthly_usage E w + Z.of_nat (length calls).
Proof.
  induction 1 as [w|w|p w|p r w Hq|n1 k1 n2 k2 w1 w2 w3 _ IH1 _ IH2|n m k w w' _ IH Hn].
  - exists []. rewrite app_nil_r. simpl. repeat split; lia.
  - exists []. rewrite app_nil_r. simpl.
    change (get_monthly_usage E (sleep w)) with (get_monthly_usage E w). repeat split; lia.
  - exists [p]. simpl.
    change (get_monthly_usage E (log_request p w)) with (get_monthly_usage E w).
    repeat split; lia.
  - exists [p]. rewrite store_after_increment_usage.
    change (get_monthly_usage E (log_request p w)) with (get_monthly_usage E w).
    rewrite (proj1 (proj2 (cache_store_frame _ _ _ _))). simpl. repeat split; lia.
  - destruct IH1 as (c1 & He1 & Hl1 & Hu1), IH2 as (c2 & He2 & Hl2 & Hu2).
    exists (c1 ++ c2). rewrite He2, He1, <- app_assoc, length_app. repeat split; lia.
  - destruct IH as (c & He & Hl & Hu). exists c. repeat split; [done|lia..].
Qed.

Lemma steps_quota (E : Env) (n k : nat) (w w' : World) :
  steps E n k w w' ->
  get_monthly_usage E w'
  <= Z.max (get_monthly_usage E w) (SERPAPI_MONTHLY_LIMIT (cfg E)).
Proof.
  induction 1 as [w|w|p w|p r w Hq|n1 k1 n2 k2 w1 w2 w3 _ IH1 _ IH2|n m k w w' _ IH Hn];
    try lia.
  - change (get_monthly_usage E (sleep w)) with (get_monthly_usage E w). lia.
  - change (get_monthly_usage E (log_request p w)) with (get_monthly_usage E w). lia.
  - rewrite store_after_increment_usage.
    change (get_monthly_usage E (log_request p w)) with (get_monthly_usage E w).
    unfold quota_reached in Hq. apply Z.leb_gt in Hq. unfold get_monthly_usage. lia.
Qed.

Lemma steps_cache_off (E : Env) (n k : nat) (w w' : World) :
  NO_CACHE (cfg E) = true -> steps E n k w w' -> cache_file w' = cache_file w.
Proof.
  intros Hoff.
  induction 1 as [w|w|p w|p r w Hq|n1 k1 n2 k2 w1 w2 w3 _ IH1 _ IH2|n m k w w' _ IH Hn];
    try done.
  - unfold _cache_store. by rewrite Hoff.
  - congruence.
Qed.

(** The main loop when no fatal error comes back: one pause between two
    combinations, and one more entry for every round trip. *)
Lemma fetch_loop_through (E : Env) (total : Z) (combinations : list SearchCombination) :
  forall (i : Z) (results : list Raw) (w : World),
    i + Z.of_nat (length combinations) = total + 1 ->
    Forall (fun raw => is_fatal raw = false)
           (fetch_loop E total i combinations results w).1 ->
    sleeps (fetch_loop E total i combinations results w).2
    = (sleeps w + (length combinations - 1))%nat /\
    length (fetch_loop E total i combinations results w).1
    = (length results + length combinations
       + length (List.filter is_round_trip combinations))%nat.
Proof.
  induction combinations as [|combo rest IH]; intros i results w Hi Hnf.
  { simpl. lia. }
  cbn [fetch_loop] in *.
  pose proof (steps_sleeps _ _ _ _ _ (fetch_combination_steps E combo i total w)) as H1.
  destruct (fetch_combination E combo i total w) as [raw w1]. cbn [snd] in H1.
  destruct (is_fatal raw) eqn:Hf.
  { cbn [fst] in Hnf. apply Forall_app in Hnf as [_ Hraw].
    inversion Hraw as [|? ? Hr _]. simpl in Hr. congruence. }
  pose proof (after_combination_steps E total i combo (results ++ [raw]) w1) as [H2 H3].
  apply steps_sleeps in H2.
  destruct (after_combination E total i combo (results ++ [raw]) w1) as [results' w2].
  cbn [fst snd] in *.
  destruct (IH (i + 1) results' w2) as [H4 H5]; [simpl in Hi; lia|exact Hnf|].
  rewrite H4, H5, H2, H1, H3, length_app. cbn [length List.filter].
  split.
  - destruct rest; simpl in *; destruct (Z.ltb_spec i total); lia.
  - destruct (is_round_trip combo); simpl; lia.
Qed.

Lemma dual_route_steps (E : Env) (combo : SearchCombination) (afs : list PostFilter) :
  forall (results : list Raw) (w : World),
    steps E (2 * length afs) 0 w (dual_route E combo afs results w).2 /\
    length (dual_route E combo afs results w).1 = (length results + length afs)%nat.
Proof.
  unfold dual_route. induction afs as [|af afs IH]; intros results w.
  { split; [apply steps_none|simpl; lia]. }
  cbn [fold_left].
  pose proof (fetch_independent_steps E combo (dual_base E combo af) w) as H1.
  destruct (fetch_independent E combo (dual_base E combo af) w) as [unit w1].
  cbn [snd] in H1. destruct (IH (results ++ [unit]) w1) as [H2 H3]. split.
  - eapply steps_then; [exact H1|exact H2|simpl; lia|reflexivity].
  - rewrite H3, length_app. simpl. lia.
Qed.

Lemma round_trip_routes_skip (combo : SearchCombination) (rest : list SearchCombination)
    (seen : gset string) :
  bool_decide (route_key combo ∈ seen) || negb (is_round_trip combo) = true ->
  round_trip_routes (combo :: rest) ∖ seen = round_trip_routes rest ∖ seen.
Proof.
  intros H. unfold round_trip_routes. cbn [List.filter].
  destruct (is_round_trip combo); [|reflexivity].
  rewrite orb_false_r in H. apply bool_decide_eq_true_1 in H.
  rewrite fmap_cons, list_to_set_cons. apply leibniz_equiv, set_equiv. intros k.
  rewrite !elem_of_difference, elem_of_union, elem_of_singleton.
  destruct (decide (k = route_key combo)) as [->|]; tauto.
Qed.

Lemma round_trip_routes_new (combo : SearchCombination) (rest : list SearchCombination)
    (seen : gset string) :
  bool_decide (route_key combo ∈ seen) || negb (is_round_trip combo) = false ->
  size (round_trip_routes (combo :: rest) ∖ seen)
  = S (size (round_trip_routes rest ∖ ({[route_key combo]} ∪ seen))).
Proof.
  intros H. apply orb_false_iff in H as [Hk Hr].
  apply bool_decide_eq_false_1 in Hk. apply negb_false_iff in Hr.
  unfold round_trip_routes. cbn [List.filter]. rewrite Hr, fmap_cons, list_to_set_cons.
  set (S := list_to_set (route_key <$> List.filter is_round_trip rest) : gset string).
  replace (({[route_key combo]} ∪ S) ∖ seen)
    with ({[route_key combo]} ∪ S ∖ ({[route_key combo]} ∪ seen)).
  - rewrite size_union, size_singleton; [reflexivity|].
    apply disjoint_singleton_l.
    rewrite elem_of_difference, elem_of_union, elem_of_singleton. tauto.
  - apply leibniz_equiv, set_equiv. intros k.
    rewrite !elem_of_union, !elem_of_difference, !elem_of_union, !elem_of_singleton.
    destruct (decide (k = route_key combo)) as [->|]; tauto.
Qed.

(** The dual fetch: every distinct route of a round trip is searched once,
    with one unit per airline filter and one pause. *)
Lemma dual_loop_steps (E : Env) (afs : list PostFilter) (combinations : list SearchCombination) :
  forall (seen : gset string) (results : list Raw) (w : World),
    steps E (length combinations * (2 * length afs))
          (size (round_trip_routes combinations ∖ seen)) w
          (dual_loop E afs combinations seen results w).2 /\
    length (dual_loop E afs combinations seen results w).1
    = (length results + length afs * size (round_trip_routes combinations ∖ seen))%nat.
Proof.
  induction combinations as [|combo rest IH]; intros seen results w.
  { replace (round_trip_routes [] ∖ seen) with (∅ : gset string).
    - rewrite size_empty. split; [apply steps_none|simpl; lia].
    - apply leibniz_equiv, set_equiv. intros k. unfold round_trip_routes. simpl.
      rewrite elem_of_difference, elem_of_empty. tauto. }
  cbn [dual_loop].
  destruct (bool_decide (route_key combo ∈ seen) || negb (is_round_trip combo)) eqn:Hskip.
  - rewrite round_trip_routes_skip by exact Hskip.
    destruct (IH seen results w) as [H1 H2]. split; [|exact H2].
    eapply steps_weaken; [exact H1|simpl; lia].
  - rewrite round_trip_routes_new by exact Hskip.
    destruct (dual_route_steps E combo afs results w) as [H1 H2].
    destruct (dual_route E combo afs results w) as [results1 w1]. cbn [fst snd] in *.
    destruct (IH ({[route_key combo]} ∪ seen) results1 (sleep w1)) as [H3 H4]. split.
    + eapply steps_then;
        [eapply steps_trans; [exact H1|apply steps_sleep]|exact H3|simpl; lia|lia].
    + rewrite H4, H2. lia.
Qed.

Lemma fetch_all_steps (E : Env) (combinations : list SearchCombination)
    (post_filters : list PostFilter) (w : World) :
  exists k,
    steps E (length combinations * (8 + 2 * length (airline_filters_of post_filters))) k w
          (fetch_all E combinations post_filters w).2.
Proof.
  unfold fetch_all. fold (airline_filters_of post_filters).
  destruct (fetch_loop_steps E (Z.of_nat (length combinations)) combinations 1 [] w)
    as [k1 H1].
  destruct (fetch_loop E _ 1 combinations [] w) as [results w1]. cbn [snd] in H1.
  destruct (airline_filters_of post_filters) as [|af afs] eqn:Hafs.
  { exists k1. eapply steps_weaken; [exact H1|lia]. }
  destruct combinations as [|c cs] eqn:Hcs.
  { exists k1. eapply steps_weaken; [exact H1|lia]. }
  rewrite <- Hcs in *.
  destruct (dual_loop_steps E (af :: afs) combinations ∅ results w1) as [H2 _].
  eexists. eapply steps_then; [exact H1|exact H2| |reflexivity]. lia.
Qed.

(** X13. A batch never takes the usage counter past the monthly limit: after
    [fetch_all] the counter is at most the larger of its value before and the
    limit. So a counter that starts at or under the limit stays there, and
    one that starts over it does not grow. *)
Theorem fetch_all_keeps_quota (E : Env) (combinations : list SearchCombination)
    (post_filters : list PostFilter) (w : World) :
  get_monthly_usage E (fetch_all E combinations post_filters w).2
  <= Z.max (get_monthly_usage E w) (SERPAPI_MONTHLY_LIMIT (cfg E)).
Proof.
  destruct (fetch_all_steps E combinations post_filters w) as [k H].
  exact (steps_quota _ _ _ _ _ H).
Qed.

(** X14. The requests of a batch: [fetch_all] only appends to the log of
    requests sent, it sends at most eight requests per combination (the
    search, five return-leg lookups, two one-way legs) plus two per
    combination and airline filter, and the usage counter never falls and
    rises by at most one per request sent. *)
Theorem fetch_all_request_accounting (E : Env) (combinations : list SearchCombination)
    (post_filters : list PostFilter) (w : World) :
  let w' := (fetch_all E combinations post_filters w).2 in
  exists calls,
    api_log w' = api_log w ++ calls /\
    (length calls
     <= length combinations * (8 + 2 * length (airline_filters_of post_filters)))%nat /\
    get_monthly_usage E w <= get_monthly_usage E w'
      <= get_monthly_usage E w + Z.of_nat (length calls).
Proof.
  destruct (fetch_all_steps E combinations post_filters w) as [k H].
  exact (steps_requests _ _ _ _ _ H).
Qed.

(** X15. With the cache switched off ([config.NO_CACHE]), a batch leaves the
    cache file exactly as it was. *)
Theorem fetch_all_cache_off (E : Env) (combinations : list SearchCombination)
    (post_filters : list PostFilter) (w : World) :
  NO_CACHE (cfg E) = true ->
  cache_file (fetch_all E combinations post_filters w).2 = cache_file w.
Proof.
  intros Hoff. destruct (fetch_all_steps E combinations post_filters w) as [k H].
  exact (steps_cache_off _ _ _ _ _ Hoff H).
Qed.

Lemma fetch_all_cache_off_witness :
  NO_CACHE (cfg Sample.env_no_cache) = true /\
  cache_file (fetch_all Sample.env_no_cache [Sample.round_trip_combo]
                [airline_filter "delta" any] (Sample.world 0 Sample.cache_one_way)).2
  = Sample.cache_one_way.
Proof.
  split; [reflexivity|].
  exact (fetch_all_cache_off Sample.env_no_cache [Sample.round_trip_combo]
           [airline_filter "delta" any] (Sample.world 0 Sample.cache_one_way) eq_refl).
Defined.

(** X16. A batch in which no fatal error comes back: the result list holds
    one entry per combination, one independent-pair unit per round trip and,
    when there are airline filters, one unit per filter and distinct
    round-trip route; the loop pauses between two combinations and once
    after every distinct route of the dual fetch. *)
Theorem fetch_all_without_fatal (E : Env) (combinations : list SearchCombination)
    (post_filters : list PostFilter) (w : World) :
  Forall (fun raw => is_fatal raw = false) (fetch_all E combinations post_filters w).1 ->
  let afs := airline_filters_of post_filters in
  let routes := size (round_trip_routes combinations) in
  length (fetch_all E combinations post_filters w).1
  = (length combinations + length (List.filter is_round_trip combinations)
     + length afs * routes)%nat /\
  sleeps (fetch_all E combinations post_filters w).2
  = (sleeps w + (length combinations - 1)
     + match afs with [] => 0 | _ :: _ => routes end)%nat.
Proof.
  intros Hnf afs routes. subst afs routes.
  unfold fetch_all in *. fold (airline_filters_of post_filters) in *.
  pose proof (fetch_loop_through E (Z.of_nat (length combinations)) combinations 1 [] w)
    as Hmain.
  destruct (fetch_loop E _ 1 combinations [] w) as [results w1]. cbn [fst snd] in Hmain.
  destruct (airline_filters_of post_filters) as [|af afs] eqn:Hafs.
  { destruct Hmain as [H1 H2]; [lia|exact Hnf|]. cbn [fst snd]. simpl in *. lia. }
  destruct combinations as [|c cs] eqn:Hcs.
  { destruct Hmain as [H1 H2]; [simpl; lia|exact Hnf|]. cbn [fst snd].
    change (round_trip_routes []) with (∅ : gset string).
    rewrite size_empty. simpl in *. lia. }
  rewrite <- Hcs in *.
  destruct (dual_loop_steps E (af :: afs) combinations ∅ results w1) as [H3 H4].
  apply steps_sleeps in H3.
  destruct (dual_loop_appends E (af :: afs) combinations ∅ results w1) as (extra & w2 & Hd).
  rewrite Hd in *. cbn [fst snd] in *.
  apply Forall_app in Hnf as [Hnf _].
  destruct Hmain as [H1 H2]; [lia|exact Hnf|].
  rewrite difference_empty_L in H3, H4.
  rewrite H4, H3, H2, H1. simpl. lia.
Qed.

Lemma fetch_all_without_fatal_witness :
  let cs := [Sample.round_trip_combo; Sample.one_way_combo; Sample.round_trip_combo] in
  let pfs := [airline_filter "delta" any] in
  let w := Sample.world 0 ∅ in
  Forall (fun raw => is_fatal raw = false) (fetch_all Sample.env_cache cs pfs w).1 /\
  length (fetch_all Sample.env_cache cs pfs w).1 = 6%nat /\
  sleeps (fetch_all Sample.env_cache cs pfs w).2 = 3%nat.
Proof.
  intros cs pfs w.
  assert (Hnf : Forall (fun raw => is_fatal raw = false)
                       (fetch_all Sample.env_cache cs pfs w).1).
  { vm_compute. repeat constructor. }
  split; [exact Hnf|].
  destruct (fetch_all_without_fatal Sample.env_cache cs pfs w Hnf) as [H1 H2].
  rewrite H1, H2. split; vm_compute; reflexivity.
Defined.

Lemma dual_route_units (E : Env) (combo : SearchCombination) (afs : list PostFilter) :
  forall results w,
    exists extra,
      (dual_route E combo afs results w).1 = results ++ extra /\
      Forall (fun raw => is_independent raw = true) extra.
Proof.
  unfold dual_route. induction afs as [|af afs IH]; intros results w; cbn [fold_left].
  { exists []. by rewrite app_nil_r. }
  unfold fetch_independent at 2.
  destruct (_fetch_one_way_groups E _ w) as [og w1].
  destruct (_fetch_one_way_groups E _ w1) as [rg w2].
  destruct (IH (results ++ [RawIndependent (combo_info combo) og rg]) w2)
    as (extra & -> & Hextra).
  exists (RawIndependent (combo_info combo) og rg :: extra).
  split; [by rewrite <- app_assoc|]. by constructor.
Qed.

Lemma dual_loop_units (E : Env) (afs : list PostFilter) (combinations : list SearchCombination) :
  forall seen results w,
    exists extra,
      (dual_loop E afs combinations seen results w).1 = results ++ extra /\
      Forall (fun raw => is_independent raw = true) extra.
Proof.
  induction combinations as [|combo rest IH]; intros seen results w; cbn [dual_loop].
  { exists []. by rewrite app_nil_r. }
  destruct (bool_decide (route_key combo ∈ seen) || negb (is_round_trip combo)); [apply IH|].
  destruct (dual_route_units E combo afs results w) as (extra1 & H1 & Hextra1).
  destruct (dual_route E combo afs results w) as [results1 w1]. cbn [fst] in H1. subst results1.
  destruct (IH ({[route_key combo]} ∪ seen) (results ++ extra1) (sleep w1))
    as (extra2 & -> & Hextra2).
  exists (extra1 ++ extra2). split; [by rewrite <- app_assoc|]. by apply Forall_app.
Qed.

(** X17. The dual fetch. Whatever the main loop of [fetch_all] returned, a
    fatal-error sentinel included, the dual fetch then appends to it one
    independent-pair unit per airline filter and distinct route of a round
    trip, and nothing else; without airline filter it appends nothing. *)
Theorem dual_fetch_units (E : Env) (combinations : list SearchCombination)
    (post_filters : list PostFilter) (w : World) :
  let main := fetch_loop E (Z.of_nat (length combinations)) 1 combinations [] w in
  exists extra,
    (fetch_all E combinations post_filters w).1 = main.1 ++ extra /\
    length extra
    = (length (airline_filters_of post_filters) * size (round_trip_routes combinations))%nat /\
    Forall (fun raw => is_independent raw = true) extra.
Proof.
  intros main. subst main. unfold fetch_all. fold (airline_filters_of post_filters).
  destruct (fetch_loop E _ 1 combinations [] w) as [results w1]. cbn [fst].
  destruct (airline_filters_of post_filters) as [|af afs] eqn:Hafs.
  { exists []. rewrite app_nil_r. by repeat split. }
  destruct combinations as [|c cs] eqn:Hcs.
  { exists []. rewrite app_nil_r. repeat split; [|done].
    change (round_trip_routes []) with (∅ : gset string). rewrite size_empty. simpl. lia. }
  rewrite <- Hcs.
  destruct (dual_loop_units E (af :: afs) combinations ∅ results w1) as (extra & Hd & Hextra).
  destruct (dual_loop_steps E (af :: afs) combinations ∅ results w1) as [_ Hlen].
  exists extra. split; [exact Hd|]. split; [|exact Hextra].
  rewrite Hd, length_app, difference_empty_L in Hlen. lia.
Qed.

(** * Further properties of result_processor.py *)

(** ** The lists of a flight group *)






(** ** More on deduplication *)

Lemma keep_first_disjoint (extra seen : gset string) (ys : list FlightResult) :
  (forall y, y ∈ ys -> dedup_key y ∉ extra) ->
  keep_first (extra ∪ seen) ys = keep_first seen ys.
Proof.
  revert seen. induction ys as [|y ys IH]; intros seen Hys; [reflexivity|].
  cbn [keep_first].
  assert (Hy : dedup_key y ∉ extra) by (apply Hys; by left).
  assert (IH' : forall seen, keep_first (extra ∪ seen) ys = keep_first seen ys).
  { intros seen'. apply IH. intros z Hz. apply Hys. by right. }
  destruct (decide (dedup_key y ∈ seen)) as [Hin|Hnin].
  - rewrite decide_True by (by apply elem_of_union_r). apply IH'.
  - rewrite decide_False by (rewrite elem_of_union; tauto). f_equal.
    rewrite <- (IH' ({[dedup_key y]} ∪ seen)). f_equal.
    apply leibniz_equiv, set_equiv. intros k. rewrite !elem_of_union. tauto.
Qed.

Lemma produced_app (L : PyLib) (rs rs' : list Raw) :
  produced L (rs ++ rs') = produced L rs ++ produced L rs'.
Proof. unfold produced. by rewrite map_app, concat_app. Qed.

(** X19. The normalizer works through the responses in order and never goes
    back: the result of a longer input starts with the result of the shorter
    one, followed by those later results whose key did not occur before. An
    empty response or a fatal-error sentinel, wherever it stands, adds
    nothing. *)
Theorem process_results_incremental (L : PyLib) (earlier later : list Raw) (msg : string) :
  process_results L (earlier ++ later)
  = process_results L earlier
    ++ keep_first (list_to_set (map dedup_key (produced L earlier))) (produced L later) /\
  process_results L (earlier ++ RawEmpty :: later) = process_results L (earlier ++ later) /\
  process_results L (earlier ++ RawFatal msg :: later) = process_results L (earlier ++ later).
Proof.
  rewrite !process_results_keep_first, !produced_app. split; [|done].
  rewrite keep_first_app. do 2 f_equal. apply leibniz_equiv, set_equiv. intros k.
  rewrite elem_of_union, elem_of_empty. tauto.
Qed.

Lemma dedup_key_head (r : FlightResult) (a : ascii) (ty : string) :
  itinerary_type r = String a ty -> exists rest, dedup_key r = String a rest.
Proof. intros H. unfold dedup_key. rewrite H. eexists. reflexivity. Qed.

Lemma produced_type (L : PyLib) (rs : list Raw) (r : FlightResult) :
  r ∈ produced L rs ->
  exists raw, raw ∈ rs /\
    itinerary_type r = if is_independent raw then "independent_one_way" else "round_trip".
Proof.
  unfold produced. intros Hr. apply (proj1 (list_elem_of_In _ _)) in Hr.
  apply in_concat in Hr as (l & Hl & Hrl). apply in_map_iff in Hl as (raw & <- & Hraw).
  exists raw. split; [by apply list_elem_of_In|].
  destruct raw as [|msg|resp|info og rg]; cbn [response_results is_independent] in *;
    try done.
  - apply list_elem_of_In, list_elem_of_omap in Hrl as (g & _ & Hg).
    by apply process_flight_group_Some in Hg as (_ & ? & _).
  - pose proof (build_independent_pairs_type og rg) as HF.
    rewrite Forall_forall in HF. apply HF, list_elem_of_In, Hrl.
Qed.

(** X20. Bundled and split-ticket itineraries never displace each other: the
    results of plain responses and the results of independent-pair units are
    deduplicated separately, whatever flights, times and prices they hold,
    in whichever order the two kinds come. *)
Theorem process_results_kinds_apart (L : PyLib) (plain units : list Raw) :
  Forall (fun raw => is_independent raw = false) plain ->
  Forall (fun raw => is_independent raw = true) units ->
  process_results L (plain ++ units) = process_results L plain ++ process_results L units /\
  process_results L (units ++ plain) = process_results L units ++ process_results L plain.
Proof.
  intros Hplain Hunits. rewrite Forall_forall in Hplain, Hunits.
  assert (Hapart : forall x y, x ∈ produced L plain -> y ∈ produced L units ->
                               dedup_key x <> dedup_key y).
  { intros x y (rx & Hrx & Hx)%produced_type (ry & Hry & Hy)%produced_type.
    rewrite (Hplain _ Hrx) in Hx. rewrite (Hunits _ Hry) in Hy.
    destruct (dedup_key_head _ _ _ Hx) as [kx ->], (dedup_key_head _ _ _ Hy) as [ky ->].
    discriminate. }
  rewrite !process_results_keep_first, !produced_app, !keep_first_app. split; f_equal.
  - apply keep_first_disjoint. intros y Hy Hin.
    apply elem_of_list_to_set, (list_elem_of_fmap dedup_key) in Hin as (x & Hk & Hx).
    by apply (Hapart x y).
  - apply keep_first_disjoint. intros x Hx Hin.
    apply elem_of_list_to_set, (list_elem_of_fmap dedup_key) in Hin as (y & Hk & Hy).
    by apply (Hapart x y).
Qed.

Lemma process_results_kinds_apart_witness :
  let plain := [RawResponse (Sample.response [Sample.g_frontier] [])] in
  let units := [RawIndependent (combo_info Sample.round_trip_combo)
                  [Sample.g_frontier] [Sample.g_back]] in
  process_results Sample.sample_lib (plain ++ units)
  = process_results Sample.sample_lib plain ++ process_results Sample.sample_lib units /\
  process_results Sample.sample_lib (units ++ plain)
  = process_results Sample.sample_lib units ++ process_results Sample.sample_lib plain.
Proof.
  intros plain units.
  apply (process_results_kinds_apart Sample.sample_lib plain units); repeat constructor.
Defined.

(** ** More on post-filters *)









Lemma apply_post_filter_sub (L : PyLib) (results : list FlightResult) (pf : PostFilter) :
  (length (apply_post_filter L results pf) <= length results)%nat /\
  forall r, r ∈ apply_post_filter L results pf ->
            exists r0, r0 ∈ results /\ (r = r0 \/ r = set_preferred r0).
Proof.
  unfold apply_post_filter. destruct (filter_type pf).
  - split.
    + rewrite length_app, length_map.
      pose proof (filter_length (fun r => _airline_matches r (PyStr.lower (value pf)) (leg pf))
                    results) as H.
      lia.
    + intros r [Hr|Hr]%elem_of_app.
      * apply (proj1 (list_elem_of_In _ _)), in_map_iff in Hr as (r0 & <- & Hr0).
        apply filter_In in Hr0 as [Hr0 _]. exists r0. split; [by apply list_elem_of_In|by right].
      * apply (proj1 (list_elem_of_In _ _)), filter_In in Hr as [Hr _].
        exists r. split; [by apply list_elem_of_In|by left].
  - destruct (fromisoformat L (value pf)) as [deadline|].
    + split; [apply filter_length_le|].
      intros r Hr. apply (proj1 (list_elem_of_In _ _)), filter_In in Hr as [Hr _].
      exists r. split; [by apply list_elem_of_In|by left].
    + split; [done|]. intros r Hr. exists r. split; [done|by left].
Qed.

Lemma apply_post_filters_origin (L : PyLib) (post_filters : list PostFilter) :
  forall results,
    Forall (fun r => exists r0, r0 ∈ results /\ (r = r0 \/ r = set_preferred r0))
           (apply_post_filters L results post_filters).
Proof.
  unfold apply_post_filters.
  induction post_filters as [|pf pfs IH]; intros results; cbn [fold_left].
  - apply Forall_forall. intros r Hr. exists r. split; [done|by left].
  - eapply Forall_impl; [apply IH|]. cbn beta. intros r (r1 & Hr1 & Hr).
    apply apply_post_filter_sub in Hr1 as (r0 & Hr0 & Hr1). exists r0. split; [done|].
    destruct Hr as [->| ->], Hr1 as [->| ->]; auto.
Qed.

(** X22. Post-filters never add a result and change nothing but the flag:
    what [apply_post_filters] returns is never longer than its input, and
    every result in it is a result of the input, possibly with [preferred]
    set. The airline filters alone drop nothing. *)
Theorem post_filters_never_add (L : PyLib) (results : list FlightResult)
    (post_filters : list PostFilter) :
  let out := apply_post_filters L results post_filters in
  (length out <= length results)%nat /\
  Forall (fun r => exists r0, r0 ∈ results /\ (r = r0 \/ r = set_preferred r0)) out /\
  length (apply_post_filters L results (airline_filters_of post_filters)) = length results.
Proof.
  split; [|split; [apply apply_post_filters_origin|]]; unfold apply_post_filters.
  - revert results. induction post_filters as [|pf pfs IH]; intros results; cbn [fold_left].
    + done.
    + etransitivity; [apply IH|]. apply apply_post_filter_sub.
  - revert results. induction post_filters as [|pf pfs IH]; intros results; [done|].
    unfold airline_filters_of in *. cbn [List.filter].
    destruct (filter_type pf) eqn:Hty; [|apply IH].
    cbn [fold_left]. rewrite IH. unfold apply_post_filter. rewrite Hty.
    rewrite length_app, length_map.
    pose proof (filter_length (fun r => _airline_matches r (PyStr.lower (value pf)) (leg pf))
                  results) as H.
    lia.
Qed.

(** ** Sorting *)

Lemma insert_sorted_Permutation {A K} (lt : K -> K -> bool) (key : A -> K) (x : A)
    (xs : list A) :
  Permutation (insert_sorted lt key x xs) (x :: xs).
Proof.
  induction xs as [|y xs IH]; cbn [insert_sorted]; [done|].
  destruct (lt (key y) (key x)); [|done].
  rewrite IH. apply perm_swap.
Qed.

Lemma sorted_by_Permutation {A K} (lt : K -> K -> bool) (key : A -> K) (xs : list A) :
  Permutation (sorted_by lt key xs) xs.
Proof.
  unfold sorted_by. induction xs as [|x xs IH]; cbn [fold_right]; [done|].
  rewrite insert_sorted_Permutation. by constructor.
Qed.

(** Sortedness, for an order [le] of which [lt] is the strict part. *)
Lemma sorted_by_StronglySorted {A K} (lt : K -> K -> bool) (le : K -> K -> Prop)
    (key : A -> K) (xs : list A) :
  Transitive le ->
  (forall a b, lt a b = true -> le a b) ->
  (forall a b, lt a b = false -> le b a) ->
  StronglySorted (fun x y => le (key x) (key y)) (sorted_by lt key xs).
Proof.
  intros Htrans Hlt Hnlt. unfold sorted_by.
  induction xs as [|x xs IH]; cbn [fold_right]; [constructor|].
  set (l := fold_right (insert_sorted lt key) [] xs) in *. clearbody l.
  induction IH as [|y l Hl IHl Hy]; cbn [insert_sorted]; [repeat constructor|].
  destruct (lt (key y) (key x)) eqn:Hyx.
  - constructor; [exact IHl|].
    apply Forall_forall. intros z Hz.
    rewrite (insert_sorted_Permutation lt key x l) in Hz.
    apply elem_of_cons in Hz as [->|Hz]; [by apply Hlt|].
    rewrite Forall_forall in Hy. by apply Hy.
  - constructor; [by constructor|].
    constructor; [by apply Hnlt|].
    eapply Forall_impl; [exact Hy|]. cbn beta. intros z Hz.
    etransitivity; [apply Hnlt, Hyx|exact Hz].
Qed.

(** Stability: among the elements with one key, the order is the input's. *)
Lemma sorted_by_stable {A K} `{EqDecision K} (lt : K -> K -> bool) (key : A -> K)
    (xs : list A) (k : K) :
  (forall a, lt a a = false) ->
  List.filter (fun x => bool_decide (key x = k)) (sorted_by lt key xs)
  = List.filter (fun x => bool_decide (key x = k)) xs.
Proof.
  intros Hirr. unfold sorted_by. induction xs as [|x xs IH]; cbn [fold_right]; [done|].
  set (l := fold_right (insert_sorted lt key) [] xs) in *.
  cbn [List.filter]. rewrite <- IH. clearbody l. clear IH.
  induction l as [|y l IHl]; cbn [insert_sorted List.filter]; [done|].
  destruct (lt (key y) (key x)) eqn:Hyx; [|done].
  cbn [List.filter]. rewrite IHl.
  destruct (decide (key x = k)) as [Hx|Hx], (decide (key y = k)) as [Hy|Hy].
  - rewrite Hx, Hy, Hirr in Hyx. discriminate.
  - by rewrite (bool_decide_eq_true_2 _ Hx), (bool_decide_eq_false_2 _ Hy).
  - by rewrite (bool_decide_eq_false_2 _ Hx).
  - by rewrite (bool_decide_eq_false_2 _ Hx).
Qed.

Lemma string_ltb_le (a b : string) : String.ltb a b = true -> String.le a b.
Proof.
  unfold String.ltb, String.le, String.leb. destruct (String.compare a b); done.
Qed.

Lemma string_nltb_le (a b : string) : String.ltb a b = false -> String.le b a.
Proof.
  unfold String.ltb, String.le, String.leb. rewrite (String.compare_antisym a b).
  destruct (String.compare b a); done.
Qed.

Lemma string_ltb_irrefl (a : string) : String.ltb a a = false.
Proof.
  unfold String.ltb. pose proof (String.compare_antisym a a) as H.
  destruct (String.compare a a); [done|discriminate|done].
Qed.

Lemma sort_results_spec (results : list FlightResult) (ranking_preference : string) :
  let out := sort_results results ranking_preference in
  let k := ranking_of ranking_preference in
  Permutation out results /\
  StronglySorted (ranked k) out /\
  forall r, List.filter (tied k r) out = List.filter (tied k r) results.
Proof.
  unfold sort_results, ranking_of.
  destruct (PyStr.contains "duration" _);
    [|destruct (_ || _); [|destruct (_ || _)]]; cbn zeta.
  - split; [apply sorted_by_Permutation|]. split.
    + apply (sorted_by_StronglySorted Z.ltb Z.le); [apply _|intros a b; lia..].
    + intros r. apply (sorted_by_stable Z.ltb duration_key). intros a. lia.
  - split; [apply sorted_by_Permutation|]. split.
    + apply (sorted_by_StronglySorted String.ltb String.le);
        [apply _|apply string_ltb_le|apply string_nltb_le].
    + intros r. apply (sorted_by_stable String.ltb depart_time), string_ltb_irrefl.
  - split; [apply sorted_by_Permutation|]. split.
    + apply (sorted_by_StronglySorted String.ltb String.le);
        [apply _|apply string_ltb_le|apply string_nltb_le].
    + intros r. apply (sorted_by_stable String.ltb arrive_time), string_ltb_irrefl.
  - split; [apply sorted_by_Permutation|]. split.
    + apply (sorted_by_StronglySorted Z.ltb Z.le); [apply _|intros a b; lia..].
    + intros r. apply (sorted_by_stable Z.ltb price_key). intros a. lia.
Qed.

(** X23. [sort_results] returns the same results in another order: sorted
    by the key that the preference text selects (total duration of both
    legs when the text contains "duration"; else departure time when it
    contains "depart"; else arrival time when it contains "arrival" or
    "arrive"; else price, the total price when there is one), letter case
    apart, and results with the same key stay in their input order. *)
Theorem sort_results_ranking (results : list FlightResult) (ranking_preference : string) :
  let out := sort_results results ranking_preference in
  let k := ranking_of ranking_preference in
  Permutation out results /\
  StronglySorted (ranked k) out /\
  (forall r, List.filter (tied k r) out = List.filter (tied k r) results) /\
  ranking_of (PyStr.upper ranking_preference) = k.
Proof.
  destruct (sort_results_spec results ranking_preference) as (H1 & H2 & H3).
  repeat split; [exact H1|exact H2|exact H3|].
  unfold ranking_of. by rewrite lower_upper.
Qed.

(** The preference texts of the prompt: a ranking by price is the fallback,
    and "duration" wins over the other words. *)
Example ranking_of_samples :
  ranking_of "price" = by_price /\
  ranking_of "cheapest first" = by_price /\
  ranking_of "" = by_price /\
  ranking_of "Shortest Duration, then earliest departure" = by_duration /\
  ranking_of "earliest departure" = by_departure /\
  ranking_of "earliest arrival" = by_arrival.
Proof. repeat split. Qed.

(** * Properties of __main__.py *)

(** ** From the fetch to the export *)

Lemma first_fatal_None (raw_responses : list Raw) :
  first_fatal raw_responses = None <->
  Forall (fun raw => is_fatal raw = false) raw_responses.
Proof.
  unfold first_fatal. induction raw_responses as [|raw rs IH]; [by split|].
  rewrite Forall_cons, <- IH. cbn [omap list_omap].
  destruct raw as [|msg|resp|info og rg]; cbn [is_fatal]; try tauto.
  destruct (PyStr.truthy msg); cbn [head]; [|tauto]. split; [done|]. by intros [? _].
Qed.

Lemma first_fatal_Some (raw_responses : list Raw) (msg : string) :
  first_fatal raw_responses = Some msg ->
  RawFatal msg ∈ raw_responses /\ is_fatal (RawFatal msg) = true.
Proof.
  unfold first_fatal. induction raw_responses as [|raw rs IH]; [done|].
  cbn [omap list_omap].
  destruct raw as [|m|resp|info og rg]; try (intros [H1 H2]%IH; split; [by right|done]).
  cbn [is_fatal]. destruct (PyStr.truthy m) eqn:Hm; cbn [head].
  - intros [= ->]. split; [by left|done].
  - intros [H1 H2]%IH. split; [by right|done].
Qed.

Lemma key5_set_preferred (r : FlightResult) : key5 (set_preferred r) = key5 r.
Proof. reflexivity. Qed.

Lemma apply_post_filter_keys (L : PyLib) (results : list FlightResult) (pf : PostFilter) :
  NoDup (key5 <$> results) -> NoDup (key5 <$> apply_post_filter L results pf).
Proof.
  intros Hnd. unfold apply_post_filter. destruct (filter_type pf).
  - set (m := fun r => _airline_matches r (PyStr.lower (value pf)) (leg pf)).
    assert (Hp : Permutation
                   (key5 <$> map set_preferred (List.filter m results)
                             ++ List.filter (fun r => negb (m r)) results)
                   (key5 <$> results)).
    { rewrite (filter_partition_Permutation m set_preferred results).
      rewrite <- list_fmap_compose.
      assert (Heq : (key5 ∘ (fun x => if m x then set_preferred x else x)) <$> results
                    = key5 <$> results).
      { apply list_fmap_ext. intros i r _. cbn. by destruct (m r). }
      by rewrite Heq. }
    change (NoDup (key5 <$> map set_preferred (List.filter m results)
                            ++ List.filter (fun r => negb (m r)) results)).
    by rewrite Hp.
  - destruct (fromisoformat L (value pf)) as [deadline|]; [|exact Hnd].
    eapply sublist_NoDup; [exact Hnd|]. apply fmap_sublist.
    clear. induction results as [|r rs IH]; cbn [List.filter]; [constructor|].
    destruct (arrival_keep L (leg pf) deadline r); [by apply sublist_skip|by apply sublist_cons].
Qed.

Lemma apply_post_filters_keys (L : PyLib) (post_filters : list PostFilter) :
  forall results,
    NoDup (key5 <$> results) -> NoDup (key5 <$> apply_post_filters L results post_filters).
Proof.
  unfold apply_post_filters.
  induction post_filters as [|pf pfs IH]; intros results Hnd; cbn [fold_left]; [done|].
  by apply IH, apply_post_filter_keys.
Qed.

Lemma apply_post_filters_deadline (L : PyLib) (post_filters : list PostFilter)
    (pf : PostFilter) (deadline : datetime) :
  pf ∈ post_filters ->
  filter_type pf = arrival_before ->
  fromisoformat L (value pf) = Some deadline ->
  forall results,
    Forall (fun r => arrival_keep L (leg pf) deadline r = true)
           (apply_post_filters L results post_filters).
Proof.
  intros Hin Hty Hd. induction post_filters as [|pf0 pfs IH]; intros results.
  { by apply elem_of_nil in Hin. }
  change (apply_post_filters L results (pf0 :: pfs))
    with (apply_post_filters L (apply_post_filter L results pf0) pfs).
  apply elem_of_cons in Hin as [<-|Hin]; [|by apply IH].
  eapply Forall_impl; [apply apply_post_filters_origin|]. cbn beta.
  intros r (r0 & Hr0 & Hr).
  assert (Hkeep : arrival_keep L (leg pf) deadline r0 = true).
  { unfold apply_post_filter in Hr0. rewrite Hty, Hd in Hr0.
    by apply (proj1 (list_elem_of_In _ _)), filter_In in Hr0 as [_ ?]. }
  by destruct Hr as [->| ->].
Qed.

Lemma process_results_keys (L : PyLib) (raw_responses : list Raw) :
  NoDup (key5 <$> process_results L raw_responses).
Proof.
  rewrite process_results_keep_first.
  apply (NoDup_fmap_1 key5_string). rewrite <- list_fmap_compose. apply keep_first_NoDup.
Qed.

(** X24. What reaches the export. When steps 5 to 7 of [main] hand a list
    to [export], no response of the batch was a fatal-error sentinel, and
    the list is not empty, holds no two results with the same key, is sorted
    by the ranking of the query, and every result in it meets every arrival
    deadline of the query that parses, on the legs the deadline names. *)
Theorem exported_results (E : Env) (parsed : ParsedQuery) (w w' : World)
    (results : list FlightResult) :
  search_and_rank E parsed w = (Exported results, w') ->
  let fetched :=
    fetch_all E (ParsedQuery.combinations parsed) (ParsedQuery.post_filters parsed) w in
  w' = fetched.2 /\
  Forall (fun raw => is_fatal raw = false) fetched.1 /\
  results <> [] /\
  NoDup (key5 <$> results) /\
  StronglySorted (ranked (ranking_of (ParsedQuery.ranking_preference parsed))) results /\
  forall pf deadline,
    pf ∈ ParsedQuery.post_filters parsed ->
    filter_type pf = arrival_before ->
    fromisoformat (lib E) (value pf) = Some deadline ->
    Forall (arrival_spec (lib E) (leg pf) deadline) results.
Proof.
  intros Hrun fetched. subst fetched. unfold search_and_rank in Hrun.
  destruct (fetch_all E _ _ w) as [raw w1]. cbn [fst snd].
  destruct (first_fatal raw) eqn:Hfatal; [discriminate|].
  apply first_fatal_None in Hfatal.
  pose proof (process_results_keys (lib E) raw) as Hkeys.
  set (pfs := ParsedQuery.post_filters parsed) in *.
  set (pref := ParsedQuery.ranking_preference parsed) in *.
  assert (Hfinal : exists filtered,
            filtered <> [] /\ results = sort_results filtered pref /\ w' = w1 /\
            filtered = apply_post_filters (lib E) (process_results (lib E) raw) pfs).
  { destruct (process_results (lib E) raw) as [|r rs] eqn:Hres; [discriminate|].
    destruct pfs as [|pf pfs'] eqn:Hpfs.
    - injection Hrun as <- <-. exists (r :: rs). by repeat split.
    - destruct (apply_post_filters (lib E) (r :: rs) (pf :: pfs')) as [|r1 rs1] eqn:Hf;
        [discriminate|].
      injection Hrun as <- <-. exists (r1 :: rs1). by repeat split. }
  destruct Hfinal as (filtered & Hne & -> & -> & Hfiltered).
  destruct (sort_results_spec filtered pref) as (Hperm & Hsorted & _).
  split; [reflexivity|]. split; [exact Hfatal|]. split.
  { intros Hnil. rewrite Hnil in Hperm. apply Permutation_nil_l in Hperm. done. }
  split.
  { rewrite Hperm, Hfiltered. by apply apply_post_filters_keys. }
  split; [exact Hsorted|].
  intros pf deadline Hpf Hty Hd.
  apply Forall_forall. intros r Hr. rewrite Hperm, Hfiltered in Hr.
  pose proof (apply_post_filters_deadline (lib E) pfs pf deadline Hpf Hty Hd
                (process_results (lib E) raw)) as Hall.
  rewrite Forall_forall in Hall. by apply arrival_keep_spec, Hall.
Qed.

Lemma exported_results_witness :
  let run := search_and_rank Sample.env_cache MoreSample.parsed (Sample.world 0 ∅) in
  let results := match run.1 with Exported results => results | _ => [] end in
  run.1 = Exported results /\
  results <> [] /\
  NoDup (key5 <$> results) /\
  StronglySorted (ranked by_price) results.
Proof.
  intros run results.
  assert (Hrun : run = (Exported results, run.2)) by (vm_compute; reflexivity).
  split; [by rewrite Hrun at 1|].
  destruct (exported_results Sample.env_cache MoreSample.parsed (Sample.world 0 ∅) run.2
              results Hrun) as (_ & _ & H1 & H2 & H3 & _).
  by repeat split.
Defined.

(** * Properties of llm_parser.py *)

(** ** [str.strip] *)

Lemma lstrip_split (s : string) :
  exists spaces, s = spaces +:+ PyStr.lstrip s.
Proof.
  induction s as [|a s [spaces IH]]; [by exists ""|].
  cbn [PyStr.lstrip]. destruct (Ascii.is_space a).
  - exists (String a spaces). rewrite append_cons. by rewrite <- IH.
  - by exists "".
Qed.

Lemma lstrip_clean (s : string) : clean_head (PyStr.lstrip s).
Proof.
  induction s as [|a s IH]; [done|]. cbn [PyStr.lstrip].
  by destruct (Ascii.is_space a) eqn:Ha.
Qed.

Lemma lstrip_of_clean (s : string) : clean_head s -> PyStr.lstrip s = s.
Proof. destruct s as [|a s]; [done|]. cbn. by intros ->. Qed.

Lemma string_rev_append (a b : string) : String.rev (a +:+ b) = String.rev b +:+ String.rev a.
Proof.
  apply chars_inj. by rewrite chars_rev, !chars_app, !chars_rev, rev_app_distr.
Qed.

Lemma clean_head_app (a b : string) : a <> "" -> clean_head (a +:+ b) -> clean_head a.
Proof. destruct a; [done|]. by rewrite append_cons. Qed.

Lemma strip_clean (s : string) :
  clean_head (PyStr.strip s) /\ clean_head (String.rev (PyStr.strip s)).
Proof.
  unfold PyStr.strip. set (t := PyStr.lstrip s). set (u := PyStr.lstrip (String.rev t)).
  rewrite string_rev_involutive. split; [|apply lstrip_clean].
  destruct (lstrip_split (String.rev t)) as [spaces Hsp]. fold u in Hsp.
  destruct (decide (u = "")) as [->|Hu]; [done|].
  apply (clean_head_app _ (String.rev spaces)).
  - intros Hrev. apply Hu. rewrite <- (string_rev_involutive u), Hrev. reflexivity.
  - rewrite <- string_rev_append, <- Hsp, string_rev_involutive. apply lstrip_clean.
Qed.

Lemma strip_idempotent (s : string) : PyStr.strip (PyStr.strip s) = PyStr.strip s.
Proof.
  destruct (strip_clean s) as [H1 H2]. unfold PyStr.strip at 1.
  by rewrite (lstrip_of_clean _ H1), (lstrip_of_clean _ H2), string_rev_involutive.
Qed.

Lemma substring_length_le (n m : nat) (s : string) :
  (String.length (String.substring n m s) <= m)%nat.
Proof.
  revert n m. induction s as [|a s IH]; intros n m.
  - destruct n, m; simpl; lia.
  - destruct n as [|n]; [destruct m as [|m]|]; cbn [String.substring String.length].
    + lia.
    + specialize (IH 0%nat m). lia.
    + apply IH.
Qed.

Lemma query_hash_of_strip (L : PyLib) (text : string) :
  _query_hash L (PyStr.strip text) = _query_hash L text.
Proof. unfold _query_hash. by rewrite strip_idempotent. Qed.

(** X25. The hash of a query text ignores the white space around it, and is
    at most 16 characters long. *)
Theorem query_hash_strip (L : PyLib) (text : string) :
  _query_hash L (PyStr.strip text) = _query_hash L text /\
  (String.length (_query_hash L text) <= 16)%nat.
Proof. split; [apply query_hash_of_strip|apply substring_length_le]. Qed.

Lemma load_after_save (P : ParserEnv) (parsed : ParsedQuery) (saved asked : string)
    (w : ParserWorld) :
  _load_parse P asked (_save_parse P parsed saved w)
  = if String.eqb (_query_hash (p_lib P) saved) (_query_hash (p_lib P) asked)
    then Some parsed else None.
Proof.
  unfold _load_parse, _save_parse. cbn [parse_file pf_query_hash pf_parsed].
  by destruct (String.eqb _ _).
Qed.

(** X26. Save, then load. After [_save_parse] for a query text,
    [_load_parse] returns the saved parse for a text with the same hash and
    nothing for any other text; in particular the same text with other white
    space around it gets the saved parse. Without a parse file nothing is
    loaded. *)
Theorem parse_file_round_trip (P : ParserEnv) (parsed : ParsedQuery) (saved asked : string)
    (w : ParserWorld) :
  _load_parse P asked (_save_parse P parsed saved w)
  = (if String.eqb (_query_hash (p_lib P) saved) (_query_hash (p_lib P) asked)
     then Some parsed else None) /\
  _load_parse P (PyStr.strip saved) (_save_parse P parsed saved w) = Some parsed /\
  _load_parse P asked {| parse_file := None; llm_log := llm_log w |} = None.
Proof.
  split; [apply load_after_save|]. split; [|reflexivity].
  by rewrite load_after_save, query_hash_of_strip, String.eqb_refl.
Qed.

Lemma parse_query_saved (P : ParserEnv) (text : string) (force : bool) (w w1 : ParserWorld)
    (parsed : ParsedQuery) :
  parse_query P text force w = (Some parsed, w1) ->
  _load_parse P text w1 = Some parsed /\ exists more, llm_log w1 = llm_log w ++ more.
Proof.
  unfold parse_query.
  destruct (if force then None else _load_parse P text w) as [cached|] eqn:Hload.
  { intros [= <- <-]. split; [|exists []; by rewrite app_nil_r].
    destruct force; [discriminate|exact Hload]. }
  assert (Hsaved : forall p w0, _load_parse P text (_save_parse P p text w0) = Some p).
  { intros p w0. by rewrite load_after_save, String.eqb_refl. }
  destruct (responses_parse P _ _) as [|[p|]].
  2: { intros [= <- <-]. split; [apply Hsaved|]. by eexists. }
  all: destruct (chat_parse P _ _) as [|refusal [p|]]; try discriminate;
    destruct (PyStr.truthy_opt refusal); try discriminate;
    intros [= <- <-]; (split; [apply Hsaved|]);
    cbn [_save_parse log_llm llm_log]; rewrite <- app_assoc; by eexists.
Qed.

(** X27. The parse is reused. After a [parse_query] that returned a parse,
    whether from the file or from the model, a [parse_query] of the same
    text, or of that text with other white space around it, returns the same
    parse without any request to the model and leaves the parse file as it
    is; with [force] it sends a request to the model nevertheless. *)
Theorem parse_query_reuses (P : ParserEnv) (text text' : string) (force : bool)
    (w w1 : ParserWorld) (parsed : ParsedQuery) :
  parse_query P text force w = (Some parsed, w1) ->
  PyStr.strip text' = PyStr.strip text ->
  parse_query P text' false w1 = (Some parsed, w1) /\
  exists more,
    llm_log (parse_query P text' true w1).2
    = llm_log w1 ++ ResponsesRequest (PyStr.strip text) :: more.
Proof.
  intros Hrun Hstrip. apply parse_query_saved in Hrun as [Hload _]. split.
  - unfold parse_query. cbn.
    assert (Hsame : _load_parse P text' w1 = _load_parse P text w1).
    { unfold _load_parse, _query_hash. by rewrite Hstrip. }
    by rewrite Hsame, Hload.
  - unfold parse_query. cbn [andb]. rewrite Hstrip.
    destruct (responses_parse P _ _) as [|[p|]]; cbn [snd].
    2: { cbn [_save_parse log_llm llm_log]. by exists []. }
    all: destruct (chat_parse P _ _) as [|refusal [p|]];
      try destruct (PyStr.truthy_opt refusal);
      cbn [snd _save_parse log_llm llm_log]; rewrite <- app_assoc; by eexists.
Qed.

Lemma parse_query_reuses_witness :
  let w1 := (parse_query MoreSample.parser_env "BWI to FLL  " false
               MoreSample.parser_world).2 in
  parse_query MoreSample.parser_env "  BWI to FLL" false w1 = (Some MoreSample.parsed, w1) /\
  exists more,
    llm_log (parse_query MoreSample.parser_env "  BWI to FLL" true w1).2
    = llm_log w1 ++ ResponsesRequest (PyStr.strip "BWI to FLL  ") :: more.
Proof.
  intros w1.
  apply (parse_query_reuses MoreSample.parser_env "BWI to FLL  " "  BWI to FLL" false
           MoreSample.parser_world w1 MoreSample.parsed); reflexivity.
Defined.

(** * Properties of excel_exporter.py and seed_cache.py *)

(** ** Decimal numerals *)

Lemma read_digits_uint (u : Decimal.uint) (acc : Z) (rest : string) :
  (forall a rest', rest = String a rest' -> is_digit a = false) ->
  read_digits acc (NilEmpty.string_of_uint u +:+ rest) = (uint_value acc u, rest).
Proof.
  intros Hrest. revert acc.
  induction u as [|u IH|u IH|u IH|u IH|u IH|u IH|u IH|u IH|u IH|u IH]; intros acc;
    cbn [NilEmpty.string_of_uint uint_value]; rewrite ?append_cons, ?append_nil_l;
    try (cbn [read_digits Ascii.is_nat]; apply IH).
  destruct rest as [|a rest']; [reflexivity|].
  specialize (Hrest a rest' eq_refl). unfold is_digit in Hrest. cbn [read_digits].
  by destruct (Ascii.is_nat a).
Qed.

Lemma uint_value_acc (u : Decimal.uint) (acc : positive) :
  uint_value (Z.pos acc) u = Z.pos (Pos.of_uint_acc u acc).
Proof.
  revert acc.
  induction u as [|u IH|u IH|u IH|u IH|u IH|u IH|u IH|u IH|u IH|u IH]; intros acc;
    cbn [uint_value Pos.of_uint_acc]; [reflexivity|..];
    rewrite <- IH; f_equal; lia.
Qed.

Lemma uint_value_0 (u : Decimal.uint) : uint_value 0 u = Z.of_N (Pos.of_uint u).
Proof.
  induction u as [|u IH|u IH|u IH|u IH|u IH|u IH|u IH|u IH|u IH|u IH];
    cbn [uint_value Pos.of_uint]; [reflexivity|exact IH|..];
    cbn [Z.of_N]; rewrite <- uint_value_acc; reflexivity.
Qed.

Lemma string_of_uint_head (u : Decimal.uint) :
  u <> Decimal.Nil ->
  exists a s, NilEmpty.string_of_uint u = String a s /\ is_digit a = true.
Proof. destruct u; [done|..]; intros _; eexists _, _; split; reflexivity. Qed.

(** [str(n)] for [n >= 0]: a non-empty decimal numeral of value [n]. *)
Lemma str_of_Z_nonneg (n : Z) :
  0 <= n ->
  exists u, u <> Decimal.Nil /\ PyStr.str_of_Z n = NilEmpty.string_of_uint u /\
            uint_value 0 u = n.
Proof.
  intros Hn. unfold PyStr.str_of_Z. destruct n as [|p|p]; [| |lia].
  - exists (Decimal.D0 Decimal.Nil). by repeat split.
  - exists (Pos.to_uint p). split; [apply Unsigned.to_uint_nonnil|]. split.
    + cbn [Z.to_int NilZero.string_of_int]. unfold NilZero.string_of_uint.
      pose proof (Unsigned.to_uint_nonnil p). by destruct (Pos.to_uint p).
    + by rewrite uint_value_0, Unsigned.of_to.
Qed.

Lemma str_of_Z_negative (n : Z) :
  n < 0 -> exists s, PyStr.str_of_Z n = String "-" s.
Proof.
  intros Hn. unfold PyStr.str_of_Z. destruct n as [|p|p]; [lia..|].
  eexists. reflexivity.
Qed.

(** [read_int] on a numeral followed by something that is not a digit. *)
Lemma read_int_numeral (u : Decimal.uint) (rest : string) :
  u <> Decimal.Nil ->
  (forall a rest', rest = String a rest' -> is_digit a = false) ->
  read_int (NilEmpty.string_of_uint u +:+ rest) = Some (uint_value 0 u, rest).
Proof.
  intros Hu Hrest. unfold read_int.
  destruct (string_of_uint_head u Hu) as (a & s & Hs & Ha).
  rewrite <- (read_digits_uint u 0 rest Hrest). rewrite Hs, append_cons. by rewrite Ha.
Qed.

Lemma fmt_02d_numeral (m : Z) :
  0 <= m ->
  exists u, u <> Decimal.Nil /\ PyStr.fmt_02d m = NilEmpty.string_of_uint u /\
            uint_value 0 u = m.
Proof.
  intros Hm. destruct (str_of_Z_nonneg m Hm) as (u & Hu & Hs & Hv).
  unfold PyStr.fmt_02d. destruct ((0 <=? m) && (m <? 10)).
  - exists (Decimal.D0 u). split; [done|]. split; [by rewrite Hs|exact Hv].
  - by exists u.
Qed.

Lemma parse_fmt_duration (minutes : Z) :
  _parse_duration_mins (_fmt_duration minutes) = if 0 <=? minutes then minutes else 0.
Proof.
  unfold _fmt_duration, _parse_duration_mins.
  destruct (Z.leb_spec 0 minutes) as [Hm|Hm].
  - destruct (str_of_Z_nonneg (minutes / 60)) as (uh & Huh & -> & Hh);
      [by apply Z.div_pos|].
    destruct (fmt_02d_numeral (minutes mod 60)) as (um & Hum & -> & Hmm);
      [by apply Z.mod_pos_bound|].
    rewrite (read_int_numeral uh _ Huh) by (by intros a rest' [= <- _]).
    rewrite append_cons, append_cons, append_nil_l.
    assert (Hl : PyStr.lstrip (String " " (NilEmpty.string_of_uint um +:+ "m"))
                 = NilEmpty.string_of_uint um +:+ "m").
    { cbn [PyStr.lstrip Ascii.is_space].
      destruct (string_of_uint_head um Hum) as (a & s & Hs & Ha).
      rewrite Hs, append_cons. cbn [PyStr.lstrip].
      destruct a as [[] [] [] [] [] [] [] []]; try discriminate Ha; reflexivity. }
    rewrite Hl, (read_int_numeral um _ Hum) by (by intros a rest' [= <- _]).
    rewrite Hh, Hmm. pose proof (Z.div_mod minutes 60). lia.
  - destruct (str_of_Z_negative (minutes / 60)) as [s ->];
      [apply Z.div_lt_upper_bound; lia|].
    reflexivity.
Qed.

(** X28. The duration cell, written and read back. For a duration of zero
    minutes or more, [_parse_duration_mins] returns the minutes that the
    exporter printed in the cell; a negative duration prints with a minus
    sign, which the pattern does not match, and reads back as 0, as does the
    empty cell of a missing return duration. *)
Theorem duration_cell_round_trip (value : option Z) :
  _parse_duration_mins (duration_cell value)
  = match value with
    | Some minutes => if 0 <=? minutes then minutes else 0
    | None => 0
    end.
Proof. destruct value as [minutes|]; [apply parse_fmt_duration|reflexivity]. Qed.

(** ** Route cells *)

Lemma strip_prefix_app (p s : string) : strip_prefix p (p +:+ s) = Some s.
Proof.
  induction p as [|a p IH]; [by destruct s|].
  rewrite append_cons. cbn [strip_prefix]. by rewrite Ascii.eqb_refl.
Qed.

Lemma strip_prefix_Some (p s rest : string) :
  strip_prefix p s = Some rest -> s = p +:+ rest.
Proof.
  revert s. induction p as [|a p IH]; intros s; [destruct s; by intros [= <-]|].
  destruct s as [|b s]; [done|]. cbn [strip_prefix].
  destruct (Ascii.eqb_spec a b) as [->|]; [|done].
  intros ->%IH. by rewrite append_cons.
Qed.

(** The arrow does not overlap itself: it starts at no position of a text
    that it is not a prefix of, when the arrow follows that text. *)
Lemma arrow_no_overlap (a : ascii) (o d : string) :
  String.prefix SEP (String a o) = false ->
  strip_prefix SEP (String a o +:+ SEP +:+ d) = None.
Proof.
  intros Hpre.
  destruct (strip_prefix SEP (String a o +:+ SEP +:+ d)) as [rest|] eqn:Hs; [|reflexivity].
  apply strip_prefix_Some in Hs. unfold SEP in Hs.
  destruct o as [|b [|c o]]; rewrite ?append_cons, ?append_nil_l in Hs.
  - exfalso. congruence.
  - exfalso. congruence.
  - assert (a = "226"%char /\ b = "134"%char /\ c = "146"%char) as (-> & -> & ->)
      by (repeat split; congruence).
    pose proof (proj2 (prefix_app_iff SEP (SEP +:+ o)) (ex_intro _ o eq_refl)) as Hp.
    change (SEP +:+ o) with (String "226" (String "134" (String "146" o))) in Hp.
    congruence.
Qed.

Lemma contains_cons (needle : string) (a : ascii) (hay : string) :
  PyStr.contains needle (String a hay) = false ->
  String.prefix needle (String a hay) = false /\ PyStr.contains needle hay = false.
Proof. cbn [PyStr.contains]. apply orb_false_elim. Qed.

Lemma split_once_arrow (o d : string) :
  PyStr.contains SEP o = false -> split_once SEP (o +:+ SEP +:+ d) = Some (o, d).
Proof.
  induction o as [|a o IH]; intros Hno.
  - rewrite append_nil_l. destruct d; reflexivity.
  - apply contains_cons in Hno as [Hpre Hno].
    assert (Hstep : split_once SEP (String a o +:+ SEP +:+ d)
                    = match split_once SEP (o +:+ SEP +:+ d) with
                      | Some (before, rest) => Some (String a before, rest)
                      | None => None
                      end).
    { rewrite append_cons at 1. cbn [split_once].
      rewrite <- append_cons, (arrow_no_overlap a o d Hpre). reflexivity. }
    by rewrite Hstep, (IH Hno).
Qed.

(** X29. The route cell, written and read back. When neither airport code
    holds the arrow, [_parse_route] returns the origin and the destination
    of the outbound route cell that [_route_value] writes, stripped of
    surrounding white space; from the return route cell it returns them
    swapped, or two empty strings when the result has no return departure
    and the cell is empty. *)
Theorem route_cell_round_trip (result : FlightResult) :
  PyStr.contains SEP (origin result) = false ->
  PyStr.contains SEP (destination result) = false ->
  _parse_route (_route_value result false)
  = (PyStr.strip (origin result), PyStr.strip (destination result)) /\
  _parse_route (_route_value result true)
  = if PyStr.truthy_opt (return_depart_time result)
    then (PyStr.strip (destination result), PyStr.strip (origin result))
    else ("", "").
Proof.
  intros Ho Hd. unfold _route_value, _parse_route. split.
  - by rewrite (split_once_arrow _ _ Ho).
  - destruct (PyStr.truthy_opt (return_depart_time result)); [|reflexivity].
    by rewrite (split_once_arrow _ _ Hd).
Qed.

Lemma route_cell_round_trip_witness :
  exists result,
    _process_flight_group Sample.sample_lib Sample.g_delta = Some result /\
    _parse_route (_route_value result false) = ("BWI", "FLL") /\
    _parse_route (_route_value result true) = ("", "").
Proof.
  eexists. split; [reflexivity|].
  apply route_cell_round_trip; reflexivity.
Defined.
